(** * BIPV viewer: a shallow embedding of the numeric core, the upload
    gateway and the submit workflow, with the properties of the
    specification stated and proved over it.

    Sources embedded:
    - [public/js/viewer.js]: [BIPVViewer.calculateBIPVPotential],
      [BIPVViewer.calculateSurfaceArea], [BIPVViewer.setupLights];
    - the Express server: [storage.filename] and the [POST /upload] handler;
    - the form script: the submit handler and [fetchGHI];
    - [BIPVViewer.loadModel], up to the call of the loader.

    The functions of three.js, of Node's [path] module, of busboy and
    multer and of the language that the sources call are transcribed
    from those libraries, in the modules [THREE], [Server] (for
    [path.extname], [basename] and [upload.single]) and [JS]. *)

From Stdlib Require Import Floats.
From Stdlib Require Import ZArith List String Ascii Bool Lia.
From Stdlib Require Import Reals Lra Psatz.
From Stdlib Require Import DecimalString.
From Stdlib Require DecimalZ DecimalPos.
From Stdlib Require Import Permutation.
Import ListNotations.

Set Implicit Arguments.
Set Warnings "-inexact-float,-register-all".

(* ================================================================== *)
(** * JavaScript numbers *)
(* ================================================================== *)

(** The arithmetic the sources use on numbers.  The code is written once
    over this interface and read at two carriers: IEEE binary64 (what a
    JavaScript engine computes, executable) and the real numbers (the
    specification's "real number", used for the algebraic statements). *)

Class Number (num : Type) : Type := {
  of_Z : Z -> num;                    (* an integer literal *)
  lit_0_5 : num;                      (* the literal 0.5 *)
  lit_0_15 : num;                     (* the literal 0.15 *)
  add : num -> num -> num;
  sub : num -> num -> num;
  mul : num -> num -> num;
  div : num -> num -> num;
  Math_sqrt : num -> num;
  Math_max : num -> num -> num;
  strict_eq : num -> num -> bool;     (* x === y *)
  ToBoolean : num -> bool             (* truthiness, as in x || y *)
}.

Declare Scope js_scope.
Delimit Scope js_scope with js.
Infix "+" := add : js_scope.
Infix "-" := sub : js_scope.
Infix "*" := mul : js_scope.
Infix "/" := div : js_scope.
Infix "===" := strict_eq (at level 70, no associativity) : js_scope.

(** [x || y] on numbers: the left operand when it is truthy. *)
Definition or_else {num} `{Number num} (x y : num) : num :=
  if ToBoolean x then x else y.
Infix "||" := or_else : js_scope.

(** ** binary64 *)

Module Float64.

Definition of_Z (z : Z) : float :=
  if (z <? 0)%Z then PrimFloat.opp (PrimFloat.of_uint63 (Uint63.of_Z (- z)))
  else PrimFloat.of_uint63 (Uint63.of_Z z).

(** [Math.max]: NaN when an operand is NaN, and +0 is larger than -0. *)
Definition max (a b : float) : float :=
  if PrimFloat.is_nan a || PrimFloat.is_nan b then PrimFloat.nan
  else if PrimFloat.ltb a b then b
  else if PrimFloat.ltb b a then a
  else if PrimFloat.is_zero a && PrimFloat.get_sign a then b
  else a.

(** [ToBoolean]: false at +0, -0 and NaN. *)
Definition truthy (x : float) : bool :=
  negb (PrimFloat.is_zero x || PrimFloat.is_nan x).

End Float64.

#[export] Instance Number_float : Number float := {|
  of_Z := Float64.of_Z;
  lit_0_5 := 0.5%float;
  lit_0_15 := 0.15%float;
  add := PrimFloat.add;
  sub := PrimFloat.sub;
  mul := PrimFloat.mul;
  div := PrimFloat.div;
  Math_sqrt := PrimFloat.sqrt;
  Math_max := Float64.max;
  strict_eq := PrimFloat.eqb;
  ToBoolean := Float64.truthy
|}.

(** ** The real numbers *)

Module Real.

Definition eqb (x y : R) : bool :=
  if Req_dec_T x y then true else false.

Definition truthy (x : R) : bool := negb (eqb x 0%R).

End Real.

#[export] Instance Number_R : Number R := {|
  of_Z := IZR;
  lit_0_5 := 0.5%R;
  lit_0_15 := 0.15%R;
  add := Rplus;
  sub := Rminus;
  mul := Rmult;
  div := Rdiv;
  Math_sqrt := R_sqrt.sqrt;
  Math_max := Rmax;
  strict_eq := Real.eqb;
  ToBoolean := Real.truthy
|}.

(* ================================================================== *)
(** * Built-in functions of the language and the browser *)
(* ================================================================== *)

(** Strings are modelled over the ASCII alphabet (the white space of
    ECMAScript beyond ASCII is outside it). *)

Module JS.

Local Open Scope string_scope.
Local Open Scope Z_scope.

(** ** [URLSearchParams] *)

Definition URLSearchParams : Type := list (string * string).

(** [params.get(name)]: the first value with that name, [null] (here
    [None]) when there is none. *)
Fixpoint get (params : URLSearchParams) (name : string) : option string :=
  match params with
  | [] => None
  | (k, v) :: rest => if String.eqb k name then Some v else get rest name
  end.

(** [ToString] of a string or [null]. *)
Definition ToString (v : option string) : string :=
  match v with Some s => s | None => "null" end.

(** ** [parseFloat] *)

Definition is_white_space (c : ascii) : bool :=
  let n := nat_of_ascii c in
  ((9 <=? n) && (n <=? 13))%nat || (n =? 32)%nat.

Definition is_digit (c : ascii) : bool :=
  let n := nat_of_ascii c in ((48 <=? n) && (n <=? 57))%nat.

Definition digit_value (c : ascii) : Z := Z.of_nat (nat_of_ascii c - 48).

Fixpoint trim_start (s : string) : string :=
  match s with
  | String c rest => if is_white_space c then trim_start rest else s
  | EmptyString => s
  end.

(** The longest run of decimal digits at the head of [s], and the rest. *)
Fixpoint span_digits (s : string) : list ascii * string :=
  match s with
  | String c rest =>
      if is_digit c then
        let (ds, rest') := span_digits rest in (c :: ds, rest')
      else ([], s)
  | EmptyString => ([], s)
  end.

(** The integer a run of digits denotes. *)
Definition digits_value (ds : list ascii) : Z :=
  fold_left (fun acc c => 10 * acc + digit_value c) ds 0.

(** An optional sign: whether it is [-], and the rest. *)
Definition take_sign (s : string) : bool * string :=
  match s with
  | String "-" rest => (true, rest)
  | String "+" rest => (false, rest)
  | _ => (false, s)
  end.

(** The longest prefix that is a [StrDecimalLiteral]. *)
Inductive StrDecimalLiteral : Type :=
| LInfinity (negative : bool)
| LDecimal (negative : bool) (mantissa : Z) (exponent : Z).
    (* the value is +-mantissa * 10^exponent *)

(** An [ExponentPart] at the head of [s] when there is one: [e] or [E],
    an optional sign, at least one digit. *)
Definition exponent_part (s : string) : Z :=
  match s with
  | String c rest =>
      if Ascii.eqb c "e" || Ascii.eqb c "E" then
        let (neg, rest') := take_sign rest in
        match span_digits rest' with
        | ([], _) => 0
        | (ds, _) => if neg then - digits_value ds else digits_value ds
        end
      else 0
  | EmptyString => 0
  end.

(** The scan of [parseFloat]: leading white space is skipped, then the
    longest prefix that is a [StrDecimalLiteral] is taken; [None] when
    no prefix is one. *)
Definition scan (input : string) : option StrDecimalLiteral :=
  let (neg, s) := take_sign (trim_start input) in
  if prefix "Infinity" s then Some (LInfinity neg)
  else
    let (int_digits, s1) := span_digits s in
    match s1 with
    | String "." s2 =>
        let (frac_digits, s3) := span_digits s2 in
        match int_digits, frac_digits with
        | [], [] => None
        | _, _ =>
            Some (LDecimal neg (digits_value (int_digits ++ frac_digits))
                    (exponent_part s3 - Z.of_nat (List.length frac_digits)))
        end
    | _ =>
        match int_digits with
        | [] => None
        | _ => Some (LDecimal neg (digits_value int_digits) (exponent_part s1))
        end
    end.

(** The binary64 value nearest to [+-m * 10^e] (ties to even). *)
Definition round_decimal (neg : bool) (m : Z) (e : Z) : float :=
  match m with
  | Zpos p =>
      SF2Prim
        (if 0 <=? e
         then SFdiv prec emax (S754_finite neg (p * Z.to_pos (10 ^ e)) 0)
                              (S754_finite false 1 0)
         else SFdiv prec emax (S754_finite neg p 0)
                              (S754_finite false (Z.to_pos (10 ^ (- e))) 0))
  | _ => if neg then PrimFloat.neg_zero else PrimFloat.zero
  end.

(** [parseFloat(input)]: NaN when no prefix of the trimmed input is a
    decimal literal, the Number value of the longest such prefix
    otherwise. *)
Definition parseFloat (input : string) : float :=
  match scan input with
  | None => PrimFloat.nan
  | Some (LInfinity neg) =>
      if neg then PrimFloat.neg_infinity else PrimFloat.infinity
  | Some (LDecimal neg m e) => round_decimal neg m e
  end.

End JS.

(* ================================================================== *)
(** * three.js: the vector, matrix and scene-graph functions called *)
(* ================================================================== *)

Module THREE.
Section Math.
Context {num : Type} `{Number num}.
Local Open Scope js_scope.

Record Vector3 : Type := mkVector3 { x : num; y : num; z : num }.

(** [new Vector3(x = 0, y = 0, z = 0)]: an argument that is [undefined]
    (here [None]) takes the default. *)
Definition default0 (a : option num) : num :=
  match a with Some v => v | None => of_Z 0 end.

Definition newVector3 (a b c : option num) : Vector3 :=
  mkVector3 (default0 a) (default0 b) (default0 c).

Definition subVectors (a b : Vector3) : Vector3 :=
  mkVector3 (x a - x b) (y a - y b) (z a - z b).

(** [a.cross(b)], that is [crossVectors(a, b)]. *)
Definition cross (a b : Vector3) : Vector3 :=
  mkVector3 (y a * z b - z a * y b)
            (z a * x b - x a * z b)
            (x a * y b - y a * x b).

Definition dot (a v : Vector3) : num :=
  x a * x v + y a * y v + z a * z v.

Definition length (a : Vector3) : num :=
  Math_sqrt (x a * x a + y a * y a + z a * z a).

Definition multiplyScalar (a : Vector3) (s : num) : Vector3 :=
  mkVector3 (x a * s) (y a * s) (z a * s).

Definition divideScalar (a : Vector3) (s : num) : Vector3 :=
  multiplyScalar a (of_Z 1 / s).

(** [normalize() { return this.divideScalar(this.length() || 1) }] *)
Definition normalize (a : Vector3) : Vector3 :=
  divideScalar a (length a || of_Z 1).

(** [Triangle(a, b, c).getArea()]:
    [_v0.subVectors(c, b); _v1.subVectors(a, b);
     return _v0.cross(_v1).length() * 0.5]. *)
Definition getArea (a b c : Vector3) : num :=
  let _v0 := subVectors c b in
  let _v1 := subVectors a b in
  length (cross _v0 _v1) * lit_0_5.

(** A [Matrix3] and a [Matrix4] hold their [elements] in column-major
    order; [m0 .. m8] and [e0 .. e15] are [elements[0]], ... *)
Record Matrix3 : Type := mkMatrix3 {
  m0 : num; m1 : num; m2 : num;
  m3 : num; m4 : num; m5 : num;
  m6 : num; m7 : num; m8 : num }.

Record Matrix4 : Type := mkMatrix4 {
  e0 : num; e1 : num; e2 : num; e3 : num;
  e4 : num; e5 : num; e6 : num; e7 : num;
  e8 : num; e9 : num; e10 : num; e11 : num;
  e12 : num; e13 : num; e14 : num; e15 : num }.

(** [Matrix3.set(n11, n12, n13, n21, n22, n23, n31, n32, n33)] takes its
    arguments row by row and stores them column by column. *)
Definition set (n11 n12 n13 n21 n22 n23 n31 n32 n33 : num) : Matrix3 :=
  mkMatrix3 n11 n21 n31 n12 n22 n32 n13 n23 n33.

Definition setFromMatrix4 (m : Matrix4) : Matrix3 :=
  set (e0 m) (e4 m) (e8 m)
      (e1 m) (e5 m) (e9 m)
      (e2 m) (e6 m) (e10 m).

(** [Matrix3.invert()]: the zero matrix when the determinant is 0. *)
Definition invert (te : Matrix3) : Matrix3 :=
  let n11 := m0 te in let n21 := m1 te in let n31 := m2 te in
  let n12 := m3 te in let n22 := m4 te in let n32 := m5 te in
  let n13 := m6 te in let n23 := m7 te in let n33 := m8 te in
  let t11 := n33 * n22 - n32 * n23 in
  let t12 := n32 * n13 - n33 * n12 in
  let t13 := n23 * n12 - n22 * n13 in
  let det := n11 * t11 + n21 * t12 + n31 * t13 in
  if det === of_Z 0 then
    set (of_Z 0) (of_Z 0) (of_Z 0) (of_Z 0) (of_Z 0) (of_Z 0)
        (of_Z 0) (of_Z 0) (of_Z 0)
  else
    let detInv := of_Z 1 / det in
    mkMatrix3
      (t11 * detInv)
      ((n31 * n23 - n33 * n21) * detInv)
      ((n32 * n21 - n31 * n22) * detInv)
      (t12 * detInv)
      ((n33 * n11 - n31 * n13) * detInv)
      ((n31 * n12 - n32 * n11) * detInv)
      (t13 * detInv)
      ((n21 * n13 - n23 * n11) * detInv)
      ((n22 * n11 - n21 * n12) * detInv).

(** [Matrix3.transpose()] swaps elements 1 and 3, 2 and 6, 5 and 7. *)
Definition transpose (m : Matrix3) : Matrix3 :=
  mkMatrix3 (m0 m) (m3 m) (m6 m)
            (m1 m) (m4 m) (m7 m)
            (m2 m) (m5 m) (m8 m).

(** [new Matrix3().getNormalMatrix(matrix4)]:
    [this.setFromMatrix4(matrix4).invert().transpose()]. *)
Definition getNormalMatrix (matrix4 : Matrix4) : Matrix3 :=
  transpose (invert (setFromMatrix4 matrix4)).

Definition applyMatrix3 (v : Vector3) (m : Matrix3) : Vector3 :=
  mkVector3 (m0 m * x v + m3 m * y v + m6 m * z v)
            (m1 m * x v + m4 m * y v + m7 m * z v)
            (m2 m * x v + m5 m * y v + m8 m * z v).

(** ** The scene graph *)

(** [geometry.attributes.position]: absent, or a buffer attribute whose
    [array] is the flat list of coordinates. *)
Record BufferGeometry : Type := mkBufferGeometry {
  position : option (list num) }.

(** An [Object3D] as the estimator reads it: whether it is a mesh, its
    geometry when it has one, its world matrix and its children. *)
Inductive Object3D : Type := mkObject3D {
  isMesh : bool;
  geometry : option BufferGeometry;
  matrixWorld : Matrix4;
  children : list Object3D }.

(** [Object3D.traverse(callback)]: the callback on the object, then on
    each child's subtree in order.  The callback's effect on the
    variables it closes over is a state of type [S]. *)
Fixpoint traverse {S : Type} (callback : Object3D -> S -> S)
         (o : Object3D) (s : S) : S :=
  fold_left (fun s' child => traverse callback child s')
            (children o) (callback o s).

(** The objects [traverse] visits, in the order it visits them. *)
Fixpoint descendants (o : Object3D) : list Object3D :=
  o :: flat_map descendants (children o).

(** Induction on a scene graph, with the property known of every child. *)
Fixpoint Object3D_nested_ind (P : Object3D -> Prop)
    (step : forall m g w cs, Forall P cs -> P (mkObject3D m g w cs))
    (o : Object3D) : P o :=
  match o with
  | mkObject3D m g w cs =>
      step m g w cs
        ((fix all (l : list Object3D) : Forall P l :=
            match l with
            | [] => Forall_nil P
            | c :: l' => Forall_cons c (Object3D_nested_ind step c) (all l')
            end) cs)
  end.

End Math.

Arguments Vector3 : clear implicits.
Arguments Matrix3 : clear implicits.
Arguments Matrix4 : clear implicits.
Arguments BufferGeometry : clear implicits.
Arguments Object3D : clear implicits.

End THREE.

(* ================================================================== *)
(** * The viewer: [class BIPVViewer] *)
(* ================================================================== *)

Module Viewer.
Section Estimator.
Context {num : Type} `{Number num}.

(** [parseFloat] at the carrier: [JS.parseFloat] at binary64. *)
Variable parseFloat : string -> num.

Import THREE.
Local Open Scope js_scope.

(** The fields of the viewer that the estimator reads. *)
Record BIPVViewer : Type := mkBIPVViewer {
  params : JS.URLSearchParams;
  sunLight_position : Vector3 num;
  cityModel : option (Object3D num) }.

(** [setupLights]: [this.sunLight.position.set(100, 500, 100)]. *)
Definition setupLights : Vector3 num :=
  mkVector3 (of_Z 100) (of_Z 500) (of_Z 100).

(** What [updateOverlay] is given: the GHI value and the total (the
    overlay prints the total with [toFixed(2)]). *)
Record Overlay : Type := mkOverlay {
  shown_ghi : num;
  shown_total : num }.

(** The body of the [for] loop of [calculateSurfaceArea], run from index
    [i] with the running sum [area]; [positions[k]] is [undefined]
    beyond the end of the array.  One unit of [fuel] is one test of the
    loop condition. *)
Fixpoint area_loop (fuel : nat) (positions : list num) (i : nat)
         (area : num) : num :=
  match fuel with
  | O => area
  | S fuel' =>
      if (i <? List.length positions)%nat then
        let v1 := newVector3 (nth_error positions i)
                             (nth_error positions (i + 1))
                             (nth_error positions (i + 2)) in
        let v2 := newVector3 (nth_error positions (i + 3))
                             (nth_error positions (i + 4))
                             (nth_error positions (i + 5)) in
        let v3 := newVector3 (nth_error positions (i + 6))
                             (nth_error positions (i + 7))
                             (nth_error positions (i + 8)) in
        area_loop fuel' positions (i + 9) (area + getArea v1 v2 v3)
      else area
  end.

(** The area of the triangle one turn of the loop reads at index [i]. *)
Definition triangle_at (positions : list num) (i : nat) : num :=
  getArea
    (newVector3 (nth_error positions i) (nth_error positions (i + 1))
                (nth_error positions (i + 2)))
    (newVector3 (nth_error positions (i + 3)) (nth_error positions (i + 4))
                (nth_error positions (i + 5)))
    (newVector3 (nth_error positions (i + 6)) (nth_error positions (i + 7))
                (nth_error positions (i + 8))).

(** [calculateSurfaceArea(geometry)], on
    [positions = geometry.attributes.position.array].  The index grows
    by 9 at each turn, so [length positions + 1] tests of the condition
    always reach its failure. *)
Definition calculateSurfaceArea (positions : list num) : num :=
  area_loop (S (List.length positions)) positions 0 (of_Z 0).

(** The incidence factor of a mesh: the constant [angle] of the callback. *)
Definition angle (sun : Vector3 num) (child : Object3D num) : num :=
  let normalMatrix := getNormalMatrix (matrixWorld child) in
  let normal :=
    normalize (applyMatrix3 (mkVector3 (of_Z 0) (of_Z 1) (of_Z 0))
                            normalMatrix) in
  let sunDirection := normalize sun in
  Math_max (of_Z 0) (dot normal sunDirection).

(** The energy of a mesh whose position array is [positions]. *)
Definition energy (ghi : num) (sun : Vector3 num) (child : Object3D num)
           (positions : list num) : num :=
  let angle := angle sun child in
  let surfaceArea := calculateSurfaceArea positions in
  let efficiency := lit_0_15 in
  ghi * surfaceArea * angle * efficiency.

(** The callback given to [traverse], as a function of [totalPotential].
    [geometry.computeVertexNormals()] and the recolouring of the material
    write to the scene only and are left out. *)
Definition callback (ghi : num) (sun : Vector3 num) (child : Object3D num)
           (totalPotential : num) : num :=
  if isMesh child then
    match geometry child with
    | Some geometry =>
        match position geometry with
        | None => totalPotential
        | Some positions =>
            totalPotential + energy ghi sun child positions
        end
    | None => totalPotential
    end
  else totalPotential.

(** Whether the callback reaches the energy computation on [o]: a mesh
    with a geometry that has a position attribute. *)
Definition has_positions (o : Object3D num) : bool :=
  isMesh o &&
  match geometry o with
  | Some g => match position g with Some _ => true | None => false end
  | None => false
  end.

(** [const ghi = parseFloat(this.params.get('ghi')) || 5.0]. *)
Definition ghi_of (p : JS.URLSearchParams) : num :=
  parseFloat (JS.ToString (JS.get p "ghi")) || of_Z 5.

(** [calculateBIPVPotential()]: nothing when there is no model,
    otherwise the overlay's content. *)
Definition calculateBIPVPotential (this : BIPVViewer) : option Overlay :=
  match cityModel this with
  | None => None
  | Some model =>
      let ghi := ghi_of (params this) in
      let totalPotential :=
        traverse (callback ghi (sunLight_position this)) model (of_Z 0) in
      Some (mkOverlay ghi totalPotential)
  end.

End Estimator.

Arguments BIPVViewer : clear implicits.
Arguments Overlay : clear implicits.

End Viewer.

(* ================================================================== *)
(** * The specification's reading of the area calculator *)
(* ================================================================== *)

Module AreaSpec.

Import THREE.
Local Open Scope R_scope.

(** Section 4.1: "for triangle (v1, v2, v3),
    area = 0.5 x |(v2 - v1) x (v3 - v1)|". *)
Definition triangle_area (v1 v2 v3 : Vector3 R) : R :=
  let u := subVectors v2 v1 in
  let w := subVectors v3 v1 in
  let c := cross u w in
  0.5 * sqrt (x c * x c + y c * y c + z c * z c).

(** "each consecutive group of 9 values encoding three 3D points in
    order". *)
Fixpoint triangles (buffer : list R)
  : list (Vector3 R * Vector3 R * Vector3 R) :=
  match buffer with
  | x1 :: y1 :: z1 :: x2 :: y2 :: z2 :: x3 :: y3 :: z3 :: rest =>
      (mkVector3 x1 y1 z1, mkVector3 x2 y2 z2, mkVector3 x3 y3 z3)
        :: triangles rest
  | _ => []
  end.

(** "the sum of triangle areas". *)
Definition total_area (buffer : list R) : R :=
  fold_right (fun t acc => let '(v1, v2, v3) := t in
                           triangle_area v1 v2 v3 + acc)
             0 (triangles buffer).

(** The flat buffer of one triangle. *)
Definition buffer_of (v1 v2 v3 : Vector3 R) : list R :=
  [x v1; y v1; z v1; x v2; y v2; z v2; x v3; y v3; z v3].

(** The triangle has a right angle at [a], and both sides at [a] have
    length [L]. *)
Definition right_angle_at (a b c : Vector3 R) (L : R) : Prop :=
  let u := subVectors b a in
  let w := subVectors c a in
  dot u w = 0 /\ dot u u = L * L /\ dot w w = L * L.

Definition right_triangle (v1 v2 v3 : Vector3 R) (L : R) : Prop :=
  right_angle_at v1 v2 v3 L \/ right_angle_at v2 v3 v1 L
  \/ right_angle_at v3 v1 v2 L.

End AreaSpec.

(* ================================================================== *)
(** * The upload gateway: the Express server *)
(* ================================================================== *)

Module Server.

Local Open Scope string_scope.
Local Open Scope Z_scope.

(** ** [path.extname] (Node, POSIX), as [lib/path.js] computes it *)

Record ExtState : Type := mkExtState {
  startDot : Z;
  startPart : Z;
  end_ : Z;
  matchedSlash : bool;
  preDotState : Z }.

(** The loop [for (let i = path.length - 1; i >= 0; --i)]; [n] is
    [i + 1].  The [break] returns at once, [continue] goes on with the
    state unchanged. *)
Fixpoint extname_loop (path : string) (n : nat) (s : ExtState) : ExtState :=
  match n with
  | O => s
  | S i =>
      let idx := Z.of_nat i in
      match String.get i path with
      | None => s
      | Some code =>
          if Ascii.eqb code "/" then
            if negb (matchedSlash s) then
              mkExtState (startDot s) (idx + 1) (end_ s) (matchedSlash s)
                         (preDotState s)
            else extname_loop path i s
          else
            let s1 :=
              if end_ s =? -1 then
                mkExtState (startDot s) (startPart s) (idx + 1) false
                           (preDotState s)
              else s in
            let s2 :=
              if Ascii.eqb code "." then
                if startDot s1 =? -1 then
                  mkExtState idx (startPart s1) (end_ s1) (matchedSlash s1)
                             (preDotState s1)
                else if negb (preDotState s1 =? 1) then
                  mkExtState (startDot s1) (startPart s1) (end_ s1)
                             (matchedSlash s1) 1
                else s1
              else if negb (startDot s1 =? -1) then
                mkExtState (startDot s1) (startPart s1) (end_ s1)
                           (matchedSlash s1) (-1)
              else s1 in
            extname_loop path i s2
      end
  end.

Definition extname (path : string) : string :=
  let s := extname_loop path (String.length path)
                        (mkExtState (-1) 0 (-1) true 0) in
  if (startDot s =? -1) || (end_ s =? -1) || (preDotState s =? 0)
     || ((preDotState s =? 1) && (startDot s =? end_ s - 1)
         && (startDot s =? startPart s + 1))
  then ""
  else substring (Z.to_nat (startDot s))
                 (Z.to_nat (end_ s - startDot s)) path.

(** ** The storage engine and the route *)

(** [Date.now()] is an integer number of milliseconds; added to a
    string it is written in decimal. *)
Definition Number_toString (n : Z) : string :=
  NilZero.string_of_int (Z.to_int n).

(** [filename: (req, file, cb) =>
      cb(null, Date.now() + path.extname(file.originalname))]. *)
Definition storage_filename (now : Z) (originalname : string) : string :=
  Number_toString now ++ extname originalname.

(** ** busboy: the file name of a part *)

Definition backslash : ascii := ascii_of_nat 92.

(** The end of [basename]: the names of the directory itself and of its
    parent count as no name. *)
Definition no_dots (path : string) : string :=
  if String.eqb path ".." || String.eqb path "." then "" else path.

(** [basename(path)] of busboy's [utils.js], which busboy applies to the
    [filename] parameter of a part: the loop
    [for (i = path.length - 1; i >= 0; --i)] returns what follows the
    last slash or backslash; [n] is [i + 1]. *)
Fixpoint basename_loop (path : string) (n : nat) : string :=
  match n with
  | O => no_dots path
  | S i =>
      match String.get i path with
      | Some code =>
          if Ascii.eqb code "/" || Ascii.eqb code backslash then
            no_dots (substring (S i) (String.length path - S i)%nat path)
          else basename_loop path i
      | None => basename_loop path i
      end
  end.

Definition basename (path : string) : string :=
  basename_loop path (String.length path).

(** ** multer: [upload.single('cityModel')] *)

(** A part of the multipart body as busboy hands it to multer: a text
    field (within the limits of size), or a file with the [filename]
    parameter of its header. *)
Inductive Part : Type :=
| FieldPart (fieldname value : string)
| FilePart (fieldname sent : string).

(** [req.file] as multer sets it. *)
Record File : Type := mkFile {
  originalname : string;
  filename : string }.

(** A request with a well-formed multipart body: the time at which its
    file is handled, and its parts in order. *)
Record HttpRequest : Type := mkRequest {
  now : Z;
  parts : list Part }.

Inductive MulterError : Type :=
| LIMIT_UNEXPECTED_FILE (field : string).

(** The listeners of multer's middleware, over the parts in order.  A
    text field goes to [req.body].  A file whose name is empty after
    [basename] is skipped: [if (!filename) return fileStream.resume()].
    Any other file goes through the file filter,
    [if ((filesLeft[file.fieldname] || 0) <= 0)
       return cb(new MulterError('LIMIT_UNEXPECTED_FILE', file.fieldname))],
    [filesLeft[file.fieldname] -= 1], and is then given its name by the
    storage engine and set as [req.file].  [filesLeft] is the count for
    the field [name]; no other field has one.  The first error ends the
    request. *)
Fixpoint single_loop (name : string) (now : Z) (parts : list Part)
         (filesLeft : nat) (file : option File)
  : MulterError + option File :=
  match parts with
  | [] => inr file
  | FieldPart _ _ :: rest => single_loop name now rest filesLeft file
  | FilePart fieldname sent :: rest =>
      let base := basename sent in
      if String.eqb base "" then single_loop name now rest filesLeft file
      else if String.eqb fieldname name && (0 <? filesLeft)%nat then
        single_loop name now rest (filesLeft - 1)%nat
                    (Some (mkFile base (storage_filename now base)))
      else inl (LIMIT_UNEXPECTED_FILE fieldname)
  end.

(** [upload.single(name)]: an error given to [next], or [req.file]. *)
Definition upload_single (name : string) (req : HttpRequest)
  : MulterError + option File :=
  single_loop name (now req) (parts req) 1 None.

(** A body: the text given to [res.send], the object given to
    [res.json], or the page of Express's default error handler. *)
Inductive Body : Type :=
| Text (s : string)
| Json (success : bool) (filename : string)
| ErrorPage.

Record HttpResponse : Type := mkResponse {
  status : Z;
  body : Body }.

(** [app.post('/upload', upload.single('cityModel'), (req, res) => ...)].
    An error of the middleware skips the handler: no error handler is
    installed, so Express answers with status 500.  [res.json] answers
    with status 200. *)
Definition post_upload (req : HttpRequest) : HttpResponse :=
  match upload_single "cityModel" req with
  | inl _ => mkResponse 500 ErrorPage
  | inr None => mkResponse 400 (Text "No file uploaded.")
  | inr (Some file) => mkResponse 200 (Json true (filename file))
  end.

End Server.

(* ================================================================== *)
(** * The specification's reading of an upload request *)
(* ================================================================== *)

Module UploadSpec.

Import Server.
Local Open Scope string_scope.

(** A slash or a backslash. *)
Definition is_separator (c : ascii) : bool :=
  Ascii.eqb c "/" || Ascii.eqb c backslash.

(** Whether a path holds a slash or a backslash. *)
Fixpoint has_separator (path : string) : bool :=
  match path with
  | EmptyString => false
  | String c rest => is_separator c || has_separator rest
  end.

(** The last component of a path: what follows its last slash or
    backslash, the path itself when it has neither. *)
Fixpoint last_component (path : string) : string :=
  match path with
  | EmptyString => EmptyString
  | String c rest =>
      if is_separator c || has_separator rest then last_component rest
      else path
  end.

(** The base name of a file: the last component of the name sent,
    unless that is "." or "..", which name no file. *)
Definition base_name (sent : string) : string :=
  if in_dec string_dec (last_component sent) ["."; ".."] then ""
  else last_component sent.

(** The files of a request that have a name: the field and the base
    name of each, in order. *)
Fixpoint named_files (parts : list Part) : list (string * string) :=
  match parts with
  | [] => []
  | FieldPart _ _ :: rest => named_files rest
  | FilePart fieldname sent :: rest =>
      match base_name sent with
      | EmptyString => named_files rest
      | name => (fieldname, name) :: named_files rest
      end
  end.

End UploadSpec.

(* ================================================================== *)
(** * The form script: the submit handler and [fetchGHI] *)
(* ================================================================== *)

Module Client.

Local Open Scope string_scope.

(** ** Values *)

(** The values a parsed JSON body and its members take. *)
Inductive value : Type :=
| VUndefined
| VNull
| VBoolean (b : bool)
| VNumber (n : float)
| VString (s : string)
| VArray (items : list value)
| VObject (props : list (string * value)).

(** [ToBoolean] on values, as [!ghi] applies it. *)
Definition truthy (v : value) : bool :=
  match v with
  | VUndefined | VNull => false
  | VBoolean b => b
  | VNumber n => Float64.truthy n
  | VString s => negb (String.eqb s "")
  | VArray _ | VObject _ => true
  end.

(** The absence signal: [null] or [undefined]. *)
Definition absent (v : value) : bool :=
  match v with VUndefined | VNull => true | _ => false end.

Fixpoint own_property (props : list (string * value)) (key : string)
  : option value :=
  match props with
  | [] => None
  | (k, v) :: rest => if String.eqb k key then Some v else own_property rest key
  end.

(** ** Computations: what is done, in order, and how it ends *)

Inductive error : Type :=
| TypeError          (* a member read on [null] or [undefined] *)
| SyntaxError        (* [response.json()] on a body that is not JSON *)
| NetworkFailure.    (* [fetch] rejected *)

(** What a request comes to: a network error, or a response with its
    [ok] flag, its [statusText] and what [response.json()] gives
    ([None] when the body is not JSON). *)
Inductive FetchOutcome : Type :=
| NetworkError
| Response (ok : bool) (statusText : string) (json : option value).

(** The query parameters the handler navigates with. *)
Record ViewerParams : Type := mkViewerParams {
  model : value;
  lat : string;
  lng : string;
  date : string;
  ghi : value }.

Inductive Event : Type :=
| PreventDefault
| Request (method url : string)          (* [fetch] is called *)
| Settled (url : string) (o : FetchOutcome)   (* its promise settles *)
| Fulfilled_fetchGHI (v : value)         (* [await fetchGHI(..)] resumes *)
| ConsoleError (label : string)
| ConsoleLog (v : value)
| Alert (message : string)
| Navigate (p : ViewerParams).

Inductive completion (A : Type) : Type :=
| Normal (a : A)
| Throw (e : error).
Arguments Normal {A} a.
Arguments Throw {A} e.

(** A computation: the events it performs and its completion. *)
Definition M (A : Type) : Type := (list Event * completion A)%type.

Definition ret {A} (a : A) : M A := ([], Normal a).

Definition bind {A B} (m : M A) (k : A -> M B) : M B :=
  match m with
  | (t, Normal a) => let (t', r) := k a in ((t ++ t')%list, r)
  | (t, Throw e) => (t, Throw e)
  end.

Definition emit (e : Event) : M unit := ([e], Normal tt).

Definition throw {A} (e : error) : M A := ([], Throw e).

(** [try { m } catch (error) { handler }]. *)
Definition try_catch {A} (m : M A) (handler : error -> M A) : M A :=
  match m with
  | (t, Throw e) => let (t', r) := handler e in ((t ++ t')%list, r)
  | done => done
  end.

Declare Scope client_scope.
Delimit Scope client_scope with client.
Notation "x <- m ;; k" := (bind m (fun x => k))
  (at level 61, m at next level, right associativity) : client_scope.
Notation "m ;; k" := (bind m (fun _ => k))
  (at level 61, right associativity) : client_scope.
Local Open Scope client_scope.

Section Script.

(** What a member read gives when the key is not an own property of a
    plain object: the members inherited from prototypes, and the index
    and [length] members of arrays and strings. *)
Variable inherited : value -> string -> value.

(** [v[key]] (and [v.key]): a [TypeError] on [null] and [undefined]. *)
Definition get_property (v : value) (key : string) : M value :=
  match v with
  | VUndefined | VNull => throw TypeError
  | VObject props =>
      match own_property props key with
      | Some member => ret member
      | None => ret (inherited v key)
      end
  | _ => ret (inherited v key)
  end.

(** Successive member reads [v[key][key']...], as [fetchGHI] chains
    them. *)
Fixpoint read_path (v : value) (key : string) (rest : list string) : M value :=
  match rest with
  | [] => get_property v key
  | key' :: rest' =>
      member <- get_property v key ;;
      read_path member key' rest'
  end.

(** [await fetch(url, {method})], the request coming to [o]. *)
Definition fetch (method url : string) (o : FetchOutcome) : M FetchOutcome :=
  emit (Request method url) ;;
  emit (Settled url o) ;;
  match o with
  | NetworkError => throw NetworkFailure
  | Response _ _ _ => ret o
  end.

Definition response_ok (r : FetchOutcome) : bool :=
  match r with Response ok _ _ => ok | NetworkError => false end.

(** [await response.json()]. *)
Definition response_json (r : FetchOutcome) : M value :=
  match r with
  | Response _ _ (Some data) => ret data
  | _ => throw SyntaxError
  end.

Definition apiUrl (lat lon date : string) : string :=
  "https://power.larc.nasa.gov/api/temporal/daily/point?parameters=ALLSKY_SFC_SW_DWN&community=RE&longitude="
    ++ lon ++ "&latitude=" ++ lat ++ "&start=" ++ date ++ "&end=" ++ date
    ++ "&format=JSON".

(** [async function fetchGHI(lat, lon, date)], the request to the
    external API coming to [o]. *)
Definition fetchGHI (lat lon date : string) (o : FetchOutcome) : M value :=
  try_catch
    (response <- fetch "GET" (apiUrl lat lon date) o ;;
     if response_ok response then
       data <- response_json response ;;
       properties <- get_property data "properties" ;;
       parameter <- get_property properties "parameter" ;;
       series <- get_property parameter "ALLSKY_SFC_SW_DWN" ;;
       get_property series date
     else
       emit (ConsoleError "Failed to fetch GHI:") ;;
       ret VNull)
    (fun _ =>
       emit (ConsoleError "Error fetching GHI:") ;;
       ret VNull).

(** [value.replace(/-/g, '')]. *)
Fixpoint remove_dashes (s : string) : string :=
  match s with
  | String c rest =>
      if Ascii.eqb c "-" then remove_dashes rest
      else String c (remove_dashes rest)
  | EmptyString => EmptyString
  end.

(** What the handler reads from the form. *)
Record Form : Type := mkForm {
  latitude : string;
  longitude : string;
  date_value : string }.

(** What the two requests come to. *)
Record World : Type := mkWorld {
  ghi_request : FetchOutcome;
  upload_request : FetchOutcome }.

(** The listener of the form's [submit] event.  The [return] after the
    alert leaves the function: nothing follows the [try] statement. *)
Definition submit (form : Form) (w : World) : M unit :=
  emit PreventDefault ;;
  let latitude := latitude form in
  let longitude := longitude form in
  let date := remove_dashes (date_value form) in
  try_catch
    (ghi <- fetchGHI latitude longitude date (ghi_request w) ;;
     emit (Fulfilled_fetchGHI ghi) ;;
     if negb (truthy ghi) then
       emit (Alert "Failed to retrieve GHI data. Please try again.")
     else
       response <- fetch "POST" "/upload" (upload_request w) ;;
       if response_ok response then
         data <- response_json response ;;
         filename <- get_property data "filename" ;;
         let params := mkViewerParams filename latitude longitude date ghi in
         emit (ConsoleLog ghi) ;;
         emit (Navigate params)
       else ret tt)
    (fun _ => emit (ConsoleError "Upload failed:")).

(** The events of a run. *)
Definition trace {A} (m : M A) : list Event := fst m.

End Script.

(** ** Reading a response body *)

(** The member reached from [v] along [path] through own properties of
    plain objects only. *)
Fixpoint own_path (v : value) (path : list string) : option value :=
  match path with
  | [] => Some v
  | key :: rest =>
      match v with
      | VObject props =>
          match own_property props key with
          | Some member => own_path member rest
          | None => None
          end
      | _ => None
      end
  end.

(** [w] is [v], or a member reached from [v] through own properties. *)
Inductive member_of (w : value) : value -> Prop :=
| member_self : member_of w w
| member_property props key member :
    own_property props key = Some member ->
    member_of w member ->
    member_of w (VObject props).

(** The keys [fetchGHI] reads, in order. *)
Definition ghi_path (date : string) : list string :=
  ["properties"; "parameter"; "ALLSKY_SFC_SW_DWN"; date].

(** The failures of the external request that the specification lists:
    "network error, non-success status, malformed JSON, or a response
    body missing the requested date key". *)
Inductive request_failed (date : string) : FetchOutcome -> Prop :=
| failed_network : request_failed date NetworkError
| failed_status statusText json :
    request_failed date (Response false statusText json)
| failed_malformed statusText :
    request_failed date (Response true statusText None)
| failed_missing_key statusText data :
    own_path data (ghi_path date) = None ->
    request_failed date (Response true statusText (Some data)).

(** ** Reading a trace *)

(** Every occurrence of an event satisfying [Q] has an event satisfying
    [P] before it. *)
Definition preceded_by (P Q : Event -> Prop) (t : list Event) : Prop :=
  forall before e after,
    t = (before ++ e :: after)%list -> Q e ->
    exists e', In e' before /\ P e'.

Definition is_upload_request (e : Event) : Prop :=
  e = Request "POST" "/upload".

Definition is_ghi_fulfilled (e : Event) : Prop :=
  exists v, e = Fulfilled_fetchGHI v.

Definition is_navigation (e : Event) : Prop :=
  exists p, e = Navigate p.

Definition is_alert (e : Event) : Prop :=
  exists message, e = Alert message.

(** The upload request settled with a response whose [ok] is true and
    whose body is JSON. *)
Definition is_upload_success (e : Event) : Prop :=
  exists statusText data,
    e = Settled "/upload" (Response true statusText (Some data)).

End Client.

(* ================================================================== *)
(** * The normal matrix, as linear algebra *)
(* ================================================================== *)

Module NormalMatrixSpec.

Import THREE.
Local Open Scope R_scope.

(** The product of two 3x3 matrices (column-major elements). *)
Definition multiply3 (a b : Matrix3 R) : Matrix3 R :=
  mkMatrix3
    (m0 a * m0 b + m3 a * m1 b + m6 a * m2 b)
    (m1 a * m0 b + m4 a * m1 b + m7 a * m2 b)
    (m2 a * m0 b + m5 a * m1 b + m8 a * m2 b)
    (m0 a * m3 b + m3 a * m4 b + m6 a * m5 b)
    (m1 a * m3 b + m4 a * m4 b + m7 a * m5 b)
    (m2 a * m3 b + m5 a * m4 b + m8 a * m5 b)
    (m0 a * m6 b + m3 a * m7 b + m6 a * m8 b)
    (m1 a * m6 b + m4 a * m7 b + m7 a * m8 b)
    (m2 a * m6 b + m5 a * m7 b + m8 a * m8 b).

Definition identity3 : Matrix3 R := mkMatrix3 1 0 0 0 1 0 0 0 1.

Definition determinant3 (m : Matrix3 R) : R :=
  m0 m * (m8 m * m4 m - m5 m * m7 m)
  + m1 m * (m5 m * m6 m - m8 m * m3 m)
  + m2 m * (m7 m * m3 m - m4 m * m6 m).

End NormalMatrixSpec.

(* ================================================================== *)
(** * The specification's reading of the incidence factor *)
(* ================================================================== *)

Module IrradianceSpec.

Import THREE.
Local Open Scope R_scope.

(** A 3x3 matrix of linear algebra: [rij] is the entry of row [i] and
    column [j]. *)
Record M3 : Type := mkM3 {
  r11 : R; r12 : R; r13 : R;
  r21 : R; r22 : R; r23 : R;
  r31 : R; r32 : R; r33 : R }.

(** The linear part of a world matrix, whose 16 elements three.js keeps
    column by column: the images of the three local axes are its
    columns. *)
Definition linear_part (w : Matrix4 R) : M3 :=
  mkM3 (e0 w) (e4 w) (e8 w)
       (e1 w) (e5 w) (e9 w)
       (e2 w) (e6 w) (e10 w).

Definition product (a b : M3) : M3 :=
  mkM3 (r11 a * r11 b + r12 a * r21 b + r13 a * r31 b)
       (r11 a * r12 b + r12 a * r22 b + r13 a * r32 b)
       (r11 a * r13 b + r12 a * r23 b + r13 a * r33 b)
       (r21 a * r11 b + r22 a * r21 b + r23 a * r31 b)
       (r21 a * r12 b + r22 a * r22 b + r23 a * r32 b)
       (r21 a * r13 b + r22 a * r23 b + r23 a * r33 b)
       (r31 a * r11 b + r32 a * r21 b + r33 a * r31 b)
       (r31 a * r12 b + r32 a * r22 b + r33 a * r32 b)
       (r31 a * r13 b + r32 a * r23 b + r33 a * r33 b).

Definition transposed (a : M3) : M3 :=
  mkM3 (r11 a) (r21 a) (r31 a)
       (r12 a) (r22 a) (r32 a)
       (r13 a) (r23 a) (r33 a).

Definition unit_matrix : M3 := mkM3 1 0 0  0 1 0  0 0 1.

Definition determinant (a : M3) : R :=
  r11 a * (r22 a * r33 a - r23 a * r32 a)
  - r12 a * (r21 a * r33 a - r23 a * r31 a)
  + r13 a * (r21 a * r32 a - r22 a * r31 a).

(** [n] is the normal matrix of [a]: the transpose of the inverse of
    [a]. *)
Definition normal_matrix_of (n a : M3) : Prop :=
  product (transposed n) a = unit_matrix.

(** The image of a vector under a matrix. *)
Definition image (a : M3) (v : Vector3 R) : Vector3 R :=
  mkVector3 (r11 a * x v + r12 a * y v + r13 a * z v)
            (r21 a * x v + r22 a * y v + r23 a * z v)
            (r31 a * x v + r32 a * y v + r33 a * z v).

Definition inner (a b : Vector3 R) : R :=
  x a * x b + y a * y b + z a * z b.

Definition norm (a : Vector3 R) : R := sqrt (inner a a).

(** The cosine of the angle between two vectors that are not zero. *)
Definition cosine (a b : Vector3 R) : R := inner a b / (norm a * norm b).

Definition up : Vector3 R := mkVector3 0 1 0.

(** The incidence factor of a mesh whose normal matrix is [n], under a
    light at [sun]. *)
Definition incidence (n : M3) (sun : Vector3 R) : R :=
  Rmax 0 (cosine (image n up) sun).

End IrradianceSpec.

(* ================================================================== *)
(** * Scenes, requests and bodies used as examples *)
(* ================================================================== *)

Module Examples.

Import THREE Viewer.
Local Open Scope string_scope.

Section Scenes.
Context {num : Type} `{Number num}.

Definition identity4 : Matrix4 num :=
  mkMatrix4 (of_Z 1) (of_Z 0) (of_Z 0) (of_Z 0)
            (of_Z 0) (of_Z 1) (of_Z 0) (of_Z 0)
            (of_Z 0) (of_Z 0) (of_Z 1) (of_Z 0)
            (of_Z 0) (of_Z 0) (of_Z 0) (of_Z 1).

(** A horizontal rectangle of 2 by 5, as two triangles. *)
Definition roof_positions : list num :=
  map of_Z [0; 0; 0;  0; 0; 5;  2; 0; 5;
            0; 0; 0;  2; 0; 5;  2; 0; 0]%Z.

Definition roof : Object3D num :=
  mkObject3D true (Some (mkBufferGeometry (Some roof_positions)))
             identity4 [].

(** A mesh whose geometry has no position attribute, and an empty group. *)
Definition bare_mesh : Object3D num :=
  mkObject3D true (Some (mkBufferGeometry None)) identity4 [].

Definition empty_group : Object3D num :=
  mkObject3D false None identity4 [].

(** A light straight above. *)
Definition zenith : Vector3 num := mkVector3 (of_Z 0) (of_Z 500) (of_Z 0).

(** The roof set upright and moved by (7, 8, 9): its local axes x, y
    and z go to x, 2z and -y; and a light in front of it. *)
Definition wall : Object3D num :=
  mkObject3D true (Some (mkBufferGeometry (Some roof_positions)))
             (mkMatrix4 (of_Z 1) (of_Z 0) (of_Z 0) (of_Z 0)
                        (of_Z 0) (of_Z 0) (of_Z 2) (of_Z 0)
                        (of_Z 0) (of_Z (-1)) (of_Z 0) (of_Z 0)
                        (of_Z 7) (of_Z 8) (of_Z 9) (of_Z 1)) [].

Definition south : Vector3 num := mkVector3 (of_Z 0) (of_Z 0) (of_Z 500).

(** The roof sheared so that its representative normal, (1, 0, -1), is
    perpendicular to the light of [setupLights]. *)
Definition tilted : Object3D num :=
  mkObject3D true (Some (mkBufferGeometry (Some roof_positions)))
             (mkMatrix4 (of_Z 1) (of_Z 0) (of_Z 1) (of_Z 0)
                        (of_Z 0) (of_Z 0) (of_Z (-1)) (of_Z 0)
                        (of_Z 0) (of_Z 1) (of_Z 0) (of_Z 0)
                        (of_Z 0) (of_Z 0) (of_Z 0) (of_Z 1)) [].

End Scenes.

(** A viewer opened on the roof, under the light of [setupLights]. *)
Definition viewer_on (query : JS.URLSearchParams) : BIPVViewer float :=
  mkBIPVViewer query setupLights (Some roof).

(** A body of the external API: one value of the series, for one day. *)
Definition api_body (day : string) (v : Client.value) : Client.value :=
  Client.VObject [("properties",
    Client.VObject [("parameter",
      Client.VObject [("ALLSKY_SFC_SW_DWN", Client.VObject [(day, v)])])])].

(** The form filled for 1 January 2024 in Berlin. *)
Definition berlin : Client.Form :=
  Client.mkForm "52.5" "13.4" "2024-01-01".

(** No member is inherited. *)
Definition own_only (v : Client.value) (key : string) : Client.value :=
  Client.VUndefined.

End Examples.

(* ================================================================== *)
(** * The run of the submit handler, and the server behind it *)
(* ================================================================== *)

Module Flow.

Import Client.
Local Open Scope string_scope.

(** What follows the fulfilment of [fetchGHI] in a run of the submit
    handler, by the value [v] it returned and what the upload request
    comes to. *)
Definition after_ghi (inherited : value -> string -> value) (form : Form)
           (v : value) (upload : FetchOutcome) : list Event :=
  if negb (truthy v) then
    [Alert "Failed to retrieve GHI data. Please try again."]
  else
    Request "POST" "/upload" :: Settled "/upload" upload ::
    match upload with
    | NetworkError => [ConsoleError "Upload failed:"]
    | Response false _ _ => []
    | Response true _ None => [ConsoleError "Upload failed:"]
    | Response true _ (Some data) =>
        match get_property inherited data "filename" with
        | (_, Normal filename) =>
            [ConsoleLog v;
             Navigate (mkViewerParams filename (latitude form)
                         (longitude form)
                         (remove_dashes (date_value form)) v)]
        | (_, Throw _) => [ConsoleError "Upload failed:"]
        end
    end.

(** The response of the server as [fetch] delivers it to the page: [ok]
    is a status from 200 to 299, and [response.json()] parses the body
    that [res.json] wrote (the text of the 400 answer and the error
    page are no JSON). *)
Definition deliver (r : Server.HttpResponse) : FetchOutcome :=
  Response ((200 <=? Server.status r)%Z && (Server.status r <=? 299)%Z)
           (if (Server.status r =? 200)%Z then "OK"
            else if (Server.status r =? 400)%Z then "Bad Request"
            else "Internal Server Error")
           (match Server.body r with
            | Server.Json success filename =>
                Some (VObject [("success", VBoolean success);
                               ("filename", VString filename)])
            | Server.Text _ => None
            | Server.ErrorPage => None
            end).

(** [loadModel], up to the call of the loader: the address it asks the
    loader for, none when the [model] parameter is absent or empty. *)
Definition loadModel_url (params : JS.URLSearchParams) : option string :=
  match JS.get params "model" with
  | None => None
  | Some modelFile =>
      if String.eqb modelFile "" then None
      else Some ("/uploads/" ++ modelFile)
  end.

End Flow.

(* ================================================================== *)
(** * Stored names *)
(* ================================================================== *)

Module Names.

Import Server.
Local Open Scope string_scope.

(** Whether the character [c] occurs in [s]. *)
Fixpoint occurs (c : ascii) (s : string) : bool :=
  match s with
  | EmptyString => false
  | String a rest => Ascii.eqb a c || occurs c rest
  end.

(** What the loop of [extname] keeps true, the indices from [n] on
    having been read: either nothing but slashes was read, or [end_] is
    past the last character of the component, no slash lies between
    [n] and [end_], and [startDot] is the last dot between them, if
    there is one. *)
Definition extname_inv (path : string) (n : nat) (s : ExtState) : Prop :=
  (end_ s = (-1)%Z /\ startDot s = (-1)%Z /\ matchedSlash s = true)
  \/ (exists e : nat,
        end_ s = Z.of_nat e /\ matchedSlash s = false
        /\ (n < e)%nat /\ (e <= String.length path)%nat
        /\ (forall k, (n <= k < e)%nat -> String.get k path <> Some "/"%char)
        /\ ((startDot s = (-1)%Z
             /\ forall k, (n <= k < e)%nat -> String.get k path <> Some "."%char)
            \/ (exists d : nat,
                  startDot s = Z.of_nat d /\ (n <= d < e)%nat
                  /\ String.get d path = Some "."%char
                  /\ forall k, (d < k < e)%nat ->
                               String.get k path <> Some "."%char))).

End Names.

(* ================================================================== *)
(** * Moving and scaling a mesh; the total of a scene *)
(* ================================================================== *)

Module Geometry.

Import THREE Viewer.
Local Open Scope R_scope.

(** The buffer of the mesh moved by [t]: every vertex (three
    consecutive values) has [t] added; values left over at the end are
    kept. *)
Fixpoint translate (t : Vector3 R) (buffer : list R) : list R :=
  match buffer with
  | vx :: vy :: vz :: rest =>
      (vx + x t) :: (vy + y t) :: (vz + z t) :: translate t rest
  | _ => buffer
  end.

(** The buffer of the mesh scaled by [s] about the origin. *)
Definition scale (s : R) (buffer : list R) : list R :=
  map (fun v => s * v) buffer.

(** The total the estimator accumulates over the subtree of [o]. *)
Definition scene_total (ghi : R) (sun : Vector3 R) (o : Object3D R) : R :=
  traverse (callback ghi sun) o 0.

Definition sum (l : list R) : R := fold_right Rplus 0 l.

End Geometry.

(* ================================================================== *)
(** * Proof automation *)
(* ================================================================== *)

(** [sqrt r] is [c] when [c] is non-negative and [c * c = r]. *)
Ltac sqrt_is c :=
  match goal with
  | |- context [sqrt ?r] =>
      rewrite (@sqrt_lem_1 r c) by (try lra; try ring)
  end.

(** An event that is no upload request, navigation or alert. *)
Ltac not_that_event :=
  let H := fresh in
  intros H;
  unfold Client.is_upload_request, Client.is_navigation, Client.is_alert in H;
  repeat match goal with
  | H : exists _, _ |- _ => destruct H
  end;
  discriminate.

(** The places an event of a run can be at, [Hevents] telling what the
    events of [fetchGHI] are. *)
Ltac classify_event Hevents :=
  repeat match goal with
  | H : In _ (_ :: _) |- _ => destruct H as [<- | H]
  | H : In _ (_ ++ _) |- _ => apply in_app_or in H; destruct H as [H | H]
  | H : In _ [] |- _ => destruct H
  | H : In ?e ?events |- _ =>
      destruct (Hevents e H) as [-> | [-> | (? & ->)]]; clear H
  end.

(** The same, keeping the equation that places the event. *)
Ltac locate_event Hevents :=
  repeat match goal with
  | H : In _ (_ :: _) |- _ =>
      let Heq := fresh "Heq" in
      destruct H as [Heq | H]; [try discriminate Heq|]
  | H : In _ (_ ++ _) |- _ => apply in_app_or in H; destruct H as [H | H]
  | H : In _ [] |- _ => destruct H
  | H : In ?e ?events |- _ =>
      let Heq := fresh "Heq" in
      destruct (Hevents e H) as [Heq | [Heq | (? & Heq)]]; discriminate Heq
  end.

(* ================================================================== *)
(** * The area calculator *)
(* ================================================================== *)

Import THREE Viewer.

Section AreaLoop.
Context {num : Type} `{Number num}.
Local Open Scope js_scope.

Lemma area_loop_continue fuel (positions : list num) i area :
  (i < List.length positions)%nat ->
  area_loop (S fuel) positions i area
  = area_loop fuel positions (i + 9) (area + triangle_at positions i).
Proof.
  intros Hi. simpl. apply Nat.ltb_lt in Hi. rewrite Hi. reflexivity.
Qed.

Lemma area_loop_exit fuel (positions : list num) i area :
  (List.length positions <= i)%nat ->
  area_loop fuel positions i area = area.
Proof.
  intros Hi. destruct fuel; simpl; [reflexivity|].
  apply Nat.ltb_ge in Hi. rewrite Hi. reflexivity.
Qed.

(** Fuel beyond the number of tests the loop makes is not used: the
    loop of [calculateSurfaceArea] always runs to the failure of its
    condition. *)
Lemma area_loop_fuel f1 : forall f2 (positions : list num) i area,
  (List.length positions - i < f1)%nat ->
  (List.length positions - i < f2)%nat ->
  area_loop f1 positions i area = area_loop f2 positions i area.
Proof.
  induction f1 as [|f1 IH]; intros f2 positions i area H1 H2; [lia|].
  destruct f2 as [|f2]; [lia|].
  destruct (Nat.lt_ge_cases i (List.length positions)) as [Hi|Hi].
  - rewrite !area_loop_continue by assumption. apply IH; lia.
  - rewrite !area_loop_exit by assumption. reflexivity.
Qed.

(** More tests of the condition than [calculateSurfaceArea] allows
    change nothing: the loop has reached the end of the buffer. *)
Lemma calculateSurfaceArea_any_fuel (positions : list num) (fuel : nat) :
  (List.length positions < fuel)%nat ->
  area_loop fuel positions 0 (of_Z 0) = calculateSurfaceArea positions.
Proof.
  intros Hfuel. unfold calculateSurfaceArea. apply area_loop_fuel; lia.
Qed.

Lemma triangle_at_firstn (positions : list num) n i :
  (i + 9 <= n)%nat ->
  triangle_at (firstn n positions) i = triangle_at positions i.
Proof.
  intros Hi. unfold triangle_at.
  rewrite !nth_error_firstn.
  repeat match goal with
  | |- context [(?a <? n)%nat] =>
      let E := fresh in
      assert (E : (a <? n)%nat = true) by (apply Nat.ltb_lt; lia);
      rewrite E; clear E
  end.
  reflexivity.
Qed.

(** From a group boundary on, the loop over a buffer with a trailing
    partial group does what it does over the truncated buffer, and then
    one more turn. *)
Lemma area_loop_truncated (positions : list num) k :
  (9 * k < List.length positions <= 9 * k + 9)%nat ->
  forall d j, (j + d = k)%nat ->
  forall f1 f2 area, (d + 1 < f1)%nat -> (d < f2)%nat ->
    area_loop f1 positions (9 * j) area
    = area_loop f2 (firstn (9 * k) positions) (9 * j) area
      + triangle_at positions (9 * k).
Proof.
  intros Hlen.
  assert (Hfirst : List.length (firstn (9 * k) positions) = (9 * k)%nat)
    by (rewrite length_firstn; lia).
  induction d as [|d IH]; intros j Hj f1 f2 area Hf1 Hf2.
  - assert (j = k) by lia. subst j.
    destruct f1 as [|f1]; [lia|].
    rewrite area_loop_continue by lia.
    rewrite area_loop_exit by lia.
    rewrite area_loop_exit by lia.
    reflexivity.
  - destruct f1 as [|f1]; [lia|]. destruct f2 as [|f2]; [lia|].
    rewrite !area_loop_continue by lia.
    rewrite triangle_at_firstn by lia.
    replace (9 * j + 9)%nat with (9 * (S j))%nat by lia.
    apply IH; lia.
Qed.

Lemma calculateSurfaceArea_truncated (positions : list num) :
  (List.length positions mod 9 <> 0)%nat ->
  let k := (List.length positions / 9)%nat in
  calculateSurfaceArea positions
  = calculateSurfaceArea (firstn (9 * k) positions)
    + triangle_at (skipn (9 * k) positions) 0.
Proof.
  intros Hmod k. unfold calculateSurfaceArea.
  pose proof (Nat.div_mod_eq (List.length positions) 9) as Hdm.
  pose proof (Nat.mod_upper_bound (List.length positions) 9) as Hub.
  fold k in Hdm.
  assert (Hlen : (9 * k < List.length positions <= 9 * k + 9)%nat) by lia.
  replace (triangle_at (skipn (9 * k) positions) 0)
    with (triangle_at positions (9 * k)).
  - change 0%nat with (9 * 0)%nat at 1 3.
    apply area_loop_truncated with (d := k); try lia.
    rewrite length_firstn. lia.
  - unfold triangle_at. rewrite !nth_error_skipn.
    cbn [Nat.add]. rewrite Nat.add_0_r. reflexivity.
Qed.

End AreaLoop.

Section AreaReal.
Local Open Scope R_scope.

(** Over the reals three.js's [(c - b) x (a - b)] and the
    specification's [(v2 - v1) x (v3 - v1)] are the same vector. *)
Lemma getArea_triangle_area (v1 v2 v3 : Vector3 R) :
  getArea v1 v2 v3 = AreaSpec.triangle_area v1 v2 v3.
Proof.
  destruct v1 as [x1 y1 z1], v2 as [x2 y2 z2], v3 as [x3 y3 z3].
  unfold getArea, AreaSpec.triangle_area, length, cross, subVectors.
  cbn. rewrite Rmult_comm. f_equal. f_equal. ring.
Qed.

Lemma triangle_area_cycle (v1 v2 v3 : Vector3 R) :
  AreaSpec.triangle_area v1 v2 v3 = AreaSpec.triangle_area v2 v3 v1.
Proof.
  destruct v1 as [x1 y1 z1], v2 as [x2 y2 z2], v3 as [x3 y3 z3].
  unfold AreaSpec.triangle_area, cross, subVectors. cbn.
  f_equal. f_equal. ring.
Qed.

Lemma area_loop_total_area : forall k buffer before area fuel,
  List.length buffer = (9 * k)%nat -> (k < fuel)%nat ->
  area_loop fuel (before ++ buffer) (List.length before) area
  = area + AreaSpec.total_area buffer.
Proof.
  induction k as [|k IH]; intros buffer before area fuel Hlen Hfuel.
  - destruct buffer; [|discriminate].
    rewrite area_loop_exit by (rewrite length_app; simpl; lia).
    unfold AreaSpec.total_area. simpl. ring.
  - destruct buffer as [|x1 [|y1 [|z1 [|x2 [|y2 [|z2 [|x3 [|y3 [|z3 rest]]]]]]]]];
      try (simpl in Hlen; lia).
    destruct fuel as [|fuel]; [lia|].
    rewrite area_loop_continue by (rewrite length_app; simpl; lia).
    assert (Hat : triangle_at (before ++ x1 :: y1 :: z1 :: x2 :: y2 :: z2
                                 :: x3 :: y3 :: z3 :: rest)
                              (List.length before)
                  = AreaSpec.triangle_area (mkVector3 x1 y1 z1)
                      (mkVector3 x2 y2 z2) (mkVector3 x3 y3 z3)).
    { unfold triangle_at.
      rewrite <- (Nat.add_0_r (List.length before)) at 1.
      rewrite !nth_error_app2 by lia.
      replace (List.length before + 0 - List.length before)%nat with 0%nat by lia.
      replace (List.length before + 1 - List.length before)%nat with 1%nat by lia.
      replace (List.length before + 2 - List.length before)%nat with 2%nat by lia.
      replace (List.length before + 3 - List.length before)%nat with 3%nat by lia.
      replace (List.length before + 4 - List.length before)%nat with 4%nat by lia.
      replace (List.length before + 5 - List.length before)%nat with 5%nat by lia.
      replace (List.length before + 6 - List.length before)%nat with 6%nat by lia.
      replace (List.length before + 7 - List.length before)%nat with 7%nat by lia.
      replace (List.length before + 8 - List.length before)%nat with 8%nat by lia.
      cbn [nth_error newVector3 default0].
      apply getArea_triangle_area. }
    rewrite Hat.
    change (before ++ x1 :: y1 :: z1 :: x2 :: y2 :: z2 :: x3 :: y3 :: z3 :: rest)%list
      with (before ++ [x1; y1; z1; x2; y2; z2; x3; y3; z3] ++ rest)%list.
    rewrite app_assoc.
    replace (List.length before + 9)%nat
      with (List.length (before ++ [x1; y1; z1; x2; y2; z2; x3; y3; z3]))
      by (rewrite length_app; reflexivity).
    rewrite IH by (simpl in Hlen; lia).
    unfold AreaSpec.total_area. cbn [AreaSpec.triangles fold_right app].
    apply Rplus_assoc.
Qed.

Lemma calculateSurfaceArea_total_area (positions : list R) :
  (List.length positions mod 9 = 0)%nat ->
  calculateSurfaceArea positions = AreaSpec.total_area positions.
Proof.
  intros Hmod. unfold calculateSurfaceArea.
  pose proof (Nat.div_mod_eq (List.length positions) 9) as Hdm.
  rewrite (area_loop_total_area (k := List.length positions / 9) positions []);
    [apply Rplus_0_l | lia | lia].
Qed.

Lemma right_angle_area (a b c : Vector3 R) (L : R) :
  AreaSpec.right_angle_at a b c L ->
  AreaSpec.triangle_area a b c = L * L / 2.
Proof.
  destruct a as [xa ya za], b as [xb yb zb], c as [xc yc zc].
  unfold AreaSpec.right_angle_at, AreaSpec.triangle_area, dot, cross,
    subVectors. cbn.
  intros (Hperp & Hu & Hw).
  match goal with |- _ * sqrt ?r = _ => replace r with ((L * L) * (L * L)) end.
  - rewrite sqrt_square by nra. lra.
  - rewrite <- Hu at 1. rewrite <- Hw.
    nra.
Qed.

(** Over the reals, a trailing group of at most 3 values (one vertex, or
    a part of it) is read as a triangle of area 0. *)
Lemma triangle_at_one_vertex (group : list R) :
  (List.length group <= 3)%nat -> triangle_at group 0 = 0.
Proof.
  intros Hlen.
  destruct group as [|a [|b [|c [|d group]]]]; try (cbn in Hlen; lia);
    unfold triangle_at, getArea, length, cross, subVectors;
    cbn [nth_error Nat.add newVector3 default0 x y z
         of_Z add sub mul Math_sqrt lit_0_5 Number_R];
    match goal with
    | |- sqrt ?r * _ = _ => replace r with 0 by ring
    end;
    rewrite sqrt_0; ring.
Qed.

End AreaReal.

(** C1. Over the reals: for every position buffer whose length is a
    multiple of 9, [calculateSurfaceArea] returns the sum, over the
    consecutive groups of 9 values read as three points (v1, v2, v3), of
    0.5 times the length of (v2 - v1) x (v3 - v1); it returns 0 for the
    empty buffer (at every carrier); and for the buffer of one right
    triangle whose two legs have length L it returns L * L / 2. *)
Theorem C1_surface_area :
  (forall positions : list R,
      (List.length positions mod 9 = 0)%nat ->
      calculateSurfaceArea positions = AreaSpec.total_area positions)
  /\ (forall (num : Type) (N : Number num),
         calculateSurfaceArea (@nil num) = of_Z 0)
  /\ (forall (v1 v2 v3 : Vector3 R) (L : R),
         AreaSpec.right_triangle v1 v2 v3 L ->
         calculateSurfaceArea (AreaSpec.buffer_of v1 v2 v3) = (L * L / 2)%R).
Proof.
  split; [exact calculateSurfaceArea_total_area|].
  split; [reflexivity|].
  intros v1 v2 v3 L Hright.
  rewrite calculateSurfaceArea_total_area by reflexivity.
  unfold AreaSpec.total_area, AreaSpec.buffer_of.
  cbn [AreaSpec.triangles fold_right].
  rewrite Rplus_0_r.
  replace (mkVector3 (x v1) (y v1) (z v1)) with v1 by (destruct v1; reflexivity).
  replace (mkVector3 (x v2) (y v2) (z v2)) with v2 by (destruct v2; reflexivity).
  replace (mkVector3 (x v3) (y v3) (z v3)) with v3 by (destruct v3; reflexivity).
  destruct Hright as [Hr | [Hr | Hr]].
  - apply right_angle_area; assumption.
  - rewrite triangle_area_cycle. apply right_angle_area; assumption.
  - rewrite triangle_area_cycle, triangle_area_cycle.
    apply right_angle_area; assumption.
Qed.

(** A right triangle with legs 3 along the x and y axes has area 9/2. *)
Lemma C1_surface_area_witness :
  calculateSurfaceArea [0; 0; 0; 3; 0; 0; 0; 3; 0]%R = (3 * 3 / 2)%R
  /\ calculateSurfaceArea [0; 0; 0; 3; 0; 0; 0; 3; 0]%R
     = AreaSpec.total_area [0; 0; 0; 3; 0; 0; 0; 3; 0]%R.
Proof.
  split.
  - apply (proj2 (proj2 C1_surface_area)
             (mkVector3 0 0 0) (mkVector3 3 0 0) (mkVector3 0 3 0) 3)%R.
    left. unfold AreaSpec.right_angle_at, dot, subVectors. cbn.
    repeat split; lra.
  - apply (proj1 C1_surface_area). reflexivity.
Defined.

(** The same triangle at binary64. *)
Example calculateSurfaceArea_float_right_triangle :
  calculateSurfaceArea [0; 0; 0; 3; 0; 0; 0; 3; 0]%float = 4.5%float.
Proof. vm_compute. reflexivity. Qed.

(** C3 (amended). For every position buffer whose length is not a
    multiple of 9, at every carrier, [calculateSurfaceArea] returns the
    area it returns for the buffer truncated to the greatest multiple of
    9, plus the area of one more triangle: the one read from the trailing
    partial group with each missing coordinate taken as 0. *)
Theorem C3_trailing_group_is_zero_padded (num : Type) (N : Number num)
        (positions : list num) :
  (List.length positions mod 9 <> 0)%nat ->
  let k := (List.length positions / 9)%nat in
  calculateSurfaceArea positions
  = add (calculateSurfaceArea (firstn (9 * k) positions))
        (triangle_at (skipn (9 * k) positions) 0).
Proof. apply calculateSurfaceArea_truncated. Qed.

Lemma C3_trailing_group_is_zero_padded_witness :
  calculateSurfaceArea [0; 0; 0; 1; 0; 0; 0; 1]%float
  = (calculateSurfaceArea (@nil float)
     + triangle_at [0; 0; 0; 1; 0; 0; 0; 1] 0)%float.
Proof.
  apply (@C3_trailing_group_is_zero_padded float Number_float
           [0; 0; 0; 1; 0; 0; 0; 1]%float).
  vm_compute. discriminate.
Defined.

(** C3 as stated fails: the buffer of 8 values below is read as the
    triangle (0,0,0), (1,0,0), (0,1,0) and has area 0.5, while its
    truncation to a multiple of 9 is empty and has area 0. *)
Lemma C3_counterexample :
  ~ (forall positions : list float,
        (List.length positions mod 9 <> 0)%nat ->
        calculateSurfaceArea positions
        = calculateSurfaceArea
            (firstn (9 * (List.length positions / 9)) positions)).
Proof.
  intros Hclaim.
  specialize (Hclaim [0; 0; 0; 1; 0; 0; 0; 1]%float).
  assert (Hne : (List.length [0; 0; 0; 1; 0; 0; 0; 1]%float mod 9 <> 0)%nat)
    by (vm_compute; discriminate).
  specialize (Hclaim Hne).
  apply (f_equal PrimFloat.is_zero) in Hclaim.
  vm_compute in Hclaim. discriminate.
Qed.

(** What the code returns on that buffer, and on its truncation. *)
Example calculateSurfaceArea_partial_group :
  calculateSurfaceArea [0; 0; 0; 1; 0; 0; 0; 1]%float = 0.5%float
  /\ calculateSurfaceArea (@nil float) = 0%float.
Proof. vm_compute. split; reflexivity. Qed.

(* ================================================================== *)
(** * The irradiance estimator *)
(* ================================================================== *)

Import Examples.

Section Traversal.
Context {num : Type} `{Number num}.

Lemma traverse_descendants (S : Type) (cb : Object3D num -> S -> S) :
  forall o s,
    traverse cb o s = fold_left (fun s' c => cb c s') (descendants o) s.
Proof.
  induction o as [m g w cs IH] using Object3D_nested_ind. intros s.
  cbn [traverse descendants children fold_left].
  generalize (cb (mkObject3D m g w cs) s). clear s.
  induction IH as [|c cs Hc _ IHcs]; intros s; cbn [fold_left flat_map].
  - reflexivity.
  - rewrite fold_left_app, <- Hc. apply IHcs.
Qed.

Lemma fold_left_skip (S : Type) (cb : Object3D num -> S -> S)
      (keep : Object3D num -> bool) :
  (forall o s, keep o = false -> cb o s = s) ->
  forall l s,
    fold_left (fun s' c => cb c s') l s
    = fold_left (fun s' c => cb c s') (filter keep l) s.
Proof.
  intros Hskip. induction l as [|o l IH]; intros s; cbn [fold_left filter].
  - reflexivity.
  - destruct (keep o) eqn:E; cbn [fold_left].
    + apply IH.
    + rewrite (Hskip o s E). apply IH.
Qed.

Lemma callback_skip ghi sun (o : Object3D num) total :
  has_positions o = false -> callback ghi sun o total = total.
Proof.
  unfold has_positions, callback.
  destruct (isMesh o); [|reflexivity].
  destruct (geometry o) as [g|]; [|reflexivity].
  destruct (position g); [discriminate|reflexivity].
Qed.

Lemma filter_has_positions_no_mesh (l : list (Object3D num)) :
  (forall o, In o l -> isMesh o = false) ->
  filter has_positions l = [].
Proof.
  induction l as [|o l IH]; intros Hnone; [reflexivity|].
  cbn [filter]. unfold has_positions at 1.
  rewrite (Hnone o (or_introl eq_refl)). cbn [andb].
  apply IH. intros o' Ho'. apply Hnone. right. exact Ho'.
Qed.

End Traversal.

(** C5. At every carrier: a mesh that lacks a position attribute leaves
    the running total as it was; so the total of a traversal is the one
    accumulated over the visited meshes that have a position attribute
    alone, and the estimator still returns its overlay; and on a scene
    in which no object is a mesh the total shown is 0. *)
Theorem C5_meshes_without_positions
        (num : Type) (N : Number num) (parseFloat : string -> num)
        (this : BIPVViewer num) (scene : Object3D num) :
  cityModel this = Some scene ->
  let ghi := ghi_of parseFloat (params this) in
  let sun := sunLight_position this in
  (forall child total,
      isMesh child = true ->
      (forall g, geometry child = Some g -> position g = None) ->
      callback ghi sun child total = total)
  /\ calculateBIPVPotential parseFloat this
     = Some (mkOverlay ghi
               (fold_left (fun total child => callback ghi sun child total)
                          (filter has_positions (descendants scene))
                          (of_Z 0)))
  /\ ((forall o, In o (descendants scene) -> isMesh o = false) ->
      calculateBIPVPotential parseFloat this = Some (mkOverlay ghi (of_Z 0))).
Proof.
  intros Hmodel ghi sun.
  assert (Htotal : calculateBIPVPotential parseFloat this
     = Some (mkOverlay ghi
               (fold_left (fun total child => callback ghi sun child total)
                          (filter has_positions (descendants scene))
                          (of_Z 0)))).
  { unfold calculateBIPVPotential. rewrite Hmodel.
    rewrite traverse_descendants.
    rewrite (fold_left_skip _ has_positions)
      by (intros; apply callback_skip; assumption).
    reflexivity. }
  split; [|split].
  - intros child total Hmesh Hpos. apply callback_skip.
    unfold has_positions. rewrite Hmesh.
    destruct (geometry child) as [g|]; [|reflexivity].
    rewrite (Hpos g eq_refl). reflexivity.
  - exact Htotal.
  - intros Hnone. rewrite Htotal.
    rewrite (filter_has_positions_no_mesh _ Hnone). reflexivity.
Qed.

(** At binary64: a mesh without positions leaves a total of 3 at 3, and
    a scene that is one empty group shows GHI 5 and total 0. *)
Lemma C5_meshes_without_positions_witness :
  callback 5%float setupLights bare_mesh 3%float = 3%float
  /\ calculateBIPVPotential JS.parseFloat
       (mkBIPVViewer [] setupLights (Some empty_group))
     = Some (mkOverlay 5%float 0%float).
Proof.
  pose proof (@C5_meshes_without_positions float _ JS.parseFloat
                (mkBIPVViewer [] setupLights (Some empty_group))
                empty_group eq_refl)
    as (Hskip & _ & Hempty).
  split.
  - apply (Hskip bare_mesh 3%float); [reflexivity|].
    intros g Hg. injection Hg as <-. reflexivity.
  - apply Hempty. intros o [<- | []]. reflexivity.
Defined.

Section NormalMatrix.
Import NormalMatrixSpec.
Local Open Scope R_scope.

Lemma Real_eqb_false (a b : R) : a <> b -> Real.eqb a b = false.
Proof. intros Hne. unfold Real.eqb. destruct (Req_dec_T a b); tauto. Qed.

(** [getNormalMatrix] is the transpose of the inverse of the upper-left
    3x3 block of the world matrix, when that block is invertible. *)
Lemma getNormalMatrix_inverse_transpose (w : Matrix4 R) :
  determinant3 (setFromMatrix4 w) <> 0 ->
  multiply3 (transpose (getNormalMatrix w)) (setFromMatrix4 w) = identity3.
Proof.
  intros Hdet. unfold getNormalMatrix, invert.
  cbv zeta.
  change (m0 (setFromMatrix4 w) * (m8 (setFromMatrix4 w) * m4 (setFromMatrix4 w) - m5 (setFromMatrix4 w) * m7 (setFromMatrix4 w))
          + m1 (setFromMatrix4 w) * (m5 (setFromMatrix4 w) * m6 (setFromMatrix4 w) - m8 (setFromMatrix4 w) * m3 (setFromMatrix4 w))
          + m2 (setFromMatrix4 w) * (m7 (setFromMatrix4 w) * m3 (setFromMatrix4 w) - m4 (setFromMatrix4 w) * m6 (setFromMatrix4 w)))%js
    with (determinant3 (setFromMatrix4 w)).
  change (strict_eq (determinant3 (setFromMatrix4 w)) (of_Z 0))
    with (Real.eqb (determinant3 (setFromMatrix4 w)) 0).
  rewrite Real_eqb_false by assumption.
  unfold determinant3 in *.
  destruct (setFromMatrix4 w) as [a0 a1 a2 a3 a4 a5 a6 a7 a8].
  unfold multiply3, transpose, identity3. cbn in *.
  f_equal; field; assumption.
Qed.

End NormalMatrix.

Section IncidenceReal.
Import IrradianceSpec.
Local Open Scope R_scope.

Lemma determinant_product (a b : M3) :
  determinant (product a b) = determinant a * determinant b.
Proof. destruct a, b. unfold determinant, product. cbn. ring. Qed.

Lemma normal_matrix_determinant (n a : M3) :
  normal_matrix_of n a -> determinant a <> 0.
Proof.
  intros Hn Hdet. apply (f_equal determinant) in Hn.
  rewrite determinant_product, Hdet in Hn.
  unfold determinant, unit_matrix in Hn. cbn in Hn. lra.
Qed.

(** The normal the code computes before normalizing. *)
Lemma applyMatrix3_getNormalMatrix (w : Matrix4 R) (n : M3) :
  normal_matrix_of n (linear_part w) ->
  applyMatrix3 (mkVector3 0 1 0) (getNormalMatrix w) = image n up.
Proof.
  intros Hn. pose proof (normal_matrix_determinant Hn) as Hdet.
  unfold normal_matrix_of in Hn.
  destruct w as [w0 w1 w2 w3 w4 w5 w6 w7 w8 w9 w10 w11 w12 w13 w14 w15].
  destruct n as [n11 n12 n13 n21 n22 n23 n31 n32 n33].
  unfold linear_part, product, transposed, unit_matrix, determinant in *.
  cbn in Hn, Hdet.
  injection Hn as H11 H12 H13 H21 H22 H23 H31 H32 H33.
  set (D := w0 * (w5 * w10 - w9 * w6) - w4 * (w1 * w10 - w9 * w2)
            + w8 * (w1 * w6 - w5 * w2)) in *.
  assert (Hx : n12 * D = w9 * w2 - w1 * w10).
  { replace (n12 * D)
      with ((w5 * w10 - w9 * w6) * (n12 * w0 + n22 * w1 + n32 * w2)
            - (w1 * w10 - w9 * w2) * (n12 * w4 + n22 * w5 + n32 * w6)
            + (w1 * w6 - w5 * w2) * (n12 * w8 + n22 * w9 + n32 * w10))
      by (unfold D; ring).
    rewrite H21, H22, H23. ring. }
  assert (Hy : n22 * D = w0 * w10 - w8 * w2).
  { replace (n22 * D)
      with (- (w4 * w10 - w8 * w6) * (n12 * w0 + n22 * w1 + n32 * w2)
            + (w0 * w10 - w8 * w2) * (n12 * w4 + n22 * w5 + n32 * w6)
            - (w0 * w6 - w4 * w2) * (n12 * w8 + n22 * w9 + n32 * w10))
      by (unfold D; ring).
    rewrite H21, H22, H23. ring. }
  assert (Hz : n32 * D = w8 * w1 - w0 * w9).
  { replace (n32 * D)
      with ((w4 * w9 - w8 * w5) * (n12 * w0 + n22 * w1 + n32 * w2)
            - (w0 * w9 - w8 * w1) * (n12 * w4 + n22 * w5 + n32 * w6)
            + (w0 * w5 - w4 * w1) * (n12 * w8 + n22 * w9 + n32 * w10))
      by (unfold D; ring).
    rewrite H21, H22, H23. ring. }
  unfold getNormalMatrix, invert, setFromMatrix4, set. cbv zeta.
  cbn [m0 m1 m2 m3 m4 m5 m6 m7 m8 e0 e1 e2 e4 e5 e6 e8 e9 e10].
  cbn [of_Z add sub mul div strict_eq Number_R].
  replace (w0 * (w10 * w5 - w6 * w9) + w1 * (w6 * w8 - w10 * w4)
           + w2 * (w9 * w4 - w5 * w8)) with D by (unfold D; ring).
  rewrite (Real_eqb_false Hdet).
  unfold transpose, applyMatrix3, image, up.
  cbn [m0 m1 m2 m3 m4 m5 m6 m7 m8 x y z r11 r12 r13 r21 r22 r23 r31 r32 r33].
  cbn [add mul Number_R].
  f_equal.
  - apply (Rmult_eq_reg_r D); [|exact Hdet].
    replace ((n11 * 0 + n12 * 1 + n13 * 0) * D) with (n12 * D) by ring.
    rewrite Hx. field. exact Hdet.
  - apply (Rmult_eq_reg_r D); [|exact Hdet].
    replace ((n21 * 0 + n22 * 1 + n23 * 0) * D) with (n22 * D) by ring.
    rewrite Hy. field. exact Hdet.
  - apply (Rmult_eq_reg_r D); [|exact Hdet].
    replace ((n31 * 0 + n32 * 1 + n33 * 0) * D) with (n32 * D) by ring.
    rewrite Hz. field. exact Hdet.
Qed.

(** The dot product of two normalized vectors, with the divisors that
    [normalize] takes. *)
Lemma dot_normalize (a b : Vector3 R) :
  dot (normalize a) (normalize b)
  = inner a b * (1 / (or_else (length a) 1)) * (1 / (or_else (length b) 1)).
Proof.
  unfold dot, normalize, divideScalar, multiplyScalar, inner.
  cbn [x y z of_Z add mul div Number_R]. ring.
Qed.

Lemma length_or_else (a : Vector3 R) :
  norm a <> 0 -> or_else (length a) 1 = norm a.
Proof.
  intros Hnorm. unfold or_else. cbn [ToBoolean Number_R].
  unfold Real.truthy.
  change (length a) with (norm a).
  rewrite (Real_eqb_false Hnorm). reflexivity.
Qed.

Lemma norm_not_0 (a b : Vector3 R) : inner a b <> 0 -> norm a <> 0.
Proof.
  intros Hab Hnorm. apply Hab. unfold norm in Hnorm.
  apply sqrt_eq_0 in Hnorm.
  - destruct a as [ax ay az], b as [bx by_ bz]. unfold inner in *.
    cbn [x y z] in *.
    assert (ax = 0 /\ ay = 0 /\ az = 0) as (-> & -> & ->)
      by (repeat split; nra).
    ring.
  - destruct a as [ax ay az]. unfold inner. cbn [x y z]. nra.
Qed.

(** The incidence factor of the code is that of the specification. *)
Lemma angle_incidence (sun : Vector3 R) (child : Object3D R) (n : M3) :
  normal_matrix_of n (linear_part (matrixWorld child)) ->
  norm sun <> 0 ->
  angle sun child = incidence n sun.
Proof.
  intros Hn Hsun. unfold angle, incidence, cosine.
  cbn [Math_max of_Z Number_R].
  rewrite (applyMatrix3_getNormalMatrix Hn).
  rewrite dot_normalize.
  assert (Hnormal : norm (image n up) <> 0).
  { apply norm_not_0 with (b := image (linear_part (matrixWorld child)) up).
    unfold normal_matrix_of in Hn.
    destruct (linear_part (matrixWorld child)) as [a11 a12 a13 a21 a22 a23 a31 a32 a33].
    destruct n as [n11 n12 n13 n21 n22 n23 n31 n32 n33].
    unfold product, transposed, unit_matrix in Hn. cbn in Hn.
    injection Hn as H11 H12 H13 H21 H22 H23 H31 H32 H33.
    unfold inner, image, up. cbn [x y z r11 r12 r13 r21 r22 r23 r31 r32 r33].
    replace ((n11 * 0 + n12 * 1 + n13 * 0) * (a11 * 0 + a12 * 1 + a13 * 0)
             + (n21 * 0 + n22 * 1 + n23 * 0) * (a21 * 0 + a22 * 1 + a23 * 0)
             + (n31 * 0 + n32 * 1 + n33 * 0) * (a31 * 0 + a32 * 1 + a33 * 0))
      with (n12 * a12 + n22 * a22 + n32 * a32) by ring.
    rewrite H22. lra. }
  rewrite (@length_or_else _ Hnormal), (@length_or_else _ Hsun).
  f_equal. field. split; assumption.
Qed.

(** A normal perpendicular to the light gives incidence 0. *)
Lemma angle_perpendicular (sun : Vector3 R) (child : Object3D R) (n : M3) :
  normal_matrix_of n (linear_part (matrixWorld child)) ->
  inner (image n up) sun = 0 ->
  angle sun child = 0.
Proof.
  intros Hn Hperp. unfold angle. cbn [Math_max of_Z Number_R].
  rewrite (applyMatrix3_getNormalMatrix Hn), dot_normalize, Hperp.
  rewrite !Rmult_0_l. apply Rmax_left. lra.
Qed.

End IncidenceReal.

Section RoofReal.
Local Open Scope R_scope.

Lemma roof_area : calculateSurfaceArea (@roof_positions R _) = 10.
Proof.
  rewrite calculateSurfaceArea_total_area by reflexivity.
  unfold AreaSpec.total_area, roof_positions.
  cbn [map AreaSpec.triangles fold_right of_Z Number_R].
  unfold AreaSpec.triangle_area, cross, subVectors.
  cbn [x y z sub mul Number_R].
  do 2 sqrt_is 10.
  lra.
Qed.

Lemma roof_angle : angle (@zenith R _) roof = 1.
Proof.
  unfold angle, roof, zenith, getNormalMatrix, invert, setFromMatrix4, set,
    identity4.
  cbn [matrixWorld e0 e1 e2 e4 e5 e6 e8 e9 e10 m0 m1 m2 m3 m4 m5 m6 m7 m8
       of_Z add sub mul div strict_eq Number_R].
  rewrite Real_eqb_false by lra.
  unfold transpose, applyMatrix3, normalize, divideScalar, multiplyScalar,
    length, dot, or_else.
  cbn [x y z m0 m1 m2 m3 m4 m5 m6 m7 m8
       of_Z add sub mul div Math_sqrt Math_max ToBoolean Number_R].
  sqrt_is 1. sqrt_is 500.
  unfold Real.truthy. rewrite !Real_eqb_false by lra.
  cbn [negb x y z].
  match goal with
  | |- Rmax 0 ?e = 1 => replace e with 1 by (field; lra)
  end.
  apply Rmax_right. lra.
Qed.

End RoofReal.

(** At binary64 as well, [Math.max(0, x)] is never below 0. *)
Lemma Float64_max_0_not_negative (x : float) :
  PrimFloat.ltb (Float64.max 0 x) 0 = false.
Proof.
  unfold Float64.max.
  change (PrimFloat.is_nan 0) with false. cbn [orb].
  destruct (PrimFloat.is_nan x); [reflexivity|].
  destruct (PrimFloat.ltb 0 x) eqn:Hpos.
  - rewrite ltb_spec in *. change (Prim2SF 0) with (S754_zero false) in *.
    destruct (Prim2SF x) as [s| s | |s m e]; try destruct s;
      try discriminate; reflexivity.
  - destruct (PrimFloat.ltb x 0); [reflexivity|].
    change (PrimFloat.is_zero 0 && PrimFloat.get_sign 0) with false.
    reflexivity.
Qed.

Lemma angle_float_not_negative (sun : Vector3 float) (child : Object3D float) :
  PrimFloat.ltb (angle sun child) 0 = false.
Proof. unfold angle. apply Float64_max_0_not_negative. Qed.

Section IncidenceFloat.

Lemma is_nan_SF (x : float) : PrimFloat.is_nan x = true <-> Prim2SF x = S754_nan.
Proof.
  unfold PrimFloat.is_nan. rewrite FloatAxioms.eqb_spec.
  destruct (Prim2SF x) as [s|s| |s m e]; cbn; split; try discriminate; try reflexivity.
  - unfold SFeqb. cbn. destruct s; discriminate.
  - unfold SFeqb, SFcompare. destruct s.
    + rewrite Z.compare_refl. rewrite Pos.compare_cont_refl. discriminate.
    + rewrite Z.compare_refl. rewrite Pos.compare_cont_refl. discriminate.
Qed.

Lemma is_zero_SF (x : float) :
  PrimFloat.is_zero x = true <-> exists s, Prim2SF x = S754_zero s.
Proof.
  unfold PrimFloat.is_zero. rewrite FloatAxioms.eqb_spec.
  change (Prim2SF PrimFloat.zero) with (S754_zero false).
  destruct (Prim2SF x) as [s|s| |s m e]; cbn; split;
    try discriminate; try (intros [s' Hs]; discriminate Hs).
  - intros _. exists s. reflexivity.
  - reflexivity.
  - destruct s; discriminate.
  - destruct s; discriminate.
Qed.

Lemma is_finite_SF (x : float) :
  PrimFloat.is_finite x = true
  <-> (exists s, Prim2SF x = S754_zero s) \/ (exists s m e, Prim2SF x = S754_finite s m e).
Proof.
  unfold PrimFloat.is_finite, PrimFloat.is_infinity.
  destruct (PrimFloat.is_nan x) eqn:Hnan.
  - apply is_nan_SF in Hnan. rewrite Hnan. cbn. split; [discriminate|].
    intros [[s H]|(s & m & e & H)]; discriminate.
  - assert (Hn : Prim2SF x <> S754_nan).
    { intros H. apply is_nan_SF in H. congruence. }
    cbn [orb]. rewrite FloatAxioms.eqb_spec, abs_spec.
    change (Prim2SF PrimFloat.infinity) with (S754_infinity false).
    destruct (Prim2SF x) as [s|s| |s m e]; cbn.
    + split; [intros _; left; exists s; reflexivity|reflexivity].
    + split; [discriminate|]. intros [[s' H]|(s' & m & e & H)]; discriminate.
    + congruence.
    + split; [intros _; right; exists s, m, e; reflexivity|reflexivity].
Qed.

Lemma mul_at_zero (p a : float) :
  PrimFloat.is_zero a = true ->
  (PrimFloat.is_finite p = true ->
   PrimFloat.is_zero (p * a * 0.15)%float = true)
  /\ (PrimFloat.is_finite p = false ->
      PrimFloat.is_nan (p * a * 0.15)%float = true).
Proof.
  intros Ha. apply is_zero_SF in Ha. destruct Ha as [sa Ha].
  assert (Hlit : exists m e, Prim2SF 0.15%float = S754_finite false m e)
    by (vm_compute; eauto).
  destruct Hlit as (m15 & e15 & Hlit).
  assert (Hmul : Prim2SF (p * a * 0.15)%float
                 = SFmul prec emax (SFmul prec emax (Prim2SF p) (S754_zero sa))
                         (S754_finite false m15 e15)).
  { rewrite !mul_spec, Ha, Hlit. reflexivity. }
  split.
  - intros Hp. apply is_finite_SF in Hp. apply is_zero_SF.
    rewrite Hmul.
    destruct Hp as [[s ->] | (s & m & e & ->)]; cbn [SFmul]; eauto.
  - intros Hp. apply is_nan_SF. rewrite Hmul.
    destruct (Prim2SF p) as [s|s| |s m e] eqn:Hsf; cbn [SFmul];
      try reflexivity.
    + assert (PrimFloat.is_finite p = true)
        by (apply is_finite_SF; left; eauto). congruence.
    + assert (PrimFloat.is_finite p = true)
        by (apply is_finite_SF; right; eauto). congruence.
Qed.

(** The clamp: a dot product that is zero or negative gives incidence +0. *)
Lemma Float64_max_0_clamps (d : float) :
  PrimFloat.leb d 0 = true -> Float64.max 0 d = 0%float.
Proof.
  intros Hle. unfold Float64.max.
  rewrite FloatAxioms.leb_spec in Hle.
  change (Prim2SF 0) with (S754_zero false) in Hle.
  assert (Hnan : PrimFloat.is_nan d = false).
  { destruct (PrimFloat.is_nan d) eqn:Hn; [|reflexivity].
    apply is_nan_SF in Hn. rewrite Hn in Hle. discriminate. }
  rewrite Hnan. change (PrimFloat.is_nan 0) with false. cbn [orb].
  assert (Hlt : PrimFloat.ltb 0 d = false).
  { rewrite FloatAxioms.ltb_spec. change (Prim2SF 0) with (S754_zero false).
    destruct (Prim2SF d) as [s|s| |s m e]; try destruct s;
      try discriminate; reflexivity. }
  rewrite Hlt.
  destruct (PrimFloat.ltb d 0); [reflexivity|].
  change (PrimFloat.is_zero 0 && PrimFloat.get_sign 0) with false.
  reflexivity.
Qed.

End IncidenceFloat.

(** C2 (amended). For every mesh with a position attribute the callback
    adds to the total the energy GHI x area x incidence x 0.15.  Over
    the reals the incidence factor is max(0, cosine of the angle
    between the representative normal and the position of the light),
    the representative normal being the image of (0,1,0) under the
    normal matrix of the mesh's world matrix (the transpose of the
    inverse of its linear part); it is never negative; a mesh whose
    representative normal is perpendicular to the light contributes
    exactly 0; and GHI 5.0, area 10 and incidence 1.0 give 7.5.  At
    binary64 the incidence factor is never below 0 either, a dot
    product that is zero or negative gives incidence 0, and 5.0, 10 and
    1.0 give 7.5; but a mesh of incidence 0 contributes 0 only when
    GHI x area is finite: when that product is infinite or NaN, the
    contribution is NaN. *)
Theorem C2_energy_contribution
        (ghi : R) (sun : Vector3 R) (child : Object3D R)
        (g : BufferGeometry R) (positions : list R) (total : R) :
  isMesh child = true ->
  geometry child = Some g ->
  position g = Some positions ->
  let area := calculateSurfaceArea positions in
  let factor := angle sun child in
  let contribution := energy ghi sun child positions in
  (callback ghi sun child total = total + contribution
   /\ contribution = ghi * area * factor * 0.15
   /\ (forall n : IrradianceSpec.M3,
         IrradianceSpec.normal_matrix_of n
           (IrradianceSpec.linear_part (matrixWorld child)) ->
         IrradianceSpec.norm sun <> 0 ->
         factor = IrradianceSpec.incidence n sun)
   /\ 0 <= factor
   /\ (forall n : IrradianceSpec.M3,
         IrradianceSpec.normal_matrix_of n
           (IrradianceSpec.linear_part (matrixWorld child)) ->
         IrradianceSpec.inner (IrradianceSpec.image n IrradianceSpec.up) sun
         = 0 ->
         contribution = 0)
   /\ (ghi = 5 -> area = 10 -> factor = 1 -> contribution = 7.5))%R
  /\ (forall (ghi' : float) (sun' : Vector3 float) (child' : Object3D float)
             (positions' : list float),
        let normal :=
          normalize (applyMatrix3 (mkVector3 0 1 0)%float
                                  (getNormalMatrix (matrixWorld child'))) in
        let area' := calculateSurfaceArea positions' in
        let factor' := angle sun' child' in
        let contribution' := energy ghi' sun' child' positions' in
        PrimFloat.ltb factor' 0 = false
        /\ (PrimFloat.leb (dot normal (normalize sun')) 0 = true ->
            factor' = 0%float)
        /\ (PrimFloat.is_zero factor' = true ->
            (PrimFloat.is_finite (ghi' * area')%float = true ->
             PrimFloat.is_zero contribution' = true)
            /\ (PrimFloat.is_finite (ghi' * area')%float = false ->
                PrimFloat.is_nan contribution' = true))
        /\ (ghi' = 5%float -> area' = 10%float -> factor' = 1%float ->
            contribution' = 7.5%float)).
Proof.
  intros Hmesh Hgeometry Hposition area factor contribution.
  assert (Hformula : (contribution = ghi * area * factor * 0.15)%R)
    by reflexivity.
  split; [split; [|split; [|split; [|split; [|split]]]]|].
  - unfold callback. rewrite Hmesh, Hgeometry, Hposition. reflexivity.
  - exact Hformula.
  - intros n Hn Hsun. exact (@angle_incidence sun child n Hn Hsun).
  - apply Rmax_l.
  - intros n Hn Hperp. rewrite Hformula. unfold factor.
    rewrite (@angle_perpendicular sun child n Hn Hperp). ring.
  - intros Hghi Harea Hfactor. rewrite Hformula, Hghi, Harea, Hfactor. lra.
  - intros ghi' sun' child' positions' normal area' factor' contribution'.
    split; [|split; [|split]].
    + apply Float64_max_0_not_negative.
    + apply Float64_max_0_clamps.
    + intros Hzero. apply (@mul_at_zero (ghi' * area')%float factor' Hzero).
    + intros Hghi Harea Hfactor.
      unfold contribution', energy. fold area' factor'.
      rewrite Hghi, Harea, Hfactor. vm_compute. reflexivity.
Qed.

(** The wall under a light in front of it, with GHI 5: the normal
    matrix takes (0,1,0) to (0,0,1/2), the incidence is 1, the area 10
    and the energy 7.5. *)
Lemma C2_energy_contribution_witness :
  (angle south (@wall R _) = 1
   /\ callback 5 south (@wall R _) 0 = 0 + energy 5 south wall roof_positions
   /\ energy 5 south (@wall R _) roof_positions = 7.5)%R.
Proof.
  pose proof (@C2_energy_contribution 5 south wall
                (mkBufferGeometry (Some roof_positions)) roof_positions 0
                eq_refl eq_refl eq_refl)
    as ((Hcallback & _ & Hspec & _ & _ & Hexample) & _).
  assert (Hfactor : (angle south (@wall R _) = 1)%R).
  { rewrite (Hspec (IrradianceSpec.mkM3 1 0 0  0 0 (-1)  0 (1 / 2) 0)%R).
    - unfold IrradianceSpec.incidence, IrradianceSpec.cosine,
        IrradianceSpec.norm, IrradianceSpec.inner, IrradianceSpec.image,
        IrradianceSpec.up, south.
      cbn [x y z IrradianceSpec.r11 IrradianceSpec.r12 IrradianceSpec.r13
           IrradianceSpec.r21 IrradianceSpec.r22 IrradianceSpec.r23
           IrradianceSpec.r31 IrradianceSpec.r32 IrradianceSpec.r33
           of_Z Number_R].
      sqrt_is (1 / 2)%R. sqrt_is 500%R.
      match goal with
      | |- Rmax 0 ?e = 1%R => replace e with 1%R by (field; lra)
      end.
      apply Rmax_right. lra.
    - unfold IrradianceSpec.normal_matrix_of, IrradianceSpec.product,
        IrradianceSpec.transposed, IrradianceSpec.linear_part,
        IrradianceSpec.unit_matrix, wall.
      cbn. f_equal; field.
    - unfold IrradianceSpec.norm, IrradianceSpec.inner, south.
      cbn [x y z of_Z Number_R]. sqrt_is 500%R. lra. }
  split; [exact Hfactor|]. split; [exact Hcallback|].
  apply Hexample; [reflexivity|exact roof_area|exact Hfactor].
Defined.

(** C2 as stated fails at binary64: opened with ghi=Infinity in the
    query, the viewer gives the tilted mesh, whose representative normal
    is perpendicular to the light, a contribution that is NaN, not 0. *)
Lemma C2_counterexample :
  ~ (forall (this : BIPVViewer float) (child : Object3D float)
            (positions : list float),
        let ghi := ghi_of JS.parseFloat (params this) in
        let sun := sunLight_position this in
        let normal :=
          normalize (applyMatrix3 (mkVector3 0 1 0)%float
                                  (getNormalMatrix (matrixWorld child))) in
        PrimFloat.is_zero (dot normal (normalize sun)) = true ->
        PrimFloat.is_zero (energy ghi sun child positions) = true).
Proof.
  intros Hclaim.
  specialize (Hclaim (mkBIPVViewer [("ghi", "Infinity")]%string setupLights
                        (Some tilted))
                     tilted roof_positions).
  cbv zeta in Hclaim.
  assert (Hperp : PrimFloat.is_zero
            (dot (normalize (applyMatrix3 (mkVector3 0 1 0)%float
                               (getNormalMatrix (matrixWorld (@tilted float _)))))
                 (normalize (@setupLights float _))) = true)
    by (vm_compute; reflexivity).
  specialize (Hclaim Hperp). vm_compute in Hclaim. discriminate.
Qed.

(** What the overlay is given for that scene, and what it is given with
    the default GHI. *)
Example infinite_ghi_total :
  calculateBIPVPotential JS.parseFloat
    (mkBIPVViewer [("ghi", "Infinity")]%string setupLights (Some tilted))
  = Some (mkOverlay PrimFloat.infinity PrimFloat.nan)
  /\ calculateBIPVPotential JS.parseFloat
       (mkBIPVViewer [] setupLights (Some tilted))
     = Some (mkOverlay 5%float 0%float).
Proof. vm_compute. split; reflexivity. Qed.

(** The same scene at binary64, and the incidence of the roof under the
    light of [setupLights]. *)
Example roof_energy_float :
  energy 5%float zenith roof roof_positions = 7.5%float
  /\ calculateSurfaceArea (@roof_positions float _) = 10%float
  /\ angle (@zenith float _) roof = 1%float
  /\ angle (@setupLights float _) roof = 0.96225044864937626%float.
Proof. vm_compute. repeat split. Qed.

(* ================================================================== *)
(** * The GHI query parameter *)
(* ================================================================== *)

Section GhiParameter.
Local Open Scope string_scope.

Lemma or_else_falsy (a b : float) :
  Float64.truthy a = false -> or_else a b = b.
Proof.
  intros Ha. unfold or_else. cbn [ToBoolean Number_float].
  rewrite Ha. reflexivity.
Qed.

Lemma truthy_nan (a : float) :
  PrimFloat.is_nan a = true -> Float64.truthy a = false.
Proof.
  intros Ha. unfold Float64.truthy. rewrite Ha, orb_true_r. reflexivity.
Qed.

Lemma truthy_zero (a : float) :
  PrimFloat.is_zero a = true -> Float64.truthy a = false.
Proof. intros Ha. unfold Float64.truthy. rewrite Ha. reflexivity. Qed.

(** A string with no prefix that is a decimal literal parses to NaN. *)
Lemma parseFloat_unparsable (s : string) :
  JS.scan s = None -> PrimFloat.is_nan (JS.parseFloat s) = true.
Proof. intros Hs. unfold JS.parseFloat. rewrite Hs. reflexivity. Qed.

Example parseFloat_examples :
  map JS.parseFloat ["5.23"; " 4.9e-324xyz"; "-0"; "1e400"; ".5"; "5."]
  = [5.23; 4.9e-324; -0; infinity; 0.5; 5]%float
  /\ map JS.scan ["null"; ""; "abc"; "."; "-"; "e5"]
     = [None; None; None; None; None; None].
Proof. vm_compute. split; reflexivity. Qed.

End GhiParameter.

(** C4. When the [ghi] query parameter is absent, or present with a
    string that [parseFloat] takes to NaN, the estimator uses 5.0 as the
    GHI value and still returns its overlay: the value shown is 5.0 and
    the total is the one the traversal accumulates with GHI 5.0. *)
Theorem C4_ghi_defaults_to_5
        (this : BIPVViewer float) (scene : Object3D float) :
  cityModel this = Some scene ->
  (JS.get (params this) "ghi" = None
   \/ exists s, JS.get (params this) "ghi" = Some s
                /\ PrimFloat.is_nan (JS.parseFloat s) = true) ->
  ghi_of JS.parseFloat (params this) = 5%float
  /\ calculateBIPVPotential JS.parseFloat this
     = Some (mkOverlay 5%float
               (traverse (callback 5%float (sunLight_position this))
                         scene 0%float)).
Proof.
  intros Hscene Hghi.
  assert (Hvalue : ghi_of JS.parseFloat (params this) = 5%float).
  { unfold ghi_of. destruct Hghi as [Habsent | (s & Hs & Hnan)].
    - rewrite Habsent. vm_compute. reflexivity.
    - rewrite Hs. cbn [JS.ToString].
      rewrite or_else_falsy by (apply truthy_nan; exact Hnan).
      vm_compute. reflexivity. }
  split; [exact Hvalue|].
  unfold calculateBIPVPotential. rewrite Hscene, Hvalue. reflexivity.
Qed.

(** A query without [ghi], and one whose [ghi] is no number. *)
Lemma C4_ghi_defaults_to_5_witness :
  ghi_of JS.parseFloat [("model", "1700000000000.glb")]%string = 5%float
  /\ ghi_of JS.parseFloat [("model", "a.glb"); ("ghi", "abc")]%string
     = 5%float.
Proof.
  split.
  - apply (@C4_ghi_defaults_to_5
             (viewer_on [("model", "1700000000000.glb")]%string) roof eq_refl).
    left. reflexivity.
  - apply (@C4_ghi_defaults_to_5
             (viewer_on [("model", "a.glb"); ("ghi", "abc")]%string)
             roof eq_refl).
    right. exists "abc"%string. split; reflexivity.
Defined.

(** C9. A [ghi] string that [parseFloat] takes to 0 (as "0" and "0.0"
    are) is replaced by 5.0 as well; so the GHI value the estimator uses,
    and shows, is never 0 and never NaN. *)
Theorem C9_ghi_never_zero_nor_nan :
  (forall (query : JS.URLSearchParams) (s : string),
      JS.get query "ghi" = Some s ->
      PrimFloat.is_zero (JS.parseFloat s) = true ->
      ghi_of JS.parseFloat query = 5%float)
  /\ PrimFloat.is_zero (JS.parseFloat "0") = true
  /\ PrimFloat.is_zero (JS.parseFloat "0.0") = true
  /\ (forall query : JS.URLSearchParams,
         PrimFloat.is_zero (ghi_of JS.parseFloat query) = false
         /\ PrimFloat.is_nan (ghi_of JS.parseFloat query) = false)
  /\ (forall (this : BIPVViewer float) (overlay : Overlay float),
         calculateBIPVPotential JS.parseFloat this = Some overlay ->
         PrimFloat.is_zero (shown_ghi overlay) = false
         /\ PrimFloat.is_nan (shown_ghi overlay) = false).
Proof.
  assert (Hnever : forall query : JS.URLSearchParams,
             PrimFloat.is_zero (ghi_of JS.parseFloat query) = false
             /\ PrimFloat.is_nan (ghi_of JS.parseFloat query) = false).
  { intros query. unfold ghi_of, or_else. cbn [ToBoolean Number_float].
    destruct (Float64.truthy _) eqn:Htruthy.
    - unfold Float64.truthy in Htruthy.
      apply negb_true_iff, orb_false_iff in Htruthy. exact Htruthy.
    - vm_compute. split; reflexivity. }
  split; [|split; [|split; [|split]]].
  - intros query s Hs Hzero. unfold ghi_of. rewrite Hs. cbn [JS.ToString].
    rewrite or_else_falsy by (apply truthy_zero; exact Hzero).
    vm_compute. reflexivity.
  - vm_compute. reflexivity.
  - vm_compute. reflexivity.
  - exact Hnever.
  - intros this overlay. unfold calculateBIPVPotential.
    destruct (cityModel this); [|discriminate].
    intros Hoverlay. injection Hoverlay as <-. cbn [shown_ghi].
    apply Hnever.
Qed.

Lemma C9_ghi_never_zero_nor_nan_witness :
  ghi_of JS.parseFloat [("model", "a.glb"); ("ghi", "0")]%string = 5%float.
Proof.
  apply (proj1 C9_ghi_never_zero_nor_nan _ "0"%string).
  - reflexivity.
  - vm_compute. reflexivity.
Defined.

(* ================================================================== *)
(** * The upload gateway *)
(* ================================================================== *)

Import Server.

Section ServerFacts.
Local Open Scope string_scope.

Lemma Number_toString_nonempty (n : Z) : Number_toString n <> "".
Proof.
  unfold Number_toString, NilZero.string_of_int, NilZero.string_of_uint.
  destruct (Z.to_int n) as [d|d]; [|discriminate].
  destruct d; cbn; discriminate.
Qed.

Lemma append_nonempty (a b : string) : a <> "" -> a ++ b <> "".
Proof. destruct a; [congruence|discriminate]. Qed.

Lemma prefix_append (a b : string) : prefix a (a ++ b) = true.
Proof.
  induction a as [|c a IH]; [destruct b; reflexivity|].
  cbn. destruct (ascii_dec c c); [exact IH|congruence].
Qed.

Example extname_examples :
  map extname ["index.html"; "index.coffee.md"; "index."; "index";
               ".index"; ".index.md"; "city.glb"; "a.b/c"]
  = [".html"; ".md"; "."; ""; ""; ".md"; ".glb"; ""].
Proof. vm_compute. reflexivity. Qed.

End ServerFacts.

Section Basename.
Import UploadSpec.
Local Open Scope string_scope.

Lemma no_dots_base (component : string) :
  no_dots component
  = if in_dec string_dec component ["."; ".."] then "" else component.
Proof.
  unfold no_dots.
  destruct (in_dec string_dec component ["."; ".."]) as [Hin | Hout].
  - destruct Hin as [<- | [<- | []]]; reflexivity.
  - destruct (String.eqb_spec component "..") as [-> | Hdd].
    + exfalso. apply Hout. right. left. reflexivity.
    + destruct (String.eqb_spec component ".") as [-> | Hd]; [|reflexivity].
      exfalso. apply Hout. left. reflexivity.
Qed.

Lemma substring_all (s : string) : substring 0 (String.length s) s = s.
Proof. induction s as [|c s IH]; [reflexivity|]. cbn. rewrite IH. reflexivity. Qed.

Lemma has_separator_get (path : string) :
  (forall k c, String.get k path = Some c -> is_separator c = false) ->
  has_separator path = false.
Proof.
  induction path as [|a s IH]; intros Hget; [reflexivity|].
  cbn [has_separator]. rewrite (Hget 0%nat a eq_refl). cbn [orb].
  apply IH. intros k c Hk. apply (Hget (S k) c Hk).
Qed.

Lemma last_component_whole (path : string) :
  has_separator path = false -> last_component path = path.
Proof.
  destruct path as [|c rest]; [reflexivity|].
  cbn [has_separator last_component]. intros ->. reflexivity.
Qed.

(** With the last separator at index [i], the last component is what
    follows it. *)
Lemma last_component_after : forall (path : string) (i : nat) (c : ascii),
  String.get i path = Some c -> is_separator c = true ->
  (forall k c', (i < k)%nat -> String.get k path = Some c' ->
                is_separator c' = false) ->
  last_component path
  = substring (S i) (String.length path - S i) path.
Proof.
  induction path as [|a s IH]; intros i c Hget Hsep Hlast; [discriminate|].
  destruct i as [|i].
  - cbn in Hget. injection Hget as ->.
    cbn [last_component]. rewrite Hsep. cbn [orb].
    assert (Hnone : has_separator s = false).
    { apply has_separator_get. intros k c' Hk.
      apply (Hlast (S k) c'); [lia|exact Hk]. }
    rewrite (last_component_whole _ Hnone).
    cbn [String.length Nat.sub substring]. rewrite Nat.sub_0_r.
    symmetry. apply substring_all.
  - cbn in Hget. cbn [last_component].
    assert (Hsome : has_separator s = true).
    { clear IH Hlast. revert i Hget.
      induction s as [|b s IHs]; intros i Hget; [discriminate|].
      cbn [has_separator]. destruct i as [|i].
      - cbn in Hget. injection Hget as ->. rewrite Hsep. reflexivity.
      - cbn in Hget. rewrite (IHs i Hget). apply orb_true_r. }
    rewrite Hsome, orb_true_r.
    rewrite (IH i c Hget Hsep).
    + reflexivity.
    + intros k c' Hk Hgetk. apply (Hlast (S k) c'); [lia|exact Hgetk].
Qed.

Lemma basename_loop_base_name (path : string) : forall n : nat,
  (n <= String.length path)%nat ->
  (forall k c, (n <= k)%nat -> String.get k path = Some c ->
               is_separator c = false) ->
  basename_loop path n = base_name path.
Proof.
  induction n as [|i IH]; intros Hn Hlast.
  - cbn [basename_loop]. unfold base_name.
    rewrite last_component_whole.
    + apply no_dots_base.
    + apply has_separator_get. intros k c Hk. apply (Hlast k c); [lia|exact Hk].
  - cbn [basename_loop].
    destruct (String.get i path) as [code|] eqn:Hcode.
    + fold (is_separator code).
      destruct (is_separator code) eqn:Hsep.
      * unfold base_name.
        rewrite (last_component_after path Hcode Hsep).
        -- apply no_dots_base.
        -- intros k c' Hk. apply Hlast. lia.
      * apply IH; [lia|]. intros k c Hk Hget.
        destruct (Nat.eq_dec k i) as [-> | Hne].
        -- rewrite Hcode in Hget. injection Hget as <-. exact Hsep.
        -- apply (Hlast k c); [lia|exact Hget].
    + apply IH; [lia|]. intros k c Hk Hget.
      destruct (Nat.eq_dec k i) as [-> | Hne]; [congruence|].
      apply (Hlast k c); [lia|exact Hget].
Qed.

Lemma get_beyond (path : string) : forall k : nat,
  (String.length path <= k)%nat -> String.get k path = None.
Proof.
  induction path as [|a s IH]; intros k Hk; [destruct k; reflexivity|].
  destruct k as [|k]; [cbn in Hk; lia|]. cbn. apply IH. cbn in Hk. lia.
Qed.

(** busboy's [basename] computes the base name. *)
Lemma basename_base_name (path : string) : basename path = base_name path.
Proof.
  apply basename_loop_base_name; [lia|].
  intros k c Hk Hget. rewrite get_beyond in Hget by exact Hk. discriminate.
Qed.

Lemma last_component_no_separator (path : string) :
  has_separator (last_component path) = false.
Proof.
  induction path as [|c rest IH]; [reflexivity|].
  cbn [last_component].
  destruct (is_separator c || has_separator rest) eqn:Hsep; [exact IH|].
  cbn [has_separator]. exact Hsep.
Qed.

End Basename.

Section UploadFacts.
Import UploadSpec.
Local Open Scope string_scope.
Variable name : string.
Variable time : Z.

(** Once the field has taken its file, any further named file is an
    error. *)
Lemma single_loop_full : forall (l : list Part) (file : option File),
  single_loop name time l 0 file
  = match named_files l with
    | [] => inr file
    | (field, _) :: _ => inl (LIMIT_UNEXPECTED_FILE field)
    end.
Proof.
  induction l as [|[field value|field sent] l IH]; intros file;
    cbn [single_loop named_files]; [reflexivity|apply IH|].
  rewrite basename_base_name.
  destruct (base_name sent) as [|c base]; [apply IH|].
  cbn [String.eqb]. rewrite andb_false_r. reflexivity.
Qed.

(** What [upload.single] comes to, by the named files of the request. *)
Lemma single_loop_named_files (l : list Part) :
  single_loop name time l 1 None
  = match named_files l with
    | [] => inr None
    | (field, base) :: others =>
        if String.eqb field name then
          match others with
          | [] => inr (Some (mkFile base (storage_filename time base)))
          | (field', _) :: _ => inl (LIMIT_UNEXPECTED_FILE field')
          end
        else inl (LIMIT_UNEXPECTED_FILE field)
    end.
Proof.
  induction l as [|[field value|field sent] l IH];
    cbn [single_loop named_files]; [reflexivity|exact IH|].
  rewrite basename_base_name.
  destruct (base_name sent) as [|c base]; [exact IH|].
  cbn [String.eqb].
  destruct (String.eqb field name); cbn [andb Nat.ltb Nat.leb Nat.sub];
    [|reflexivity].
  rewrite single_loop_full. destruct (named_files l) as [|[field' base'] l'];
    reflexivity.
Qed.

End UploadFacts.

(** The answers of the route: 200 for one named file in the field
    cityModel, 400 or 500 for every other request. *)
Lemma post_upload_cases (req : HttpRequest) :
  (exists name : string,
      UploadSpec.named_files (parts req) = [("cityModel"%string, name)]
      /\ post_upload req
         = mkResponse 200 (Json true (storage_filename (now req) name)))
  \/ ((forall name : string,
         UploadSpec.named_files (parts req) <> [("cityModel"%string, name)])
      /\ (post_upload req = mkResponse 400 (Text "No file uploaded.")
          \/ post_upload req = mkResponse 500 ErrorPage)).
Proof.
  unfold post_upload, upload_single. rewrite single_loop_named_files.
  destruct (UploadSpec.named_files (parts req))
    as [|[field base] [|[field' base'] others]].
  - right. split; [discriminate|]. left. reflexivity.
  - destruct (String.eqb_spec field "cityModel") as [-> | Hfield].
    + left. exists base. split; reflexivity.
    + right. split; [|right; reflexivity].
      intros name Heq. injection Heq as Heq _. contradiction.
  - right. split; [discriminate|]. right.
    destruct (String.eqb field "cityModel"); reflexivity.
Qed.

(** C7 (amended). The route answers 400 with the text
    "No file uploaded." exactly when the request carries no file with a
    name (the base name of a file part, empty for no name, "." and
    ".."); it answers 200 with the JSON body {success: true, filename}
    exactly when the request carries one such file and that file is in
    the field cityModel; in every other case multer's error makes it
    answer 500 without running the handler.  The file name of a 200
    answer is the decimal timestamp followed by the extension of the
    base name, is not empty, and differs from the base name whenever
    the base name does not begin with the digits of the timestamp. *)
Theorem C7_upload_response (req : HttpRequest) :
  let files := UploadSpec.named_files (parts req) in
  (post_upload req = mkResponse 400 (Text "No file uploaded.")
   <-> files = [])
  /\ (forall name : string,
         files = [("cityModel"%string, name)] ->
         let generated := storage_filename (now req) name in
         post_upload req = mkResponse 200 (Json true generated)
         /\ generated = (Number_toString (now req) ++ extname name)%string
         /\ generated <> ""%string
         /\ (prefix (Number_toString (now req)) name = false ->
             generated <> name))
  /\ (status (post_upload req) = 200%Z ->
      exists name, files = [("cityModel"%string, name)])
  /\ (post_upload req = mkResponse 500 ErrorPage
      <-> files <> [] /\ forall name, files <> [("cityModel"%string, name)]).
Proof.
  intros files. unfold post_upload, upload_single.
  rewrite single_loop_named_files. fold files.
  split; [|split; [|split]].
  - destruct files as [|[field base] [|[field' base'] others]].
    + split; reflexivity.
    + destruct (String.eqb field "cityModel"); split; discriminate.
    + destruct (String.eqb field "cityModel"); split; discriminate.
  - intros name Hfiles. rewrite Hfiles.
    cbn [String.eqb Ascii.eqb Bool.eqb filename].
    split; [reflexivity|]. split; [reflexivity|]. split.
    + apply append_nonempty, Number_toString_nonempty.
    + intros Hprefix Hsame. unfold storage_filename in Hsame.
      rewrite <- Hsame, prefix_append in Hprefix. discriminate.
  - destruct files as [|[field base] [|[field' base'] others]].
    + discriminate.
    + destruct (String.eqb_spec field "cityModel") as [-> | Hfield].
      * intros _. exists base. reflexivity.
      * discriminate.
    + destruct (String.eqb field "cityModel"); discriminate.
  - destruct files as [|[field base] [|[field' base'] others]].
    + split; [discriminate|]. intros (Hne & _). congruence.
    + destruct (String.eqb_spec field "cityModel") as [-> | Hfield].
      * split; [discriminate|]. intros (_ & Hother).
        exfalso. apply (Hother base). reflexivity.
      * split; [|reflexivity]. intros _. split; [discriminate|].
        intros name Heq. injection Heq as Heq _. contradiction.
    + split.
      * intros _. split; discriminate.
      * intros _. destruct (String.eqb field "cityModel"); reflexivity.
Qed.

(** The file city.glb sent from a Windows path at time 1700000000000,
    and a form sent without a file. *)
Lemma C7_upload_response_witness :
  let sent := ("C:" ++ String backslash "models"
               ++ String backslash "city.glb")%string in
  post_upload (mkRequest 1700000000000
                 [FieldPart "note" "a text field"; FilePart "cityModel" sent])
  = mkResponse 200 (Json true "1700000000000.glb")
  /\ "1700000000000.glb"%string <> "city.glb"%string
  /\ post_upload (mkRequest 1700000000000 [FieldPart "cityModel" "undefined"])
     = mkResponse 400 (Text "No file uploaded.").
Proof.
  intros sent.
  pose proof (C7_upload_response
                (mkRequest 1700000000000
                   [FieldPart "note" "a text field"; FilePart "cityModel" sent]))
    as (_ & Hfile & _).
  specialize (Hfile "city.glb"%string eq_refl).
  destruct Hfile as (Hresponse & _ & _ & Hdistinct).
  split; [exact Hresponse|]. split.
  - apply Hdistinct. reflexivity.
  - apply (proj1 (C7_upload_response
                    (mkRequest 1700000000000
                       [FieldPart "cityModel" "undefined"]))).
    reflexivity.
Defined.

(** C7 as stated fails: a file whose name is the timestamp of its own
    upload followed by its extension is stored under its original
    name. *)
Lemma C7_counterexample :
  ~ (forall (req : HttpRequest) (name : string),
        parts req = [FilePart "cityModel" name] ->
        exists generated,
          post_upload req = mkResponse 200 (Json true generated)
          /\ generated <> ""%string /\ generated <> name).
Proof.
  intros Hclaim.
  destruct (Hclaim (mkRequest 1700000000000
                      [FilePart "cityModel" "1700000000000.glb"])
                   "1700000000000.glb"%string eq_refl)
    as (generated & Hresponse & _ & Hdistinct).
  vm_compute in Hresponse. injection Hresponse as <-.
  apply Hdistinct. reflexivity.
Qed.

(** Other answers of the route: a file in another field and a second
    file give 500; a file part named ".." or ending in a slash gives
    400 although the field is present; a backslash in the name cuts the
    extension off. *)
Example post_upload_examples :
  map (fun l => post_upload (mkRequest 1700000000000 l))
      [[FilePart "model" "city.glb"];
       [FilePart "cityModel" "a.glb"; FilePart "cityModel" "b.glb"];
       [FilePart "cityModel" ".."];
       [FilePart "cityModel" "a.glb/"];
       [FilePart "cityModel" ("x.y" ++ String backslash "z")]]
  = [mkResponse 500 ErrorPage;
     mkResponse 500 ErrorPage;
     mkResponse 400 (Text "No file uploaded.");
     mkResponse 400 (Text "No file uploaded.");
     mkResponse 200 (Json true "1700000000000")].
Proof. vm_compute. reflexivity. Qed.

(* ================================================================== *)
(** * The form script *)
(* ================================================================== *)

Import Client.
Local Open Scope string_scope.
Local Open Scope client_scope.

Section MemberReads.
Variable inherited : value -> string -> value.

(** A member read performs no event; it gives a member or throws a
    [TypeError]. *)
Lemma get_property_pure (v : value) (key : string) :
  (exists member, get_property inherited v key = ([], Normal member))
  \/ get_property inherited v key = ([], Throw TypeError).
Proof.
  destruct v; cbn; try (left; eexists; reflexivity); try (right; reflexivity).
  destruct (own_property props key); left; eexists; reflexivity.
Qed.

Lemma read_path_pure : forall rest v key,
  (exists member, read_path inherited v key rest = ([], Normal member))
  \/ read_path inherited v key rest = ([], Throw TypeError).
Proof.
  induction rest as [|key' rest IH]; intros v key; cbn [read_path].
  - apply get_property_pure.
  - destruct (get_property_pure v key) as [(member & ->) | ->].
    + cbn [bind]. destruct (IH member key') as [(m & ->) | ->].
      * left. eexists. reflexivity.
      * right. reflexivity.
    + right. reflexivity.
Qed.

(** When no key of the path is inherited by the members read, reading
    a path that own properties do not reach gives [undefined] or
    throws. *)
Lemma read_path_missing : forall rest v key,
  (forall w k, member_of w v -> In k (key :: rest) ->
               inherited w k = VUndefined) ->
  own_path v (key :: rest) = None ->
  read_path inherited v key rest = ([], Normal VUndefined)
  \/ read_path inherited v key rest = ([], Throw TypeError).
Proof.
  induction rest as [|key' rest IH]; intros v key Hinh Hmissing.
  - pose proof (Hinh v key (member_self v) (or_introl eq_refl)) as Hhere.
    cbn [read_path]. cbn [own_path] in Hmissing.
    destruct v; cbn; rewrite ?Hhere; auto.
    destruct (own_property props key); [discriminate|].
    left. reflexivity.
  - pose proof (Hinh v key (member_self v) (or_introl eq_refl)) as Hhere.
    cbn [read_path].
    assert (Hundef : bind (ret VUndefined)
                       (fun member => read_path inherited member key' rest)
                     = ([], Throw TypeError)).
    { cbn [ret bind]. destruct rest; reflexivity. }
    remember (key' :: rest) as path eqn:Hpath.
    destruct v; cbn [get_property own_path] in *;
      rewrite ?Hhere;
      try (right; subst path; exact Hundef);
      try (right; reflexivity).
    destruct (own_property props key) as [member|] eqn:Hown.
    + cbn [ret bind]. subst path.
      assert (Hinh' : forall w k, member_of w member -> In k (key' :: rest) ->
                                  inherited w k = VUndefined).
      { intros w k Hw Hk. apply Hinh.
        - exact (member_property props key Hown Hw).
        - right. exact Hk. }
      destruct (IH member key' Hinh' Hmissing) as [-> | ->]; auto.
    + right; subst path; exact Hundef.
Qed.

(** Reading a path that own properties reach gives the member. *)
Lemma read_path_own : forall rest v key member,
  own_path v (key :: rest) = Some member ->
  read_path inherited v key rest = ([], Normal member).
Proof.
  induction rest as [|key' rest IH]; intros v key member Hown.
  - cbn [read_path]. cbn [own_path] in Hown.
    destruct v; try discriminate. cbn.
    destruct (own_property props key); [|discriminate].
    injection Hown as ->. reflexivity.
  - cbn [read_path].
    remember (key' :: rest) as path eqn:Hpath.
    destruct v; cbn [own_path] in Hown; try discriminate.
    cbn [get_property].
    destruct (own_property props key) as [m|]; [|discriminate].
    cbn [ret bind]. subst path. rewrite (IH m key' member Hown). reflexivity.
Qed.

End MemberReads.

Section FetchFacts.
Variable inherited : value -> string -> value.
Variables lat lon date : string.

Let url := apiUrl lat lon date.

(** What [fetchGHI] does and returns, by what the request comes to. *)
Lemma fetchGHI_network_error :
  fetchGHI inherited lat lon date NetworkError
  = ([Request "GET" url; Settled url NetworkError;
      ConsoleError "Error fetching GHI:"], Normal VNull).
Proof. reflexivity. Qed.

Lemma fetchGHI_not_ok statusText json :
  fetchGHI inherited lat lon date (Response false statusText json)
  = ([Request "GET" url; Settled url (Response false statusText json);
      ConsoleError "Failed to fetch GHI:"], Normal VNull).
Proof. reflexivity. Qed.

Lemma fetchGHI_malformed statusText :
  fetchGHI inherited lat lon date (Response true statusText None)
  = ([Request "GET" url; Settled url (Response true statusText None);
      ConsoleError "Error fetching GHI:"], Normal VNull).
Proof. reflexivity. Qed.

Lemma fetchGHI_json statusText data :
  let o := Response true statusText (Some data) in
  fetchGHI inherited lat lon date o
  = match read_path inherited data "properties"
                    ["parameter"; "ALLSKY_SFC_SW_DWN"; date] with
    | (_, Normal member) =>
        ([Request "GET" url; Settled url o], Normal member)
    | (_, Throw _) =>
        ([Request "GET" url; Settled url o;
          ConsoleError "Error fetching GHI:"], Normal VNull)
    end.
Proof.
  intros o.
  change (fetchGHI inherited lat lon date o)
    with (try_catch
            (response <- fetch "GET" url o ;;
             if response_ok response then
               body <- response_json response ;;
               read_path inherited body "properties"
                         ["parameter"; "ALLSKY_SFC_SW_DWN"; date]
             else
               emit (ConsoleError "Failed to fetch GHI:") ;;
               ret VNull)
            (fun _ => emit (ConsoleError "Error fetching GHI:") ;;
                      ret VNull)).
  cbv beta iota delta [fetch emit bind ret response_ok response_json o].
  destruct (read_path_pure inherited
              ["parameter"; "ALLSKY_SFC_SW_DWN"; date] data "properties")
    as [(member & ->) | ->]; reflexivity.
Qed.

End FetchFacts.

(** Whatever the request comes to, [fetchGHI] returns: it never throws.
    Its events are the request, its settlement and console output. *)
Lemma fetchGHI_returns inherited lat lon date o :
  exists events v,
    fetchGHI inherited lat lon date o = (events, Normal v)
    /\ forall e, In e events ->
         e = Request "GET" (apiUrl lat lon date)
         \/ e = Settled (apiUrl lat lon date) o
         \/ exists label, e = ConsoleError label.
Proof.
  destruct o as [|[|] statusText [data|]].
  - rewrite fetchGHI_network_error. do 2 eexists. split; [reflexivity|].
    cbn. intuition eauto.
  - rewrite fetchGHI_json.
    destruct (read_path inherited data _ _) as [events [member|e]];
      do 2 eexists; (split; [reflexivity|]); cbn; intuition eauto.
  - rewrite fetchGHI_malformed. do 2 eexists. split; [reflexivity|].
    cbn. intuition eauto.
  - rewrite fetchGHI_not_ok. do 2 eexists. split; [reflexivity|].
    cbn. intuition eauto.
  - rewrite fetchGHI_not_ok. do 2 eexists. split; [reflexivity|].
    cbn. intuition eauto.
Qed.

(** C6. Whenever the external request fails - by a network error, a
    non-success status, a body that is not JSON, or a body in which the
    requested date key is missing - [fetchGHI] does not throw and returns
    [null] or [undefined]; for a JSON body this is provided that none of
    the keys read is an inherited member of the members of the body. *)
Theorem C6_fetchGHI_absence_on_failure
        (inherited : value -> string -> value)
        (lat lon date : string) (o : FetchOutcome) :
  (forall statusText data w k,
      o = Response true statusText (Some data) ->
      member_of w data -> In k (ghi_path date) ->
      inherited w k = VUndefined) ->
  request_failed date o ->
  exists v,
    snd (fetchGHI inherited lat lon date o) = Normal v /\ absent v = true.
Proof.
  intros Hinherited Hfailed.
  destruct Hfailed as [|statusText json|statusText|statusText data Hmissing].
  - exists VNull. split; reflexivity.
  - exists VNull. split; reflexivity.
  - exists VNull. split; reflexivity.
  - rewrite fetchGHI_json.
    destruct (@read_path_missing inherited
                ["parameter"; "ALLSKY_SFC_SW_DWN"; date] data "properties"
                (fun w k => Hinherited statusText data w k eq_refl) Hmissing)
      as [-> | ->].
    + exists VUndefined. split; reflexivity.
    + exists VNull. split; reflexivity.
Qed.

(** A body that has the series, for another day than the one asked. *)
Lemma C6_fetchGHI_absence_on_failure_witness :
  exists v,
    snd (fetchGHI own_only "52.5" "13.4" "20240101"
           (Response true "OK"
              (Some (api_body "20240102" (VNumber 5.1%float))))) = Normal v
    /\ absent v = true.
Proof.
  apply C6_fetchGHI_absence_on_failure.
  - reflexivity.
  - apply failed_missing_key. reflexivity.
Defined.

Section SubmitFacts.
Variable inherited : value -> string -> value.
Variable form : Form.
Variable w : World.

Let lat := latitude form.
Let lon := longitude form.
Let day := remove_dashes (date_value form).

(** The events of a run of the handler: those of [fetchGHI], its value,
    and then either the alert or the upload and what follows it. *)
Lemma submit_trace :
  exists events v,
    fetchGHI inherited lat lon day (ghi_request w) = (events, Normal v)
    /\ (forall e, In e events ->
          e = Request "GET" (apiUrl lat lon day)
          \/ e = Settled (apiUrl lat lon day) (ghi_request w)
          \/ exists label, e = ConsoleError label)
    /\ exists tail,
        trace (submit inherited form w)
        = PreventDefault :: events ++ Fulfilled_fetchGHI v :: tail
        /\ ((truthy v = false
             /\ tail = [Alert "Failed to retrieve GHI data. Please try again."])
            \/ (truthy v = true
                /\ exists rest,
                    tail = Request "POST" "/upload"
                           :: Settled "/upload" (upload_request w) :: rest
                    /\ (rest = []
                        \/ (exists label, rest = [ConsoleError label])
                        \/ (exists statusText data filename,
                              upload_request w
                              = Response true statusText (Some data)
                              /\ rest = [ConsoleLog v;
                                         Navigate (mkViewerParams filename
                                                     lat lon day v)])))).
Proof.
  destruct (fetchGHI_returns inherited lat lon day (ghi_request w))
    as (events & v & Hghi & Hevents).
  exists events, v. split; [exact Hghi|]. split; [exact Hevents|].
  unfold submit, trace. fold lat lon day.
  cbv beta iota zeta delta [bind emit].
  rewrite Hghi.
  destruct (truthy v) eqn:Htruthy; cbn [negb].
  - destruct (upload_request w) as [|[|] statusText [data|]] eqn:Hupload.
    + eexists. split; [|right; split; [reflexivity|]].
      * cbn. rewrite <- app_assoc. reflexivity.
      * eexists. split; [reflexivity|]. right. left. eexists. reflexivity.
    + cbv beta iota zeta delta [fetch bind emit ret response_ok response_json].
      destruct (get_property_pure inherited data "filename")
        as [(filename & ->) | ->].
      * eexists. split; [|right; split; [reflexivity|]].
        -- cbn. reflexivity.
        -- eexists. split; [reflexivity|]. right. right.
           exists statusText, data, filename. split; reflexivity.
      * eexists. split; [|right; split; [reflexivity|]].
        -- cbn. rewrite <- app_assoc. reflexivity.
        -- eexists. split; [reflexivity|]. right. left. eexists. reflexivity.
    + eexists. split; [|right; split; [reflexivity|]].
      * cbn. rewrite <- app_assoc. reflexivity.
      * eexists. split; [reflexivity|]. right. left. eexists. reflexivity.
    + eexists. split; [|right; split; [reflexivity|]].
      * cbn. reflexivity.
      * eexists. split; [reflexivity|]. left. reflexivity.
    + eexists. split; [|right; split; [reflexivity|]].
      * cbn. reflexivity.
      * eexists. split; [reflexivity|]. left. reflexivity.
  - eexists. split; [|left; split; reflexivity].
    cbn. reflexivity.
Qed.

End SubmitFacts.

Section Precedence.
Variables P Q : Event -> Prop.

Lemma split_cases (pre : list Event) (p : Event) :
  forall tail before e after,
    (pre ++ p :: tail = before ++ e :: after)%list ->
    In e pre \/ e = p \/ In p before.
Proof.
  induction pre as [|a pre IH]; intros tail before e after Heq.
  - destruct before as [|b before]; cbn in Heq; injection Heq as -> _.
    + right. left. reflexivity.
    + right. right. left. reflexivity.
  - destruct before as [|b before]; cbn in Heq; injection Heq as -> Heq.
    + left. left. reflexivity.
    + destruct (IH _ _ _ _ Heq) as [Hin | [-> | Hin]].
      * left. right. exact Hin.
      * right. left. reflexivity.
      * right. right. right. exact Hin.
Qed.

Lemma preceded_by_marker (pre : list Event) (p : Event) (tail : list Event) :
  (forall e, In e pre -> ~ Q e) -> ~ Q p -> P p ->
  preceded_by P Q (pre ++ p :: tail).
Proof.
  intros Hpre Hp HP before e after Heq HQ.
  destruct (split_cases _ _ _ _ _ _ Heq) as [Hin | [-> | Hin]].
  - exfalso. exact (Hpre e Hin HQ).
  - exfalso. exact (Hp HQ).
  - exists p. split; assumption.
Qed.

Lemma preceded_by_absent (t : list Event) :
  (forall e, In e t -> ~ Q e) -> preceded_by P Q t.
Proof.
  intros Hnone before e after -> HQ. exfalso.
  apply (Hnone e); [|exact HQ]. apply in_elt.
Qed.

End Precedence.

(** A run in which [fetchGHI] returns a falsy value shows the alert and
    has no upload request and no navigation. *)
Lemma submit_aborts (inherited : value -> string -> value)
      (form : Form) (w : World) (events : list Event) (v : value) :
  fetchGHI inherited (latitude form) (longitude form)
           (remove_dashes (date_value form)) (ghi_request w)
  = (events, Normal v) ->
  truthy v = false ->
  let run := trace (submit inherited form w) in
  In (Alert "Failed to retrieve GHI data. Please try again.") run
  /\ (forall e, In e run -> ~ is_upload_request e)
  /\ (forall e, In e run -> ~ is_navigation e).
Proof.
  intros Hghi Hfalsy run.
  destruct (submit_trace inherited form w)
    as (events' & v' & Hghi' & Hevents & tail & Hrun & Htail).
  rewrite Hghi in Hghi'. injection Hghi' as <- <-.
  destruct Htail as [(_ & ->) | (Htruthy & _)]; [|congruence].
  fold run in Hrun. rewrite Hrun. split; [|split].
  - right. apply in_or_app. right. right. left. reflexivity.
  - intros e He. classify_event Hevents; not_that_event.
  - intros e He. classify_event Hevents; not_that_event.
Qed.

(** C8. In every run of the submit handler: each upload request comes
    after the promise of [fetchGHI] is fulfilled; each navigation comes
    after the upload request has settled with an [ok] response whose body
    is JSON; and when [fetchGHI] returns [null] or [undefined] the alert
    is shown and the run has no upload request and no navigation. *)
Theorem C8_submit_steps_in_sequence
        (inherited : value -> string -> value) (form : Form) (w : World) :
  let run := trace (submit inherited form w) in
  preceded_by is_ghi_fulfilled is_upload_request run
  /\ preceded_by is_upload_success is_navigation run
  /\ (forall events v,
         fetchGHI inherited (latitude form) (longitude form)
                  (remove_dashes (date_value form)) (ghi_request w)
         = (events, Normal v) ->
         absent v = true ->
         (exists e, In e run /\ is_alert e)
         /\ (forall e, In e run -> ~ is_upload_request e)
         /\ (forall e, In e run -> ~ is_navigation e)).
Proof.
  intros run.
  destruct (submit_trace inherited form w)
    as (events & v & Hghi & Hevents & tail & Hrun & Htail).
  fold run in Hrun.
  assert (Halert : truthy v = false ->
            (forall e, In e run -> ~ is_upload_request e)
            /\ (forall e, In e run -> ~ is_navigation e))
    by (intros Hfalsy; apply (submit_aborts _ _ _ Hghi Hfalsy)).
  split; [|split].
  - destruct Htail as [(Hfalsy & _) | (_ & rest & -> & _)].
    + apply preceded_by_absent. apply (Halert Hfalsy).
    + rewrite Hrun.
      apply (@preceded_by_marker is_ghi_fulfilled is_upload_request
               (PreventDefault :: events) (Fulfilled_fetchGHI v)).
      * intros e He. classify_event Hevents; not_that_event.
      * not_that_event.
      * eexists. reflexivity.
  - destruct Htail as [(Hfalsy & _) | (_ & rest & -> & Hrest)].
    + apply preceded_by_absent. apply (Halert Hfalsy).
    + destruct Hrest as [-> | [(label & ->) | (statusText & data & filename & Hupload & ->)]].
      * apply preceded_by_absent. rewrite Hrun.
        intros e He. classify_event Hevents; not_that_event.
      * apply preceded_by_absent. rewrite Hrun.
        intros e He. classify_event Hevents; not_that_event.
      * rewrite Hrun, Hupload.
        change (PreventDefault :: events ++ Fulfilled_fetchGHI v
                  :: Request "POST" "/upload"
                  :: Settled "/upload" (Response true statusText (Some data))
                  :: [ConsoleLog v; Navigate (mkViewerParams filename
                        (latitude form) (longitude form)
                        (remove_dashes (date_value form)) v)])
          with ((PreventDefault :: events) ++ [Fulfilled_fetchGHI v]
                  ++ [Request "POST" "/upload"]
                  ++ Settled "/upload" (Response true statusText (Some data))
                  :: [ConsoleLog v; Navigate (mkViewerParams filename
                        (latitude form) (longitude form)
                        (remove_dashes (date_value form)) v)])%list.
        rewrite 2!app_assoc.
        apply preceded_by_marker.
        -- intros e He. classify_event Hevents; not_that_event.
        -- not_that_event.
        -- exists statusText, data. reflexivity.
  - intros events' v' Hghi' Habsent.
    assert (Hfalsy : truthy v' = false)
      by (destruct v'; try discriminate; reflexivity).
    destruct (submit_aborts _ _ _ Hghi' Hfalsy) as (Hshown & Hrest).
    split; [|exact Hrest].
    eexists. split; [exact Hshown|]. eexists. reflexivity.
Qed.

(** A run in which both requests succeed, and one in which the external
    API is unreachable. *)
Example submit_runs :
  let url := apiUrl "52.5" "13.4" "20240101" in
  let api := Response true "OK" (Some (api_body "20240101" (VNumber 2.5%float))) in
  let stored := Response true "OK"
                  (Some (VObject [("success", VBoolean true);
                                  ("filename", VString "1700000000000.glb")])) in
  trace (submit own_only berlin (mkWorld api stored))
  = [PreventDefault;
     Request "GET" url; Settled url api;
     Fulfilled_fetchGHI (VNumber 2.5%float);
     Request "POST" "/upload"; Settled "/upload" stored;
     ConsoleLog (VNumber 2.5%float);
     Navigate (mkViewerParams (VString "1700000000000.glb")
                 "52.5" "13.4" "20240101" (VNumber 2.5%float))]
  /\ trace (submit own_only berlin (mkWorld NetworkError stored))
     = [PreventDefault;
        Request "GET" url; Settled url NetworkError;
        ConsoleError "Error fetching GHI:";
        Fulfilled_fetchGHI VNull;
        Alert "Failed to retrieve GHI data. Please try again."].
Proof. vm_compute. split; reflexivity. Qed.

(** C10. When the API answers with the value 0 for the requested date,
    the run of the submit handler shows the failure alert and has no
    upload request and no navigation; and in every run, whatever the
    requests come to, the [ghi] parameter of a navigation is truthy: it
    is never a zero. *)
Theorem C10_zero_ghi_is_treated_as_failure
        (inherited : value -> string -> value) (form : Form) (w : World) :
  let run := trace (submit inherited form w) in
  (forall statusText data z,
      ghi_request w = Response true statusText (Some data) ->
      own_path data (ghi_path (remove_dashes (date_value form)))
      = Some (VNumber z) ->
      PrimFloat.is_zero z = true ->
      In (Alert "Failed to retrieve GHI data. Please try again.") run
      /\ (forall e, In e run -> ~ is_upload_request e)
      /\ (forall e, In e run -> ~ is_navigation e))
  /\ (forall p, In (Navigate p) run ->
        truthy (ghi p) = true
        /\ forall z, ghi p = VNumber z -> PrimFloat.is_zero z = false).
Proof.
  intros run. split.
  - intros statusText data z Hrequest Hvalue Hzero.
    apply (@submit_aborts inherited form w
             [Request "GET" (apiUrl (latitude form) (longitude form)
                               (remove_dashes (date_value form)));
              Settled (apiUrl (latitude form) (longitude form)
                         (remove_dashes (date_value form)))
                      (Response true statusText (Some data))]
             (VNumber z)).
    + rewrite Hrequest, fetchGHI_json.
      rewrite (read_path_own inherited _ _ _ Hvalue). reflexivity.
    + cbn [truthy]. unfold Float64.truthy. rewrite Hzero. reflexivity.
  - intros p Hp.
    destruct (submit_trace inherited form w)
      as (events & v & Hghi & Hevents & tail & Hrun & Htail).
    assert (Hparam : truthy (ghi p) = true).
    { fold run in Hrun. rewrite Hrun in Hp.
      destruct Htail as [(_ & ->) | (Htruthy & rest & -> & Hrest)].
      - locate_event Hevents.
      - destruct Hrest as [-> | [(label & ->) | (statusText & data & filename & _ & ->)]];
          locate_event Hevents.
        injection Heq as <-. exact Htruthy. }
    split; [exact Hparam|].
    intros z Hz. rewrite Hz in Hparam. cbn [truthy] in Hparam.
    unfold Float64.truthy in Hparam.
    apply negb_true_iff, orb_false_iff in Hparam. apply Hparam.
Qed.

(** The API answers 0 for 1 January 2024: the alert, and no upload. *)
Lemma C10_zero_ghi_is_treated_as_failure_witness :
  let api := Response true "OK" (Some (api_body "20240101" (VNumber 0%float))) in
  let run := trace (submit own_only berlin (mkWorld api NetworkError)) in
  In (Alert "Failed to retrieve GHI data. Please try again.") run
  /\ (forall e, In e run -> ~ is_upload_request e)
  /\ (forall e, In e run -> ~ is_navigation e).
Proof.
  intros api run.
  apply (proj1 (C10_zero_ghi_is_treated_as_failure own_only berlin
                  (mkWorld api NetworkError))
               "OK" (api_body "20240101" (VNumber 0%float)) 0%float);
    reflexivity.
Defined.

(* ================================================================== *)
(** * Further properties of the form script *)
(* ================================================================== *)

Import Flow Names Geometry.

Section SubmitRun.
Variable inherited : value -> string -> value.
Variable form : Form.
Variable w : World.

(** A run of the handler, whole: it completes normally, and its events
    are those of [fetchGHI], the fulfilment, and what [after_ghi]
    lists. *)
Lemma submit_run (events : list Event) (v : value) :
  fetchGHI inherited (latitude form) (longitude form)
           (remove_dashes (date_value form)) (ghi_request w)
  = (events, Normal v) ->
  submit inherited form w
  = (PreventDefault :: events ++ Fulfilled_fetchGHI v
       :: after_ghi inherited form v (upload_request w),
     Normal tt).
Proof.
  intros Hghi. unfold submit, after_ghi.
  cbv beta iota zeta delta [bind emit].
  rewrite Hghi.
  destruct (truthy v); cbn [negb].
  - destruct (upload_request w) as [|[|] statusText [data|]].
    + cbn. rewrite <- app_assoc. reflexivity.
    + cbv beta iota zeta delta [fetch bind emit ret response_ok response_json].
      destruct (get_property_pure inherited data "filename")
        as [(filename & ->) | ->].
      * cbn. reflexivity.
      * cbn. rewrite <- app_assoc. reflexivity.
    + cbn. rewrite <- app_assoc. reflexivity.
    + cbn. reflexivity.
    + cbn. reflexivity.
  - cbn. reflexivity.
Qed.

End SubmitRun.

(** The events and the result of [fetchGHI], whatever the request comes
    to. *)
Lemma fetchGHI_shape (inherited : value -> string -> value)
      (lat lon date : string) (o : FetchOutcome) :
  exists rest v,
    fetchGHI inherited lat lon date o
    = (Request "GET" (apiUrl lat lon date)
         :: Settled (apiUrl lat lon date) o :: rest, Normal v)
    /\ (rest = [] \/ (exists label, rest = [ConsoleError label] /\ v = VNull)).
Proof.
  destruct o as [|[|] statusText [data|]].
  - rewrite fetchGHI_network_error. do 2 eexists. split; [reflexivity|].
    right. eexists. split; reflexivity.
  - rewrite fetchGHI_json.
    destruct (read_path inherited data _ _) as [events [member|e]];
      do 2 eexists; (split; [reflexivity|]).
    + left. reflexivity.
    + right. eexists. split; reflexivity.
  - rewrite fetchGHI_malformed. do 2 eexists. split; [reflexivity|].
    right. eexists. split; reflexivity.
  - rewrite fetchGHI_not_ok. do 2 eexists. split; [reflexivity|].
    right. eexists. split; reflexivity.
  - rewrite fetchGHI_not_ok. do 2 eexists. split; [reflexivity|].
    right. eexists. split; reflexivity.
Qed.

(** X1. Whatever the external request comes to, [fetchGHI] returns and
    does not throw; its first two events are one GET request, to the API
    address built from its arguments, and the settlement of that
    request, and it makes no second request; whenever it returns
    something other than [null] it has written nothing to the
    console. *)
Theorem X1_fetchGHI_one_request_no_throw
        (inherited : value -> string -> value)
        (lat lon date : string) (o : FetchOutcome) :
  exists rest v,
    fetchGHI inherited lat lon date o
    = (Request "GET" (apiUrl lat lon date)
         :: Settled (apiUrl lat lon date) o :: rest, Normal v)
    /\ (forall e, In e rest -> exists label, e = ConsoleError label)
    /\ (v <> VNull -> rest = []).
Proof.
  destruct (fetchGHI_shape inherited lat lon date o)
    as (rest & v & Hrun & Hrest).
  exists rest, v. split; [exact Hrun|].
  destruct Hrest as [-> | (label & -> & ->)]; split.
  - intros e [].
  - reflexivity.
  - intros e [<- | []]. eexists. reflexivity.
  - intros Hv. congruence.
Qed.

(** X2. When the response is [ok] and its JSON body holds a member
    under properties.parameter.ALLSKY_SFC_SW_DWN[date], [fetchGHI]
    returns that member as it is - a number, but just as well a string
    or any other value - and writes nothing to the console. *)
Theorem X2_fetchGHI_returns_the_member
        (inherited : value -> string -> value)
        (lat lon date statusText : string) (data member : value) :
  own_path data (ghi_path date) = Some member ->
  fetchGHI inherited lat lon date (Response true statusText (Some data))
  = ([Request "GET" (apiUrl lat lon date);
      Settled (apiUrl lat lon date) (Response true statusText (Some data))],
     Normal member).
Proof.
  intros Hmember. rewrite fetchGHI_json.
  rewrite (read_path_own inherited _ _ _ Hmember). reflexivity.
Qed.

Lemma X2_fetchGHI_returns_the_member_witness :
  snd (fetchGHI own_only "52.5" "13.4" "20240101"
         (Response true "OK" (Some (api_body "20240101" (VString "n/a")))))
  = Normal (VString "n/a").
Proof.
  rewrite (@X2_fetchGHI_returns_the_member own_only "52.5" "13.4" "20240101"
             "OK" (api_body "20240101" (VString "n/a")) (VString "n/a")).
  - reflexivity.
  - reflexivity.
Defined.

(** X3. The submit handler never throws, whatever the two requests come
    to: every exception is caught inside it.  Each run begins with
    [preventDefault] and then the GET request for the GHI value, which
    is made before anything about the file is looked at. *)
Theorem X3_submit_never_throws
        (inherited : value -> string -> value) (form : Form) (w : World) :
  snd (submit inherited form w) = Normal tt
  /\ exists rest,
       trace (submit inherited form w)
       = PreventDefault
           :: Request "GET" (apiUrl (latitude form) (longitude form)
                               (remove_dashes (date_value form)))
           :: rest.
Proof.
  destruct (fetchGHI_shape inherited (latitude form)
              (longitude form) (remove_dashes (date_value form))
              (ghi_request w)) as (rest & v & Hghi & _).
  rewrite (submit_run inherited form w Hghi). split; [reflexivity|].
  eexists. reflexivity.
Qed.

(** Where a navigation can be in a run: only in what follows the
    fulfilment of [fetchGHI]. *)
Lemma navigation_after_ghi (inherited : value -> string -> value)
      (form : Form) (w : World) (events : list Event) (v : value)
      (p : ViewerParams) :
  fetchGHI inherited (latitude form) (longitude form)
           (remove_dashes (date_value form)) (ghi_request w)
  = (events, Normal v) ->
  In (Navigate p) (trace (submit inherited form w))
  <-> In (Navigate p) (after_ghi inherited form v (upload_request w)).
Proof.
  intros Hghi. unfold trace. rewrite (submit_run inherited form w Hghi).
  cbn [fst].
  destruct (fetchGHI_shape inherited (latitude form) (longitude form)
              (remove_dashes (date_value form)) (ghi_request w))
    as (rest & v' & Hshape & Hrest).
  rewrite Hghi in Hshape. injection Hshape as -> <-.
  split.
  - intros [Heq | [Heq | [Heq | Hin]]]; try discriminate.
    apply in_app_or in Hin. destruct Hin as [Hin | [Heq | Hin]];
      [|discriminate|exact Hin].
    destruct Hrest as [-> | (label & -> & _)].
    + destruct Hin.
    + destruct Hin as [Heq | []]. discriminate.
  - intros Hin. right. right. right. apply in_or_app. right. right. exact Hin.
Qed.

(** X4. A run of the submit handler navigates to the viewer exactly
    when [fetchGHI] returned a truthy value, the upload was answered
    with an [ok] response whose body is JSON, and reading [filename]
    from that body did not throw; the parameters are then the member
    read as [model], the latitude and longitude as typed, the date
    without its dashes, and as [ghi] the value [fetchGHI] returned,
    unchecked. *)
Theorem X4_navigation_exactly_when
        (inherited : value -> string -> value) (form : Form) (w : World)
        (p : ViewerParams) :
  In (Navigate p) (trace (submit inherited form w))
  <-> exists events statusText data,
        fetchGHI inherited (latitude form) (longitude form)
                 (remove_dashes (date_value form)) (ghi_request w)
        = (events, Normal (ghi p))
        /\ truthy (ghi p) = true
        /\ upload_request w = Response true statusText (Some data)
        /\ get_property inherited data "filename" = ([], Normal (model p))
        /\ lat p = latitude form
        /\ lng p = longitude form
        /\ date p = remove_dashes (date_value form).
Proof.
  destruct (fetchGHI_returns inherited (latitude form) (longitude form)
              (remove_dashes (date_value form)) (ghi_request w))
    as (events & v & Hghi & _).
  rewrite (navigation_after_ghi inherited form w p Hghi).
  unfold after_ghi. split.
  - destruct (truthy v) eqn:Htruthy; cbn [negb].
    + destruct (upload_request w) as [|[|] statusText [data|]];
        try (intros [Heq | [Heq | [Heq | []]]]; discriminate);
        try (intros [Heq | [Heq | []]]; discriminate).
      destruct (get_property_pure inherited data "filename")
        as [(filename & Hread) | Hread]; rewrite Hread.
      * intros [Heq | [Heq | [Heq | [Heq | []]]]]; try discriminate.
        injection Heq as <-. cbn.
        exists events, statusText, data. repeat split; assumption.
      * intros [Heq | [Heq | [Heq | []]]]; discriminate.
    + intros [Heq | []]. discriminate.
  - intros (events' & statusText & data & Hghi' & Htruthy & Hupload & Hread
            & Hlat & Hlng & Hdate).
    rewrite Hghi in Hghi'. injection Hghi' as _ ->.
    rewrite Htruthy, Hupload, Hread. cbn [negb].
    right. right. right. left.
    destruct p as [pm pl pg pd pv]. cbn in *. subst. reflexivity.
Qed.

(** X5. When the GHI value is truthy and the upload is answered with a
    response that is not [ok], the handler stops without a word: the run
    is the two requests and their settlements, with no alert, no
    console output and no navigation. *)
Theorem X5_upload_failure_is_silent
        (inherited : value -> string -> value) (form : Form) (w : World)
        (events : list Event) (v : value) (statusText : string)
        (json : option value) :
  fetchGHI inherited (latitude form) (longitude form)
           (remove_dashes (date_value form)) (ghi_request w)
  = (events, Normal v) ->
  truthy v = true ->
  upload_request w = Response false statusText json ->
  let url := apiUrl (latitude form) (longitude form)
                    (remove_dashes (date_value form)) in
  trace (submit inherited form w)
  = [PreventDefault;
     Request "GET" url; Settled url (ghi_request w);
     Fulfilled_fetchGHI v;
     Request "POST" "/upload";
     Settled "/upload" (Response false statusText json)].
Proof.
  intros Hghi Htruthy Hupload url.
  unfold trace. rewrite (submit_run inherited form w Hghi). cbn [fst].
  unfold after_ghi. rewrite Htruthy, Hupload. cbn [negb].
  destruct (fetchGHI_shape inherited (latitude form) (longitude form)
              (remove_dashes (date_value form)) (ghi_request w))
    as (rest & v' & Hshape & Hrest).
  rewrite Hghi in Hshape. injection Hshape as -> <-.
  destruct Hrest as [-> | (label & _ & ->)]; [reflexivity|discriminate].
Qed.

(** The API answers 2.5, the server answers 500. *)
Lemma X5_upload_failure_is_silent_witness :
  let api := Response true "OK" (Some (api_body "20240101" (VNumber 2.5%float))) in
  let failed := Response false "Internal Server Error" None in
  let url := apiUrl "52.5" "13.4" "20240101" in
  trace (submit own_only berlin (mkWorld api failed))
  = [PreventDefault;
     Request "GET" url; Settled url api;
     Fulfilled_fetchGHI (VNumber 2.5%float);
     Request "POST" "/upload"; Settled "/upload" failed].
Proof.
  intros api failed url.
  apply (@X5_upload_failure_is_silent own_only berlin (mkWorld api failed)
           [Request "GET" url; Settled url api] (VNumber 2.5%float)
           "Internal Server Error" None); reflexivity.
Defined.

(** X6. The handler against the server, when the GHI value is truthy.
    Whatever multipart request reaches the server, the handler given
    the server's answer navigates exactly when the request carries one
    file with a name and that file is in the field cityModel; [model]
    is then the name under which the server stored the file, and a
    viewer opened with that [model] parameter asks the loader for that
    name under /uploads/.  For every other request (no named file, a
    file in another field, a second file) the server's answer is not
    [ok], and the run ends after the upload with no alert, no console
    output and no navigation. *)
Theorem X6_submit_against_the_server
        (inherited : value -> string -> value) (form : Form)
        (api : FetchOutcome) (events : list Event) (v : value)
        (req : HttpRequest) :
  fetchGHI inherited (latitude form) (longitude form)
           (remove_dashes (date_value form)) api
  = (events, Normal v) ->
  truthy v = true ->
  let files := UploadSpec.named_files (parts req) in
  let answer := deliver (post_upload req) in
  let run := trace (submit inherited form (mkWorld api answer)) in
  (forall p,
      In (Navigate p) run
      <-> exists name,
            files = [("cityModel", name)]
            /\ p = mkViewerParams
                     (VString (storage_filename (now req) name))
                     (latitude form) (longitude form)
                     (remove_dashes (date_value form)) v)
  /\ (forall name query,
         JS.get query "model" = Some (storage_filename (now req) name) ->
         loadModel_url query
         = Some ("/uploads/" ++ storage_filename (now req) name))
  /\ ((forall name, files <> [("cityModel", name)]) ->
      (exists statusText, answer = Response false statusText None)
      /\ run = (PreventDefault :: events
                  ++ [Fulfilled_fetchGHI v; Request "POST" "/upload";
                      Settled "/upload" answer])%list).
Proof.
  intros Hghi Htruthy files answer run.
  assert (Hrun : run = (PreventDefault :: events ++ Fulfilled_fetchGHI v
                   :: after_ghi inherited form v answer)%list).
  { unfold run, trace.
    rewrite (@submit_run inherited form (mkWorld api answer) events v Hghi).
    reflexivity. }
  assert (Hnavigate : forall p,
             In (Navigate p) run
             <-> In (Navigate p) (after_ghi inherited form v answer)).
  { intros p. unfold run.
    exact (@navigation_after_ghi inherited form (mkWorld api answer)
             events v p Hghi). }
  assert (Hfailed : forall statusText,
             answer = Response false statusText None ->
             after_ghi inherited form v answer
             = [Request "POST" "/upload"; Settled "/upload" answer]).
  { intros statusText ->. unfold after_ghi. rewrite Htruthy. reflexivity. }
  assert (Hanswers :
    (exists name,
        files = [("cityModel", name)]
        /\ answer = Response true "OK"
             (Some (VObject [("success", VBoolean true);
                             ("filename",
                              VString (storage_filename (now req) name))])))
    \/ ((forall name, files <> [("cityModel", name)])
        /\ exists statusText, answer = Response false statusText None)).
  { unfold answer, files.
    destruct (post_upload_cases req)
      as [(name & Hfiles & ->) | (Hother & [-> | ->])].
    - left. exists name. split; [exact Hfiles|reflexivity].
    - right. split; [exact Hother|]. eexists. reflexivity.
    - right. split; [exact Hother|]. eexists. reflexivity. }
  split; [|split].
  - intros p. rewrite Hnavigate.
    destruct Hanswers as [(name & Hfiles & ->) | (Hother & statusText & Hanswer)].
    + unfold after_ghi. rewrite Htruthy. cbn [negb]. cbn. split.
      * intros [Heq | [Heq | [Heq | [Heq | []]]]]; try discriminate.
        injection Heq as <-. exists name. split; [exact Hfiles|reflexivity].
      * intros (name' & Hfiles' & ->). rewrite Hfiles in Hfiles'.
        injection Hfiles' as <-. right. right. right. left. reflexivity.
    + rewrite (Hfailed statusText Hanswer). split.
      * intros [Heq | [Heq | []]]; discriminate.
      * intros (name & Hfiles & _). exfalso. exact (Hother name Hfiles).
  - intros name query Hquery. unfold loadModel_url. rewrite Hquery.
    destruct (String.eqb (storage_filename (now req) name) "") eqn:Hempty;
      [|reflexivity].
    apply String.eqb_eq in Hempty. exfalso.
    revert Hempty. apply append_nonempty, Number_toString_nonempty.
  - intros Hother.
    destruct Hanswers as [(name & Hfiles & _) | (_ & statusText & Hanswer)].
    + exfalso. exact (Hother name Hfiles).
    + split; [exists statusText; exact Hanswer|].
      rewrite Hrun, (Hfailed statusText Hanswer). reflexivity.
Qed.

(** The API answers 2.5; the request carries the file city.glb, handled
    at time 1700000000000. *)
Lemma X6_submit_against_the_server_witness :
  let api := Response true "OK" (Some (api_body "20240101" (VNumber 2.5%float))) in
  let req := mkRequest 1700000000000 [FilePart "cityModel" "city.glb"] in
  In (Navigate (mkViewerParams (VString "1700000000000.glb") "52.5" "13.4"
                  "20240101" (VNumber 2.5%float)))
     (trace (submit own_only berlin (mkWorld api (deliver (post_upload req))))).
Proof.
  intros api req.
  apply (proj1 (@X6_submit_against_the_server own_only berlin api
           [Request "GET" (apiUrl "52.5" "13.4" "20240101");
            Settled (apiUrl "52.5" "13.4" "20240101") api]
           (VNumber 2.5%float) req eq_refl eq_refl)).
  exists "city.glb". split; reflexivity.
Defined.

Section Dashes.

Lemma occurs_remove_dashes (s : string) : occurs "-" (remove_dashes s) = false.
Proof.
  induction s as [|c s IH]; [reflexivity|].
  cbn [remove_dashes]. destruct (Ascii.eqb c "-") eqn:Hc; [exact IH|].
  cbn [occurs]. rewrite Hc, IH. reflexivity.
Qed.

Lemma remove_dashes_without (s : string) :
  occurs "-" s = false -> remove_dashes s = s.
Proof.
  induction s as [|c s IH]; [reflexivity|].
  cbn [occurs remove_dashes]. intros Hocc.
  apply orb_false_iff in Hocc. destruct Hocc as [Hc Hs].
  rewrite Hc, (IH Hs). reflexivity.
Qed.

End Dashes.

(** X7. The date the handler works with has no dash left, whatever was
    typed: [value.replace(/-/g, '')] removes every dash and changes
    nothing else (it leaves a string without dashes as it is, so doing
    it twice is doing it once); hence the [date] parameter of a
    navigation never contains a dash. *)
Theorem X7_date_has_no_dash :
  (forall s, occurs "-" (remove_dashes s) = false)
  /\ (forall s, occurs "-" s = false -> remove_dashes s = s)
  /\ (forall s, remove_dashes (remove_dashes s) = remove_dashes s)
  /\ (forall inherited form w p,
         In (Navigate p) (trace (submit inherited form w)) ->
         occurs "-" (date p) = false).
Proof.
  split; [exact occurs_remove_dashes|].
  split; [exact remove_dashes_without|].
  split.
  - intros s. apply remove_dashes_without, occurs_remove_dashes.
  - intros inherited form w p Hp.
    destruct (fetchGHI_returns inherited (latitude form) (longitude form)
                (remove_dashes (date_value form)) (ghi_request w))
      as (events & v & Hghi & _).
    apply (navigation_after_ghi inherited form w p Hghi) in Hp.
    unfold after_ghi in Hp.
    destruct (truthy v); cbn [negb] in Hp.
    + destruct (upload_request w) as [|[|] statusText [data|]];
        try (destruct Hp as [Heq | [Heq | [Heq | []]]]; discriminate);
        try (destruct Hp as [Heq | [Heq | []]]; discriminate).
      destruct (get_property inherited data "filename") as [t [f|e]].
      * destruct Hp as [Heq | [Heq | [Heq | [Heq | []]]]]; try discriminate.
        injection Heq as <-. cbn [date]. apply occurs_remove_dashes.
      * destruct Hp as [Heq | [Heq | [Heq | []]]]; discriminate.
    + destruct Hp as [Heq | []]. discriminate.
Qed.

Lemma X7_date_has_no_dash_witness :
  remove_dashes "20240101" = "20240101"
  /\ remove_dashes "2024-01-01" = "20240101".
Proof.
  split.
  - apply (proj1 (proj2 X7_date_has_no_dash)). reflexivity.
  - reflexivity.
Defined.

(** X8. In a run of the submit handler the upload is requested exactly
    when the value [fetchGHI] returned is truthy, and the failure alert
    is shown exactly when it is falsy - [null], [undefined], 0, NaN, the
    empty string or [false]: a run never does both, and never
    neither. *)
Theorem X8_alert_or_upload
        (inherited : value -> string -> value) (form : Form) (w : World)
        (events : list Event) (v : value) :
  fetchGHI inherited (latitude form) (longitude form)
           (remove_dashes (date_value form)) (ghi_request w)
  = (events, Normal v) ->
  let run := trace (submit inherited form w) in
  (In (Request "POST" "/upload") run <-> truthy v = true)
  /\ (In (Alert "Failed to retrieve GHI data. Please try again.") run
      <-> truthy v = false).
Proof.
  intros Hghi run.
  assert (Hrun : run = (PreventDefault :: events ++ Fulfilled_fetchGHI v
                          :: after_ghi inherited form v (upload_request w))%list).
  { unfold run, trace. rewrite (submit_run inherited form w Hghi).
    reflexivity. }
  destruct (fetchGHI_shape inherited (latitude form) (longitude form)
              (remove_dashes (date_value form)) (ghi_request w))
    as (rest & v' & Hshape & Hrest).
  rewrite Hghi in Hshape. injection Hshape as -> <-.
  assert (Hafter : forall e,
            (e = Request "POST" "/upload"
             \/ e = Alert "Failed to retrieve GHI data. Please try again.") ->
            In e run
            <-> In e (after_ghi inherited form v (upload_request w))).
  { intros e He. rewrite Hrun. split.
    - intros [Heq | [Heq | [Heq | Hin]]];
        try (destruct He as [-> | ->]; discriminate).
      apply in_app_or in Hin. destruct Hin as [Hin | [Heq | Hin]];
        [|destruct He as [-> | ->]; discriminate|exact Hin].
      destruct Hrest as [-> | (label & -> & _)].
      + destruct Hin.
      + destruct Hin as [Heq | []]. destruct He as [-> | ->]; discriminate.
    - intros Hin. right. right. right. apply in_or_app. right. right.
      exact Hin. }
  rewrite !Hafter by auto.
  unfold after_ghi. destruct (truthy v); cbn [negb]; split; split;
    try discriminate; try reflexivity.
  - intros _. left. reflexivity.
  - intros [Heq | [Heq | Hin]]; try discriminate.
    destruct (upload_request w) as [|[|] statusText [data|]].
    + destruct Hin as [Heq | []]. discriminate.
    + destruct (get_property inherited data "filename") as [t [f|e]].
      * destruct Hin as [Heq | [Heq | []]]; discriminate.
      * destruct Hin as [Heq | []]. discriminate.
    + destruct Hin as [Heq | []]. discriminate.
    + destruct Hin.
    + destruct Hin.
  - intros [Heq | []]. discriminate.
  - intros _. left. reflexivity.
Qed.

(** The API answers with an empty string for the day. *)
Lemma X8_alert_or_upload_witness :
  let api := Response true "OK" (Some (api_body "20240101" (VString ""))) in
  In (Alert "Failed to retrieve GHI data. Please try again.")
     (trace (submit own_only berlin (mkWorld api NetworkError))).
Proof.
  intros api.
  apply (@X8_alert_or_upload own_only berlin (mkWorld api NetworkError)
           [Request "GET" (apiUrl "52.5" "13.4" "20240101");
            Settled (apiUrl "52.5" "13.4" "20240101") api]
           (VString "") eq_refl).
  reflexivity.
Defined.

(* ================================================================== *)
(** * Further properties of the upload gateway *)
(* ================================================================== *)

Section Occurs.

Lemma occurs_append (c : ascii) (a b : string) :
  occurs c (a ++ b) = occurs c a || occurs c b.
Proof.
  induction a as [|x a IH]; [reflexivity|].
  cbn [append occurs]. rewrite IH, orb_assoc. reflexivity.
Qed.

(** A character that no index holds does not occur. *)
Lemma occurs_get (c : ascii) (s : string) :
  (forall k, String.get k s <> Some c) -> occurs c s = false.
Proof.
  induction s as [|a s IH]; intros Hget; [reflexivity|].
  cbn [occurs]. apply orb_false_iff. split.
  - destruct (Ascii.eqb_spec a c) as [->|]; [|reflexivity].
    exfalso. apply (Hget 0%nat). reflexivity.
  - apply IH. intros k. apply (Hget (S k)).
Qed.

End Occurs.

Section Extname.
Variable path : string.

Lemma get_in_range (i : nat) :
  (i < String.length path)%nat -> exists c, String.get i path = Some c.
Proof.
  revert i. induction path as [|a s IH]; intros i Hi; [cbn in Hi; lia|].
  destruct i as [|i]; cbn; [eexists; reflexivity|].
  apply IH. cbn in Hi. lia.
Qed.

Lemma extname_loop_inv : forall n s,
  (n <= String.length path)%nat ->
  extname_inv path n s ->
  exists m, extname_inv path m (extname_loop path n s).
Proof.
  induction n as [|i IH]; intros s Hn Hinv; [exists 0%nat; exact Hinv|].
  cbn [extname_loop].
  destruct (get_in_range (i := i)) as (code & Hcode); [lia|].
  rewrite Hcode.
  destruct (Ascii.eqb_spec code "/"%char) as [-> | Hslash].
  - (* a separator *)
    destruct (matchedSlash s) eqn:Hmatched; cbn [negb].
    + apply IH; [lia|].
      destruct Hinv as [Hnone | (e & _ & Hfalse & _)]; [|congruence].
      left. exact Hnone.
    + exists (S i).
      destruct Hinv as [(_ & _ & Htrue) | Hsome]; [congruence|].
      right. cbn [end_ startDot matchedSlash].
      rewrite Hmatched in Hsome. exact Hsome.
  - (* a character of the component *)
    apply IH; [lia|]. right.
    destruct Hinv as [(Hend & Hdot & _) | (e & Hend & Hmatched & Hlt & Hle & Hnoslash & Hdots)].
    + (* the first character read: it ends the component *)
      rewrite Hend, Z.eqb_refl.
      cbn [end_ startDot startPart matchedSlash preDotState].
      rewrite Hdot, Z.eqb_refl. cbn [negb].
      exists (S i).
      destruct (Ascii.eqb_spec code "."%char) as [-> | Hnodot];
        cbn [end_ startDot matchedSlash].
      * split; [lia|]. split; [reflexivity|]. split; [lia|]. split; [lia|].
        split.
        -- intros k Hk. assert (k = i) by lia. subst k. rewrite Hcode.
           intros Heq; discriminate Heq.
        -- right. exists i. split; [reflexivity|]. split; [lia|].
           split; [exact Hcode|]. intros k Hk. lia.
      * split; [lia|]. split; [reflexivity|]. split; [lia|]. split; [lia|].
        split.
        -- intros k Hk. assert (k = i) by lia. subst k. rewrite Hcode.
           intros Heq; injection Heq as Heq; congruence.
        -- left. split; [reflexivity|].
           intros k Hk. assert (k = i) by lia. subst k. rewrite Hcode.
           intros Heq; injection Heq as Heq; congruence.
    + (* a further character *)
      assert (Hend' : (end_ s =? -1)%Z = false) by (apply Z.eqb_neq; lia).
      rewrite Hend'.
      assert (Hnoslash' : forall k, (i <= k < e)%nat ->
                                    String.get k path <> Some "/"%char).
      { intros k Hk. destruct (Nat.eq_dec k i) as [-> | Hne].
        - rewrite Hcode. intros Heq; injection Heq as Heq; congruence.
        - apply Hnoslash. lia. }
      exists e.
      destruct Hdots as [(Hdot & Hnodots) | (d & Hdot & Hd & Hgetd & Hnodots)].
      * rewrite Hdot, Z.eqb_refl. cbn [negb].
        destruct (Ascii.eqb_spec code "."%char) as [-> | Hnodot];
          cbn [end_ startDot matchedSlash].
        -- repeat (split; [assumption || lia|]).
           right. exists i. split; [reflexivity|]. split; [lia|].
           split; [exact Hcode|]. intros k Hk. apply Hnodots. lia.
        -- repeat (split; [assumption || lia|]).
           left. split; [exact Hdot|].
           intros k Hk. destruct (Nat.eq_dec k i) as [-> | Hne].
           ++ rewrite Hcode. intros Heq; injection Heq as Heq; congruence.
           ++ apply Hnodots. lia.
      * assert (Hdot' : (startDot s =? -1)%Z = false)
          by (apply Z.eqb_neq; lia).
        rewrite Hdot'. cbn [negb].
        assert (Hkeep : forall s', end_ s' = end_ s ->
                  matchedSlash s' = matchedSlash s ->
                  startDot s' = startDot s ->
                  end_ s' = Z.of_nat e /\ matchedSlash s' = false
                  /\ (i < e)%nat /\ (e <= String.length path)%nat
                  /\ (forall k, (i <= k < e)%nat ->
                                String.get k path <> Some "/"%char)
                  /\ ((startDot s' = (-1)%Z
                       /\ forall k, (i <= k < e)%nat ->
                                    String.get k path <> Some "."%char)
                      \/ (exists d0 : nat,
                            startDot s' = Z.of_nat d0 /\ (i <= d0 < e)%nat
                            /\ String.get d0 path = Some "."%char
                            /\ forall k, (d0 < k < e)%nat ->
                                 String.get k path <> Some "."%char))).
        { intros s' He Hm Hs. rewrite He, Hm, Hs.
          repeat (split; [assumption || lia|]).
          right. exists d. repeat (split; [assumption || lia|]). exact Hnodots. }
        destruct (Ascii.eqb code "."%char);
          [destruct (preDotState s =? 1)%Z; cbn [negb]|];
          apply Hkeep; reflexivity.
Qed.

(** The extension [extname] returns, when it returns one: a substring
    that begins at a dot and holds no other dot and no slash. *)
Lemma extname_cases :
  extname path = ""
  \/ exists d e : nat,
       extname path = substring d (e - d) path
       /\ (d < e)%nat /\ (e <= String.length path)%nat
       /\ String.get d path = Some "."%char
       /\ forall k, (d < k < e)%nat ->
            String.get k path <> Some "."%char
            /\ String.get k path <> Some "/"%char.
Proof.
  unfold extname.
  destruct (extname_loop_inv (n := String.length path)
              (s := mkExtState (-1) 0 (-1) true 0)) as (m & Hinv).
  - lia.
  - left. repeat split.
  - set (s := extname_loop path (String.length path)
                (mkExtState (-1) 0 (-1) true 0)) in *.
    destruct Hinv as [(Hend & Hdot & _) | (e & Hend & _ & Hlt & Hle & Hnoslash & Hdots)].
    + rewrite Hdot. cbn. left. reflexivity.
    + destruct Hdots as [(Hdot & _) | (d & Hdot & Hd & Hgetd & Hnodots)].
      * rewrite Hdot. cbn. left. reflexivity.
      * match goal with
        | |- (if ?b then _ else _) = _ \/ _ => destruct b
        end; [left; reflexivity|].
        right. exists d, e. rewrite Hend, Hdot.
        rewrite <- Nat2Z.inj_sub by lia. rewrite !Nat2Z.id.
        split; [reflexivity|]. split; [lia|]. split; [lia|].
        split; [exact Hgetd|].
        intros k Hk. split; [apply Hnodots; lia|apply Hnoslash; lia].
Qed.

End Extname.

Section StoredNames.

Lemma substring_head (d m : nat) (s : string) (c : ascii) :
  (0 < m)%nat -> String.get d s = Some c ->
  exists rest, substring d m s = String c rest.
Proof.
  intros Hm Hget.
  pose proof (substring_correct1 s d m 0 Hm) as Hfirst.
  cbn [Nat.add] in Hfirst. rewrite Hget in Hfirst.
  destruct (substring d m s) as [|a rest]; [discriminate|].
  cbn in Hfirst. injection Hfirst as ->. eexists. reflexivity.
Qed.

(** The extension in terms of [occurs]: empty, or a dot followed by
    characters that are neither dots nor slashes. *)
Lemma extname_shape (path : string) :
  extname path = ""
  \/ exists rest, extname path = String "." rest
                  /\ occurs "." rest = false /\ occurs "/" rest = false.
Proof.
  destruct (extname_cases path)
    as [Hempty | (d & e & Hext & Hlt & Hle & Hdot & Hrest)];
    [left; exact Hempty|].
  right.
  destruct (@substring_head d (e - d) path "."%char) as (rest & Hsub);
    [lia|exact Hdot|].
  exists rest. rewrite Hext, Hsub. split; [reflexivity|].
  assert (Hget : forall k c, String.get k rest = Some c ->
                   String.get (S k + d) path = Some c /\ (d < S k + d < e)%nat).
  { intros k c Hk.
    assert (Hin : String.get (S k) (substring d (e - d) path) = Some c)
      by (rewrite Hsub; exact Hk).
    destruct (Nat.lt_ge_cases (S k) (e - d)) as [Hlt' | Hge].
    - rewrite substring_correct1 in Hin by exact Hlt'. split; [exact Hin|lia].
    - rewrite substring_correct2 in Hin by exact Hge. discriminate. }
  split; apply occurs_get; intros k Hk;
    destruct (Hget k _ Hk) as (Hpath & Hrange);
    destruct (Hrest _ Hrange) as (Hnodot & Hnoslash); contradiction.
Qed.

Lemma string_of_uint_digits (c : ascii) (d : Decimal.uint) :
  JS.is_digit c = false -> occurs c (NilEmpty.string_of_uint d) = false.
Proof.
  intros Hc.
  induction d as [|d IH|d IH|d IH|d IH|d IH|d IH|d IH|d IH|d IH|d IH];
    cbn [NilEmpty.string_of_uint occurs]; [reflexivity|..];
    rewrite IH, orb_false_r;
    match goal with
    | |- Ascii.eqb ?a c = false =>
        destruct (Ascii.eqb_spec a c) as [<-|]; [discriminate Hc|reflexivity]
    end.
Qed.

(** The decimal writing of a time holds digits and, in front of a
    negative one, a minus sign. *)
Lemma Number_toString_digits (c : ascii) (n : Z) :
  JS.is_digit c = false -> c <> "-"%char ->
  occurs c (Number_toString n) = false.
Proof.
  intros Hc Hminus.
  unfold Number_toString, NilZero.string_of_int, NilZero.string_of_uint.
  assert (Hzero : Ascii.eqb "0" c = false)
    by (destruct (Ascii.eqb_spec "0"%char c) as [<-|];
        [discriminate Hc|reflexivity]).
  destruct (Z.to_int n) as [d|d].
  - destruct d; try (apply string_of_uint_digits; exact Hc).
    cbn [occurs]. rewrite Hzero. reflexivity.
  - cbn [occurs].
    destruct (Ascii.eqb_spec "-"%char c) as [<-|]; [congruence|].
    cbn [orb].
    destruct d; try (apply string_of_uint_digits; exact Hc).
    cbn [occurs]. rewrite Hzero. reflexivity.
Qed.

Lemma Number_toString_injective (a b : Z) :
  Number_toString a = Number_toString b -> a = b.
Proof.
  unfold Number_toString. intros Heq.
  apply DecimalZ.to_int_inj.
  assert (Hproper : forall z, Z.to_int z <> Decimal.Pos Decimal.Nil
                              /\ Z.to_int z <> Decimal.Neg Decimal.Nil).
  { intros z. destruct z as [|p|p]; cbn; split; try discriminate;
      intros Hnil; injection Hnil as Hnil;
      exact (DecimalPos.Unsigned.to_uint_nonnil p Hnil). }
  apply (f_equal NilZero.int_of_string) in Heq.
  rewrite !NilZero.isi in Heq by apply Hproper.
  injection Heq as Heq. exact Heq.
Qed.

(** A stem without dots followed by nothing or by an extension that
    begins with a dot can be read back in one way only. *)
Lemma stem_extension_unique : forall a b x y : string,
  occurs "." a = false -> occurs "." b = false ->
  (x = "" \/ exists r, x = String "." r) ->
  (y = "" \/ exists r, y = String "." r) ->
  a ++ x = b ++ y -> a = b /\ x = y.
Proof.
  induction a as [|c a IH]; intros b x y Ha Hb Hx Hy Heq.
  - destruct b as [|c b]; [split; [reflexivity|exact Heq]|].
    cbn in Heq. cbn [occurs] in Hb. apply orb_false_iff in Hb.
    destruct Hb as (Hc & _).
    destruct Hx as [-> | (r & ->)]; [discriminate|].
    injection Heq as <- _. discriminate Hc.
  - destruct b as [|c' b].
    + cbn in Heq. cbn [occurs] in Ha. apply orb_false_iff in Ha.
      destruct Ha as (Hc & _).
      destruct Hy as [-> | (r & ->)]; [discriminate|].
      injection Heq as -> _. discriminate Hc.
    + cbn in Heq. injection Heq as <- Heq.
      cbn [occurs] in Ha, Hb.
      apply orb_false_iff in Ha. apply orb_false_iff in Hb.
      destruct (IH b x y (proj2 Ha) (proj2 Hb) Hx Hy Heq) as (-> & ->).
      split; reflexivity.
Qed.

Lemma extname_empty_or_dot (name : string) :
  extname name = "" \/ exists r, extname name = String "." r.
Proof.
  destruct (extname_shape name) as [H | (r & H & _)];
    [left; exact H | right; exists r; exact H].
Qed.

End StoredNames.

(** X9. [path.extname] returns either the empty string or a dot
    followed by characters none of which is a dot or a slash: it never
    returns a piece of a directory name, and never more than the last
    extension. *)
Theorem X9_extname_is_one_extension (path : string) :
  extname path = ""
  \/ exists rest, extname path = String "." rest
                  /\ occurs "." rest = false /\ occurs "/" rest = false.
Proof.
  destruct (extname_shape path) as [Hempty | (rest & Hext & Hdot & Hslash)].
  - left. exact Hempty.
  - right. exists rest. repeat split; assumption.
Qed.

(** X10. Whatever the original name of the uploaded file - a name with
    slashes or with dots going up the tree included - the name the
    server stores it under holds no slash, and begins with the digits of
    the time (or a minus sign): it cannot leave the uploads directory,
    and it is neither "." nor "..".  So it is for the file of every
    request that [upload.single] accepts. *)
Theorem X10_stored_name_stays_in_uploads (now : Z) (name : string) :
  occurs "/" (storage_filename now name) = false
  /\ storage_filename now name <> "."
  /\ storage_filename now name <> ".."
  /\ forall l file,
       upload_single "cityModel" (mkRequest now l) = inr (Some file) ->
       occurs "/" (filename file) = false
       /\ filename file <> "." /\ filename file <> "..".
Proof.
  assert (Hslash : forall n, occurs "/" (storage_filename now n) = false).
  { intros n. unfold storage_filename. rewrite occurs_append.
    rewrite Number_toString_digits by (reflexivity || discriminate).
    cbn [orb].
    destruct (extname_shape n) as [-> | (rest & -> & _ & Hrest)];
      [reflexivity|].
    cbn [occurs]. exact Hrest. }
  assert (Hfirst : forall n s, storage_filename now n = String "." s -> False).
  { intros n s Hs.
    assert (Hdigits : occurs "." (Number_toString now) = false)
      by (apply Number_toString_digits; [reflexivity|discriminate]).
    unfold storage_filename in Hs.
    destruct (Number_toString now) as [|c t] eqn:Hn.
    - exact (Number_toString_nonempty now Hn).
    - cbn in Hs. injection Hs as -> _.
      cbn [occurs] in Hdigits. discriminate Hdigits. }
  split; [apply Hslash|]. split; [|split].
  - intros Heq. exact (Hfirst _ _ Heq).
  - intros Heq. exact (Hfirst _ _ Heq).
  - intros l file. unfold upload_single. cbn [Server.now parts].
    rewrite single_loop_named_files.
    destruct (UploadSpec.named_files l)
      as [|[field base] [|[field' base'] others]]; try discriminate.
    + destruct (String.eqb field "cityModel"); [|discriminate].
      intros Hfile. injection Hfile as <-. cbn [filename].
      split; [apply Hslash|]. split; intros Heq; exact (Hfirst _ _ Heq).
    + destruct (String.eqb field "cityModel"); discriminate.
Qed.

(** A name that climbs out of the directory: only the extension of its
    last component is kept. *)
Lemma X10_stored_name_stays_in_uploads_witness :
  upload_single "cityModel"
    (mkRequest 1700000000000 [FilePart "cityModel" "../../index.html"])
  = inr (Some (mkFile "index.html" "1700000000000.html"))
  /\ occurs "/" "1700000000000.html" = false.
Proof.
  split; [reflexivity|].
  apply (proj2 (proj2 (proj2 (X10_stored_name_stays_in_uploads
                                1700000000000 "../../index.html")))
           [FilePart "cityModel" "../../index.html"]
           (mkFile "index.html" "1700000000000.html")).
  reflexivity.
Defined.

(** X11. Two uploads are stored under the same name exactly when they
    are handled in the same millisecond and their original names have
    the same extension: uploads at different times never collide, and
    two files with one extension handled in the same millisecond
    overwrite each other. *)
Theorem X11_stored_names_collide_exactly_when
        (now1 now2 : Z) (name1 name2 : string) :
  storage_filename now1 name1 = storage_filename now2 name2
  <-> now1 = now2 /\ extname name1 = extname name2.
Proof.
  unfold storage_filename. split.
  - intros Heq.
    destruct (@stem_extension_unique
                (Number_toString now1) (Number_toString now2)
                (extname name1) (extname name2)) as (Hstem & Hext).
    + apply Number_toString_digits; [reflexivity|discriminate].
    + apply Number_toString_digits; [reflexivity|discriminate].
    + apply extname_empty_or_dot.
    + apply extname_empty_or_dot.
    + exact Heq.
    + split; [exact (Number_toString_injective _ _ Hstem)|exact Hext].
  - intros (-> & ->). reflexivity.
Qed.

(* ================================================================== *)
(** * Further properties of the estimator *)
(* ================================================================== *)

Section AreaProperties.
Local Open Scope R_scope.

Lemma triangle_area_nonneg (v1 v2 v3 : Vector3 R) : 0 <= getArea v1 v2 v3.
Proof.
  unfold getArea, length. cbn [mul Math_sqrt lit_0_5 Number_R].
  apply Rmult_le_pos; [apply sqrt_pos|lra].
Qed.

Lemma area_loop_nonneg : forall fuel (positions : list R) i area,
  0 <= area -> 0 <= area_loop fuel positions i area.
Proof.
  induction fuel as [|fuel IH]; intros positions i area Harea; [exact Harea|].
  cbn [area_loop]. destruct (i <? List.length positions)%nat; [|exact Harea].
  apply IH. cbn [add Number_R].
  apply Rplus_le_le_0_compat; [exact Harea|apply triangle_area_nonneg].
Qed.

Lemma getArea_scale (s : R) (a b c : option R) (a' b' c' : option R)
      (a'' b'' c'' : option R) :
  let sc := option_map (fun v => s * v) in
  getArea (newVector3 (sc a) (sc b) (sc c))
          (newVector3 (sc a') (sc b') (sc c'))
          (newVector3 (sc a'') (sc b'') (sc c''))
  = s * s * getArea (newVector3 a b c) (newVector3 a' b' c')
                    (newVector3 a'' b'' c'').
Proof.
  intros sc.
  assert (Hd : forall o, default0 (sc o) = s * default0 o).
  { intros [v|]; cbn; [reflexivity|ring]. }
  unfold getArea, length, cross, subVectors, newVector3.
  cbn [x y z]. rewrite !Hd.
  cbn [add sub mul Math_sqrt lit_0_5 Number_R].
  match goal with
  | |- sqrt ?l * _ = _ * _ * (sqrt ?r * _) =>
      replace l with ((s * s) * (s * s) * r) by ring
  end.
  rewrite sqrt_mult_alt by nra.
  rewrite sqrt_square by nra. ring.
Qed.

Lemma area_loop_scale (s : R) : forall fuel (positions : list R) i area,
  area_loop fuel (scale s positions) i (s * s * area)
  = s * s * area_loop fuel positions i area.
Proof.
  induction fuel as [|fuel IH]; intros positions i area; [reflexivity|].
  cbn [area_loop]. unfold scale at 1. rewrite length_map.
  destruct (i <? List.length positions)%nat; [|reflexivity].
  unfold scale. rewrite !nth_error_map.
  rewrite getArea_scale. fold (scale s positions).
  cbn [add Number_R]. rewrite <- Rmult_plus_distr_l. apply IH.
Qed.

Lemma triangle_area_translate (t v1 v2 v3 : Vector3 R) :
  let move v := mkVector3 (x v + x t) (y v + y t) (z v + z t) in
  AreaSpec.triangle_area (move v1) (move v2) (move v3)
  = AreaSpec.triangle_area v1 v2 v3.
Proof.
  intros move. unfold AreaSpec.triangle_area, cross, subVectors, move.
  cbn. f_equal. f_equal. ring.
Qed.

Lemma total_area_translate (t : Vector3 R) : forall k buffer,
  List.length buffer = (9 * k)%nat ->
  AreaSpec.total_area (translate t buffer) = AreaSpec.total_area buffer.
Proof.
  induction k as [|k IH]; intros buffer Hlen.
  - destruct buffer; [reflexivity|discriminate].
  - destruct buffer as [|x1 [|y1 [|z1 [|x2 [|y2 [|z2 [|x3 [|y3 [|z3 rest]]]]]]]]];
      try (cbn in Hlen; lia).
    cbn [translate]. unfold AreaSpec.total_area.
    cbn [AreaSpec.triangles fold_right].
    fold (AreaSpec.total_area (translate t rest)).
    fold (AreaSpec.total_area rest).
    rewrite IH by (cbn in Hlen; lia).
    f_equal.
    apply (triangle_area_translate t (mkVector3 x1 y1 z1)
             (mkVector3 x2 y2 z2) (mkVector3 x3 y3 z3)).
Qed.

Lemma translate_length (t : Vector3 R) : forall k buffer,
  List.length buffer = (9 * k)%nat ->
  List.length (translate t buffer) = List.length buffer.
Proof.
  induction k as [|k IH]; intros buffer Hlen.
  - destruct buffer; [reflexivity|discriminate].
  - destruct buffer as [|x1 [|y1 [|z1 [|x2 [|y2 [|z2 [|x3 [|y3 [|z3 rest]]]]]]]]];
      try (cbn in Hlen; lia).
    cbn [translate List.length]. rewrite IH by (cbn in Hlen; lia).
    reflexivity.
Qed.

Lemma total_area_append : forall k first second,
  List.length first = (9 * k)%nat ->
  AreaSpec.total_area (first ++ second)
  = AreaSpec.total_area first + AreaSpec.total_area second.
Proof.
  induction k as [|k IH]; intros first second Hlen.
  - destruct first; [|discriminate]. cbn [app].
    replace (AreaSpec.total_area []) with 0 by reflexivity. ring.
  - destruct first as [|x1 [|y1 [|z1 [|x2 [|y2 [|z2 [|x3 [|y3 [|z3 rest]]]]]]]]];
      try (cbn in Hlen; lia).
    unfold AreaSpec.total_area.
    cbn [app AreaSpec.triangles fold_right].
    fold (AreaSpec.total_area (rest ++ second)).
    fold (AreaSpec.total_area rest).
    rewrite (IH rest second) by (cbn in Hlen; lia).
    unfold AreaSpec.total_area. ring.
Qed.

End AreaProperties.

(** X12. Over the reals, the area [calculateSurfaceArea] returns is
    never negative, whatever the buffer (a length that is no multiple of
    9 included). *)
Theorem X12_surface_area_not_negative (positions : list R) :
  (0 <= calculateSurfaceArea positions)%R.
Proof.
  unfold calculateSurfaceArea. apply area_loop_nonneg.
  cbn [of_Z Number_R]. lra.
Qed.

(** X13. Over the reals, scaling every coordinate of a buffer by [s]
    multiplies the area returned by [s * s], whatever the buffer: a
    model given in millimetres has 1000000 times the area of the same
    model in metres. *)
Theorem X13_surface_area_scales_with_the_square (s : R) (positions : list R) :
  calculateSurfaceArea (scale s positions)
  = (s * s * calculateSurfaceArea positions)%R.
Proof.
  unfold calculateSurfaceArea.
  replace (List.length (scale s positions)) with (List.length positions)
    by (unfold scale; rewrite length_map; reflexivity).
  rewrite <- area_loop_scale. f_equal. cbn [of_Z Number_R]. ring.
Qed.

(** X14. Over the reals, for a buffer whose length is a multiple of 9,
    moving every vertex by the same vector leaves the area returned
    unchanged. *)
Theorem X14_surface_area_unchanged_by_translation
        (t : Vector3 R) (positions : list R) :
  (List.length positions mod 9 = 0)%nat ->
  calculateSurfaceArea (translate t positions)
  = calculateSurfaceArea positions.
Proof.
  intros Hmod.
  pose proof (Nat.div_mod_eq (List.length positions) 9) as Hdm.
  assert (Hlen : List.length positions = (9 * (List.length positions / 9))%nat)
    by lia.
  rewrite !calculateSurfaceArea_total_area.
  - exact (total_area_translate t _ _ Hlen).
  - exact Hmod.
  - rewrite (translate_length t _ _ Hlen). exact Hmod.
Qed.

Lemma X14_surface_area_unchanged_by_translation_witness :
  calculateSurfaceArea
    (translate (mkVector3 10 20 30) [0; 0; 0; 3; 0; 0; 0; 3; 0])%R
  = calculateSurfaceArea [0; 0; 0; 3; 0; 0; 0; 3; 0]%R.
Proof.
  apply X14_surface_area_unchanged_by_translation. reflexivity.
Defined.

(** X15. Over the reals, the area of two buffers put end to end, each
    of a length that is a multiple of 9, is the sum of their areas:
    merging geometries adds their areas. *)
Theorem X15_surface_area_of_merged_buffers (first second : list R) :
  (List.length first mod 9 = 0)%nat ->
  (List.length second mod 9 = 0)%nat ->
  calculateSurfaceArea (first ++ second)%list
  = (calculateSurfaceArea first + calculateSurfaceArea second)%R.
Proof.
  intros Hfirst Hsecond.
  pose proof (Nat.div_mod_eq (List.length first) 9) as Hdm.
  rewrite !calculateSurfaceArea_total_area; try assumption.
  - apply total_area_append with (k := (List.length first / 9)%nat). lia.
  - rewrite length_app.
    rewrite Nat.Div0.add_mod, Hfirst, Hsecond. reflexivity.
Qed.

Lemma X15_surface_area_of_merged_buffers_witness :
  calculateSurfaceArea
    ([0; 0; 0; 3; 0; 0; 0; 3; 0]%R ++ [0; 0; 0; 0; 0; 5; 2; 0; 5]%R)%list
  = (calculateSurfaceArea [0; 0; 0; 3; 0; 0; 0; 3; 0]
     + calculateSurfaceArea [0; 0; 0; 0; 0; 5; 2; 0; 5])%R.
Proof.
  apply X15_surface_area_of_merged_buffers; reflexivity.
Defined.

Section Incidence.
Local Open Scope R_scope.

Lemma Real_eqb_refl (a : R) : Real.eqb a a = true.
Proof. unfold Real.eqb. destruct (Req_dec_T a a); tauto. Qed.

(** A normalized vector has squared length 1, or 0 when the vector is
    the zero vector (which [normalize] leaves as it is). *)
Lemma normalize_dot_self (a : Vector3 R) :
  dot (normalize a) (normalize a) = 1
  \/ (dot (normalize a) (normalize a) = 0 /\ normalize a = mkVector3 0 0 0).
Proof.
  destruct a as [ax ay az].
  unfold normalize, divideScalar, multiplyScalar, length, dot, or_else.
  cbn [x y z of_Z add mul div Math_sqrt ToBoolean Number_R].
  set (q := ax * ax + ay * ay + az * az).
  assert (Hq : 0 <= q) by (unfold q; nra).
  unfold Real.truthy.
  destruct (Req_dec_T (sqrt q) 0) as [Hzero | Hnonzero].
  - right. rewrite Hzero, Real_eqb_refl. cbn [negb x y z].
    apply sqrt_eq_0 in Hzero; [|exact Hq].
    assert (ax = 0 /\ ay = 0 /\ az = 0) as (-> & -> & ->)
      by (unfold q in Hzero; repeat split; nra).
    split; [field|]. f_equal; field.
  - left. rewrite (Real_eqb_false Hnonzero). cbn [negb x y z].
    pose proof (sqrt_sqrt q Hq) as Hsq.
    replace (ax * (1 / sqrt q) * (ax * (1 / sqrt q))
             + ay * (1 / sqrt q) * (ay * (1 / sqrt q))
             + az * (1 / sqrt q) * (az * (1 / sqrt q)))
      with (q / (sqrt q * sqrt q)) by (unfold q; field; exact Hnonzero).
    rewrite Hsq. field. rewrite <- Hsq. nra.
Qed.

(** Cauchy-Schwarz for vectors of squared length at most 1. *)
Lemma dot_le_1 (n s : Vector3 R) :
  dot n n <= 1 -> dot s s <= 1 -> dot n s <= 1.
Proof.
  destruct n as [nx ny nz], s as [sx sy sz].
  unfold dot. cbn [x y z add mul Number_R]. intros Hn Hs.
  assert (Hlagrange :
    (nx * sx + ny * sy + nz * sz) * (nx * sx + ny * sy + nz * sz)
    = (nx * nx + ny * ny + nz * nz) * (sx * sx + sy * sy + sz * sz)
      - ((ny * sz - nz * sy) * (ny * sz - nz * sy)
         + (nz * sx - nx * sz) * (nz * sx - nx * sz)
         + (nx * sy - ny * sx) * (nx * sy - ny * sx))) by ring.
  set (A := nx * nx + ny * ny + nz * nz) in *.
  set (B := sx * sx + sy * sy + sz * sz) in *.
  set (D := nx * sx + ny * sy + nz * sz) in *.
  assert (HA : 0 <= A).
  { unfold A. pose proof (Rle_0_sqr nx). pose proof (Rle_0_sqr ny).
    pose proof (Rle_0_sqr nz). unfold Rsqr in *. lra. }
  assert (HB : 0 <= B).
  { unfold B. pose proof (Rle_0_sqr sx). pose proof (Rle_0_sqr sy).
    pose proof (Rle_0_sqr sz). unfold Rsqr in *. lra. }
  assert (HAB : A * B <= 1).
  { replace 1 with (1 * 1) by ring.
    apply Rmult_le_compat; assumption. }
  assert (Hcross : 0 <= (ny * sz - nz * sy) * (ny * sz - nz * sy)
         + (nz * sx - nx * sz) * (nz * sx - nx * sz)
         + (nx * sy - ny * sx) * (nx * sy - ny * sx)).
  { pose proof (Rle_0_sqr (ny * sz - nz * sy)).
    pose proof (Rle_0_sqr (nz * sx - nx * sz)).
    pose proof (Rle_0_sqr (nx * sy - ny * sx)). unfold Rsqr in *. lra. }
  assert (Hsquare : D * D <= 1) by lra.
  destruct (Rle_or_lt D 1) as [Hle | Hgt]; [exact Hle|].
  exfalso. assert (1 * 1 < D * D) by (apply Rmult_le_0_lt_compat; lra).
  lra.
Qed.

Lemma angle_bounds (sun : Vector3 R) (child : Object3D R) :
  0 <= angle sun child <= 1.
Proof.
  unfold angle. cbn [Math_max of_Z Number_R].
  split; [apply Rmax_l|].
  apply Rmax_lub; [lra|].
  apply dot_le_1.
  - destruct (normalize_dot_self
                (applyMatrix3 (mkVector3 0 1 0)
                              (getNormalMatrix (matrixWorld child))))
      as [H | (H & _)]; cbn [of_Z Number_R]; rewrite H; lra.
  - destruct (normalize_dot_self sun) as [H | (H & _)]; rewrite H; lra.
Qed.

Lemma angle_singular (sun : Vector3 R) (child : Object3D R) :
  NormalMatrixSpec.determinant3 (setFromMatrix4 (matrixWorld child)) = 0 ->
  angle sun child = 0.
Proof.
  intros Hdet. unfold angle, getNormalMatrix, invert. cbv zeta.
  change (m0 (setFromMatrix4 (matrixWorld child))
            * (m8 (setFromMatrix4 (matrixWorld child)) * m4 (setFromMatrix4 (matrixWorld child))
               - m5 (setFromMatrix4 (matrixWorld child)) * m7 (setFromMatrix4 (matrixWorld child)))
          + m1 (setFromMatrix4 (matrixWorld child))
            * (m5 (setFromMatrix4 (matrixWorld child)) * m6 (setFromMatrix4 (matrixWorld child))
               - m8 (setFromMatrix4 (matrixWorld child)) * m3 (setFromMatrix4 (matrixWorld child)))
          + m2 (setFromMatrix4 (matrixWorld child))
            * (m7 (setFromMatrix4 (matrixWorld child)) * m3 (setFromMatrix4 (matrixWorld child))
               - m4 (setFromMatrix4 (matrixWorld child)) * m6 (setFromMatrix4 (matrixWorld child))))%js
    with (NormalMatrixSpec.determinant3 (setFromMatrix4 (matrixWorld child))).
  rewrite Hdet.
  change (strict_eq 0 (of_Z 0)) with (Real.eqb 0 0).
  rewrite Real_eqb_refl.
  unfold set, transpose, applyMatrix3. cbn [m0 m1 m2 m3 m4 m5 m6 m7 m8 x y z].
  cbn [of_Z add mul Number_R].
  replace (mkVector3 (0 * 0 + 0 * 1 + 0 * 0) (0 * 0 + 0 * 1 + 0 * 0)
                     (0 * 0 + 0 * 1 + 0 * 0))
    with (mkVector3 0 0 0) by (f_equal; ring).
  destruct (normalize_dot_self (mkVector3 0 0 0)) as [Hone | (_ & Hzero)].
  - exfalso. revert Hone.
    unfold normalize, divideScalar, multiplyScalar, dot.
    cbn [x y z add mul Number_R]. intros Hone. nra.
  - rewrite Hzero. unfold dot. cbn [x y z add mul Math_max Number_R].
    match goal with
    | |- Rmax 0 ?e = 0 => replace e with 0 by ring
    end.
    apply Rmax_left. lra.
Qed.

End Incidence.

Section Totals.
Local Open Scope R_scope.
Variable ghi : R.
Variable sun : Vector3 R.

Lemma callback_additive (o : Object3D R) (total : R) :
  callback ghi sun o total = total + callback ghi sun o 0.
Proof.
  unfold callback.
  destruct (isMesh o); [|ring].
  destruct (geometry o) as [g|]; [|ring].
  destruct (position g); [|ring].
  cbn [add Number_R]. ring.
Qed.

Lemma fold_left_callback (l : list (Object3D R)) : forall total,
  fold_left (fun t c => callback ghi sun c t) l total
  = total + sum (map (fun c => callback ghi sun c 0) l).
Proof.
  induction l as [|c l IH]; intros total; cbn [fold_left map].
  - unfold sum. cbn [fold_right]. ring.
  - rewrite IH, callback_additive.
    change (sum (callback ghi sun c 0
                   :: map (fun c => callback ghi sun c 0) l))
      with (callback ghi sun c 0
            + sum (map (fun c => callback ghi sun c 0) l)).
    ring.
Qed.

(** The total of a subtree is the sum of what each object visited adds
    to a total of 0. *)
Lemma scene_total_sum (o : Object3D R) :
  scene_total ghi sun o
  = sum (map (fun c => callback ghi sun c 0) (descendants o)).
Proof.
  unfold scene_total. rewrite traverse_descendants, fold_left_callback.
  cbn [of_Z Number_R]. ring.
Qed.

Lemma traverse_additive (o : Object3D R) (total : R) :
  traverse (callback ghi sun) o total = total + scene_total ghi sun o.
Proof.
  rewrite scene_total_sum, traverse_descendants. apply fold_left_callback.
Qed.

Lemma sum_app (a b : list R) : sum (a ++ b) = sum a + sum b.
Proof.
  induction a as [|v a IH]; cbn [app].
  - unfold sum at 2. cbn [fold_right]. ring.
  - change (sum (v :: a ++ b)) with (v + sum (a ++ b)).
    change (sum (v :: a)) with (v + sum a). rewrite IH. ring.
Qed.

End Totals.

Lemma callback_linear (ghi : R) (sun : Vector3 R) (o : Object3D R) :
  (callback ghi sun o 0 = ghi * callback 1 sun o 0)%R.
Proof.
  unfold callback, energy.
  destruct (isMesh o); [|ring].
  destruct (geometry o) as [g|]; [|ring].
  destruct (position g); [|ring].
  cbn [add mul Number_R]. ring.
Qed.

Lemma callback_nonneg (ghi : R) (sun : Vector3 R) (o : Object3D R) :
  (0 <= ghi -> 0 <= callback ghi sun o 0)%R.
Proof.
  intros Hghi. unfold callback, energy.
  destruct (isMesh o); [|lra].
  destruct (geometry o) as [g|]; [|lra].
  destruct (position g) as [positions|]; [|lra].
  cbn [add mul lit_0_15 Number_R].
  assert (Harea : (0 <= calculateSurfaceArea positions)%R)
    by (apply area_loop_nonneg; cbn [of_Z Number_R]; lra).
  pose proof (angle_bounds sun o) as (Hangle & _).
  assert (0 <= ghi * calculateSurfaceArea positions)%R
    by (apply Rmult_le_pos; assumption).
  assert (0 <= ghi * calculateSurfaceArea positions * angle sun o)%R
    by (apply Rmult_le_pos; assumption).
  assert (0 <= ghi * calculateSurfaceArea positions * angle sun o * 0.15)%R
    by (apply Rmult_le_pos; [assumption|lra]).
  lra.
Qed.

Section TotalsLinear.
Local Open Scope R_scope.

Lemma sum_cons (v : R) (l : list R) : sum (v :: l) = v + sum l.
Proof. reflexivity. Qed.

Lemma scene_total_linear (ghi : R) (sun : Vector3 R) (o : Object3D R) :
  scene_total ghi sun o = ghi * scene_total 1 sun o.
Proof.
  rewrite !scene_total_sum.
  induction (descendants o) as [|c l IH]; cbn [map].
  - unfold sum. cbn [fold_right]. ring.
  - rewrite !sum_cons, IH, (callback_linear ghi). ring.
Qed.

Lemma scene_total_nonneg (ghi : R) (sun : Vector3 R) (o : Object3D R) :
  0 <= ghi -> 0 <= scene_total ghi sun o.
Proof.
  intros Hghi. rewrite scene_total_sum.
  induction (descendants o) as [|c l IH]; cbn [map].
  - unfold sum. cbn [fold_right]. lra.
  - rewrite sum_cons. pose proof (@callback_nonneg ghi sun c Hghi). lra.
Qed.

Lemma fold_left_children (ghi : R) (sun : Vector3 R)
      (l : list (Object3D R)) : forall start,
  fold_left (fun s' child => traverse (callback ghi sun) child s') l start
  = start + sum (map (scene_total ghi sun) l).
Proof.
  induction l as [|c l IH]; intros start; cbn [fold_left map].
  - unfold sum. cbn [fold_right]. ring.
  - rewrite IH, traverse_additive, sum_cons. ring.
Qed.

End TotalsLinear.


(** X16. Over the reals, the incidence factor of a mesh lies between 0
    and 1, whatever its world matrix and wherever the light is; so with
    a GHI that is not negative a mesh adds at least 0 and at most
    GHI x area x 0.15 to the total. *)
Theorem X16_incidence_between_0_and_1
        (sun : Vector3 R) (child : Object3D R) :
  (0 <= angle sun child <= 1
   /\ forall ghi positions,
        0 <= ghi ->
        0 <= energy ghi sun child positions
        <= ghi * calculateSurfaceArea positions * 0.15)%R.
Proof.
  pose proof (angle_bounds sun child) as (Hlow & Hhigh).
  split; [split; assumption|].
  intros ghi positions Hghi. unfold energy.
  cbn [mul lit_0_15 Number_R].
  assert (Harea : (0 <= calculateSurfaceArea positions)%R)
    by (apply area_loop_nonneg; cbn [of_Z Number_R]; lra).
  assert (Hga : (0 <= ghi * calculateSurfaceArea positions)%R)
    by (apply Rmult_le_pos; assumption).
  split.
  - apply Rmult_le_pos; [apply Rmult_le_pos; assumption|lra].
  - apply Rmult_le_compat_r; [lra|].
    rewrite <- (Rmult_1_r (ghi * calculateSurfaceArea positions)) at 2.
    apply Rmult_le_compat_l; assumption.
Qed.

Lemma X16_incidence_between_0_and_1_witness :
  (0 <= energy 5 zenith (@roof R _) roof_positions
   <= 5 * calculateSurfaceArea (@roof_positions R _) * 0.15)%R.
Proof.
  apply (proj2 (X16_incidence_between_0_and_1 zenith (@roof R _))).
  lra.
Defined.

(** X17. Over the reals, a mesh whose world matrix has a 3x3 block of
    determinant 0 (a mesh flattened by a zero scale, say) has incidence
    factor 0 and adds nothing to the total, whatever its area. *)
Theorem X17_flattened_mesh_adds_nothing
        (ghi : R) (sun : Vector3 R) (child : Object3D R)
        (positions : list R) (total : R) :
  NormalMatrixSpec.determinant3 (setFromMatrix4 (matrixWorld child)) = 0%R ->
  angle sun child = 0%R
  /\ energy ghi sun child positions = 0%R
  /\ callback ghi sun child total = total.
Proof.
  intros Hdet. pose proof (angle_singular sun child Hdet) as Hangle.
  assert (Henergy : energy ghi sun child positions = 0%R).
  { unfold energy. rewrite Hangle. cbn [mul Number_R]. ring. }
  split; [exact Hangle|]. split; [exact Henergy|].
  rewrite callback_additive. unfold callback.
  destruct (isMesh child); [|ring].
  destruct (geometry child) as [g|]; [|ring].
  destruct (position g) as [ps|]; [|ring].
  unfold energy. rewrite Hangle. cbn [add mul Number_R]. ring.
Qed.

(** The roof scaled by 0 along the vertical axis. *)
Lemma X17_flattened_mesh_adds_nothing_witness :
  let flat := mkObject3D true (Some (mkBufferGeometry (Some roof_positions)))
                (mkMatrix4 1 0 0 0  0 0 0 0  0 0 1 0  0 0 0 1)%R [] in
  callback 5%R zenith flat 3%R = 3%R.
Proof.
  intros flat.
  apply (@X17_flattened_mesh_adds_nothing 5%R zenith flat roof_positions 3%R).
  unfold NormalMatrixSpec.determinant3, flat. cbn. ring.
Defined.

(** X18. Over the reals, the total the overlay shows is the GHI value
    times a quantity that depends on the scene and the light only (the
    total at GHI 1): it grows in proportion to GHI, it is not negative
    when GHI is not, and a negative [ghi] parameter, which nothing
    rejects, gives a total that is not positive. *)
Theorem X18_total_is_proportional_to_ghi
        (parseFloat : string -> R) (this : BIPVViewer R) (scene : Object3D R) :
  cityModel this = Some scene ->
  let ghi := ghi_of parseFloat (params this) in
  let unit_total := scene_total 1 (sunLight_position this) scene in
  (calculateBIPVPotential parseFloat this
   = Some (mkOverlay ghi (ghi * unit_total))
   /\ 0 <= unit_total
   /\ (0 <= ghi -> 0 <= ghi * unit_total)
   /\ (ghi <= 0 -> ghi * unit_total <= 0))%R.
Proof.
  intros Hscene ghi unit_total.
  assert (Hunit : (0 <= unit_total)%R)
    by (apply scene_total_nonneg; lra).
  split; [|split; [exact Hunit|split]].
  - unfold calculateBIPVPotential. rewrite Hscene. fold ghi.
    f_equal. f_equal.
    change (traverse (callback ghi (sunLight_position this)) scene (of_Z 0))
      with (scene_total ghi (sunLight_position this) scene).
    apply scene_total_linear.
  - intros Hghi. apply Rmult_le_pos; assumption.
  - intros Hghi. replace 0%R with (0 * unit_total)%R by ring.
    apply Rmult_le_compat_r; assumption.
Qed.

(** A viewer over the reals on the roof under the light straight above,
    whose [ghi] parameter reads as -3: the total shown is -3 times the
    total at GHI 1. *)
Lemma X18_total_is_proportional_to_ghi_witness :
  let this := mkBIPVViewer [("ghi", "-3")] zenith (Some (@roof R _)) in
  calculateBIPVPotential (fun _ => (-3)%R) this
  = Some (mkOverlay (-3)%R (-3 * scene_total 1 zenith roof)%R).
Proof.
  intros this.
  pose proof (@X18_total_is_proportional_to_ghi (fun _ => (-3)%R) this roof
                eq_refl) as (Hshown & _).
  assert (Hghi : ghi_of (fun _ : string => (-3)%R) (params this) = (-3)%R).
  { unfold ghi_of, or_else. cbn [ToBoolean Number_R]. unfold Real.truthy.
    rewrite Real_eqb_false by lra. reflexivity. }
  rewrite Hghi in Hshown. exact Hshown.
Defined.

(** X19. Over the reals, the total of a node of the scene graph is what
    the node itself adds plus the sum of the totals of its children; so
    the total does not depend on the order of the children. *)
Theorem X19_total_of_a_node
        (ghi : R) (sun : Vector3 R) (m : bool)
        (g : option (BufferGeometry R)) (w : Matrix4 R)
        (cs : list (Object3D R)) :
  (scene_total ghi sun (mkObject3D m g w cs)
   = callback ghi sun (mkObject3D m g w cs) 0
     + sum (map (scene_total ghi sun) cs))%R
  /\ forall cs', Permutation cs cs' ->
       scene_total ghi sun (mkObject3D m g w cs')
       = scene_total ghi sun (mkObject3D m g w cs).
Proof.
  assert (Hnode : forall l,
    (scene_total ghi sun (mkObject3D m g w l)
     = callback ghi sun (mkObject3D m g w l) 0
       + sum (map (scene_total ghi sun) l))%R).
  { intros l. unfold scene_total at 1. cbn [traverse children].
    apply fold_left_children. }
  split; [apply Hnode|].
  intros cs' Hperm. rewrite !Hnode.
  assert (Hown : callback ghi sun (mkObject3D m g w cs') 0%R
                 = callback ghi sun (mkObject3D m g w cs) 0%R) by reflexivity.
  rewrite Hown. f_equal. clear Hown Hnode.
  induction Hperm as [|c l l' _ IH|c c' l|l l' l'' _ IH1 _ IH2]; cbn [map].
  - reflexivity.
  - rewrite !sum_cons, IH. reflexivity.
  - rewrite !sum_cons. ring.
  - rewrite IH2, IH1. reflexivity.
Qed.

(** A group holding the roof and an empty group, in either order. *)
Lemma X19_total_of_a_node_witness :
  scene_total 5%R zenith
    (mkObject3D false None identity4 [@roof R _; empty_group])
  = scene_total 5%R zenith
      (mkObject3D false None identity4 [empty_group; @roof R _]).
Proof.
  apply (proj2 (X19_total_of_a_node 5%R zenith false None identity4
                  [empty_group; @roof R _])).
  apply perm_swap.
Defined.

(** X20. At binary64 too the incidence factor is never below 0: it is
    NaN (when a coordinate of the normal or of the light is), or a
    number that is at least 0. *)
Theorem X20_incidence_not_negative_at_binary64
        (sun : Vector3 float) (child : Object3D float) :
  PrimFloat.ltb (angle sun child) 0 = false
  /\ (PrimFloat.is_nan (angle sun child) = true
      \/ PrimFloat.leb 0 (angle sun child) = true).
Proof.
  unfold angle. cbn [Math_max Number_float].
  set (d := dot _ _).
  change (of_Z 0) with 0%float.
  split; [apply Float64_max_0_not_negative|].
  unfold Float64.max.
  change (PrimFloat.is_nan 0) with false. cbn [orb].
  destruct (PrimFloat.is_nan d) eqn:Hnan; [left; reflexivity|].
  destruct (PrimFloat.ltb 0 d) eqn:Hpos.
  - right. rewrite leb_spec. rewrite ltb_spec in Hpos.
    change (Prim2SF 0) with (S754_zero false) in *.
    destruct (Prim2SF d) as [s| s | |s m e]; try destruct s;
      try discriminate; reflexivity.
  - right. destruct (PrimFloat.ltb d 0); [reflexivity|].
    change (PrimFloat.is_zero 0 && PrimFloat.get_sign 0) with false.
    reflexivity.
Qed.

(** X21. The original name multer records for a file is, as busboy's
    [basename] computes it, what follows the last slash or backslash of
    the name sent, and the empty string when that is "." or "..".  So
    it holds neither a slash nor a backslash and is neither "." nor
    "..", and a name without separators that is neither of the two is
    kept as it is. *)
Theorem X21_basename_is_the_last_component (sent : string) :
  basename sent = UploadSpec.base_name sent
  /\ UploadSpec.has_separator (basename sent) = false
  /\ basename sent <> "."
  /\ basename sent <> ".."
  /\ (UploadSpec.has_separator sent = false ->
      sent <> "." -> sent <> ".." -> basename sent = sent).
Proof.
  rewrite basename_base_name. unfold UploadSpec.base_name.
  split; [reflexivity|].
  destruct (in_dec string_dec (UploadSpec.last_component sent) ["."; ".."])
    as [Hin | Hout].
  - split; [reflexivity|]. split; [discriminate|]. split; [discriminate|].
    intros Hnone Hdot Hdots.
    rewrite (last_component_whole _ Hnone) in Hin.
    destruct Hin as [<- | [<- | []]]; congruence.
  - split; [apply last_component_no_separator|].
    split; [intros Heq; apply Hout; left; congruence|].
    split; [intros Heq; apply Hout; right; left; congruence|].
    intros Hnone _ _. apply last_component_whole. exact Hnone.
Qed.

(** A name sent with a Windows path, and a name that is kept. *)
Lemma X21_basename_is_the_last_component_witness :
  basename "city.glb" = "city.glb"
  /\ basename ("C:" ++ String backslash "models/city.glb") = "city.glb".
Proof.
  split; [|reflexivity].
  apply (proj2 (proj2 (proj2 (proj2
           (X21_basename_is_the_last_component "city.glb")))));
    [reflexivity|discriminate|discriminate].
Defined.
